(** * Conda version ordering and constraint matching (hashdist)

    A shallow embedding of [hashdist/spec/conda_version_matching.py]:
    [_VersionOrder], [_VersionSpec] and [_MatchSpec], as they run under
    Python 3.

    Text is [str] restricted to code points below 256: a string is a
    list of 8-bit characters.  Exceptions are values of [exn]; a
    fallible function returns a [result]. *)

From Stdlib Require Import Bool Arith NArith ZArith Ascii String DecimalString List Lia.
Import ListNotations.

Set Implicit Arguments.

(** ** Python text *)

Definition pystr := list ascii.

Coercion list_ascii_of_string : string >-> list.

Open Scope string_scope.
Open Scope list_scope.

Module Py.

Definition code (c : ascii) : N := N_of_ascii c.

Definition between (lo hi : N) (c : ascii) : bool :=
  (lo <=? code c)%N && (code c <=? hi)%N.

(** [str.isspace] on one character; also the class [\s] of [re]. *)
Definition isspace (c : ascii) : bool :=
  between 9 13 c || between 28 32 c || (code c =? 133)%N || (code c =? 160)%N.

(** ASCII digits; every caller runs after the character-set check of
    [_version_check_re], where [str.isdigit] and this test agree. *)
Definition isdigit_char (c : ascii) : bool := between 48 57 c.

Definition lower_char (c : ascii) : ascii :=
  if between 65 90 c || (between 192 222 c && negb (code c =? 215)%N)
  then ascii_of_N (code c + 32) else c.

Definition lower (s : pystr) : pystr := map lower_char s.

Fixpoint lstrip (s : pystr) : pystr :=
  match s with
  | c :: r => if isspace c then lstrip r else s
  | [] => []
  end.

Definition rstrip (s : pystr) : pystr := rev (lstrip (rev s)).

Definition strip (s : pystr) : pystr := rstrip (lstrip s).

(** [s.rstrip(ch)] for a one-character argument. *)
Fixpoint lstrip_char (ch : ascii) (s : pystr) : pystr :=
  match s with
  | c :: r => if (c =? ch)%char then lstrip_char ch r else s
  | [] => []
  end.

Definition rstrip_char (ch : ascii) (s : pystr) : pystr :=
  rev (lstrip_char ch (rev s)).

Definition eqb (s t : pystr) : bool :=
  if list_eq_dec ascii_dec s t then true else false.

(** [ch in s] for a one-character [ch]. *)
Definition contains (ch : ascii) (s : pystr) : bool :=
  existsb (fun c => (c =? ch)%char) s.

(** [s.isdigit()] *)
Definition isdigit (s : pystr) : bool :=
  match s with
  | [] => false
  | _ => forallb isdigit_char s
  end.

(** [s.replace(a, b)] for one-character [a]. *)
Definition replace (a : ascii) (b : pystr) (s : pystr) : pystr :=
  flat_map (fun c => if (c =? a)%char then b else [c]) s.

(** [s.split(sep)] for a one-character separator. *)
Fixpoint split (sep : ascii) (s : pystr) : list pystr :=
  match s with
  | [] => [[]]
  | c :: r =>
      if (c =? sep)%char then [] :: split sep r
      else match split sep r with
           | p :: ps => (c :: p) :: ps
           | [] => [[c]]
           end
  end.

(** [s.split()]: maximal runs of non-whitespace characters. *)
Fixpoint split_ws (s : pystr) : list pystr :=
  match s with
  | [] => []
  | c :: r =>
      if isspace c then split_ws r
      else match r with
           | d :: _ =>
               if isspace d then [c] :: split_ws r
               else match split_ws r with
                    | p :: ps => (c :: p) :: ps
                    | [] => [[c]]
                    end
           | [] => [[c]]
           end
  end.

(** [sep.join(l)] *)
Fixpoint join (sep : pystr) (l : list pystr) : pystr :=
  match l with
  | [] => []
  | [x] => x
  | x :: r => x ++ sep ++ join sep r
  end.

Fixpoint startswith (s p : pystr) : bool :=
  match p, s with
  | [], _ => true
  | a :: p', b :: s' => (a =? b)%char && startswith s' p'
  | _ :: _, [] => false
  end.

Definition endswith (s p : pystr) : bool := startswith (rev s) (rev p).

(** [s.partition(sep)] for a one-character separator: the text before
    the first occurrence and the text after it (empty when absent). *)
Fixpoint partition (sep : ascii) (s : pystr) : pystr * pystr :=
  match s with
  | [] => ([], [])
  | c :: r =>
      if (c =? sep)%char then ([], r)
      else let (a, b) := partition sep r in (c :: a, b)
  end.

(** The number that a string of ASCII digits writes. *)
Definition int_value (s : pystr) : N :=
  fold_left (fun acc c => (10 * acc + (code c - 48))%N) s 0%N.

(** [sys.int_max_str_digits], as the interpreter sets it. *)
Definition int_max_str_digits : N := 4300.

(** [int(s)] on a string of ASCII digits; [None] stands for the
    [ValueError] that [int] raises on more than [int_max_str_digits]
    digits, leading zeros counted. *)
Definition int (s : pystr) : option N :=
  if (int_max_str_digits <? N.of_nat (length s))%N then None
  else Some (int_value s).

(** [str(n)] for a natural number. *)
Definition str_of_N (n : N) : pystr :=
  list_ascii_of_string (NilZero.string_of_uint (N.to_uint n)).

(** [s < t] on strings: lexicographic on code points. *)
Fixpoint ltb (s t : pystr) : bool :=
  match s, t with
  | [], [] => false
  | [], _ :: _ => true
  | _ :: _, [] => false
  | a :: s', b :: t' =>
      if (code a <? code b)%N then true
      else if (code b <? code a)%N then false
      else ltb s' t'
  end.

(** [s[-1]], [None] standing for [IndexError]. *)
Definition last_char (s : pystr) : option ascii :=
  match rev s with
  | c :: _ => Some c
  | [] => None
  end.

End Py.

(** ** Exceptions *)

Inductive exn : Type :=
| ValueError (msg : pystr)
| AssertionError
| KeyError
| IndexError
| ReError.

Inductive result (A : Type) : Type :=
| Ok (a : A)
| Raise (e : exn).

Arguments Ok {A} a.
Arguments Raise {A} e.

Definition bind {A B : Type} (r : result A) (k : A -> result B) : result B :=
  match r with
  | Ok a => k a
  | Raise e => Raise e
  end.

Notation "x <- r ;; k" := (bind r (fun x => k))
  (at level 61, r at next level, right associativity).

Fixpoint mapM {A B : Type} (f : A -> result B) (l : list A) : result (list B) :=
  match l with
  | [] => Ok []
  | a :: r => b <- f a ;; bs <- mapM f r ;; Ok (b :: bs)
  end.

(** ** _VersionOrder *)

(** One subcomponent of a parsed version: an [int], a [str], or
    [float('inf')] (the value stored for the run [post]). *)
Inductive token : Type :=
| TInt (n : N)
| TStr (s : pystr)
| TInf.

Definition token_eq_dec (a b : token) : {a = b} + {a <> b}.
Proof.
  decide equality.
  - apply N.eq_dec.
  - apply (list_eq_dec ascii_dec).
Defined.

(** [c1 == c2] *)
Definition token_eqb (c1 c2 : token) : bool :=
  if token_eq_dec c1 c2 then true else false.

(** [isinstance(c, string_types)] *)
Definition is_str (c : token) : bool :=
  match c with
  | TStr _ => true
  | _ => false
  end.

(** [c1 < c2] for two strings or for two numbers, the only uses the
    source makes of it. *)
Definition token_ltb (c1 c2 : token) : bool :=
  match c1, c2 with
  | TStr a, TStr b => Py.ltb a b
  | TInt a, TInt b => (a <? b)%N
  | TInt _, TInf => true
  | _, _ => false
  end.

Record VersionOrder : Type := mkVersionOrder {
  norm_version : pystr;
  version : list (list token);
  local : list (list token)
}.

(** [self.fillvalue = 0] *)
Definition fillvalue : token := TInt 0.

(** [itertools.zip_longest(l1, l2, fillvalue=fill)] *)
Fixpoint zip_longest {A : Type} (fill : A) (l1 l2 : list A) : list (A * A) :=
  match l1, l2 with
  | [], _ => map (fun y => (fill, y)) l2
  | _, [] => map (fun x => (x, fill)) l1
  | x :: r1, y :: r2 => (x, y) :: zip_longest fill r1 r2
  end.

Module VO.

(** Character classes of [_version_split_re]. *)
Inductive cls : Type := CDigit | CStar | COther.

Definition cls_of (c : ascii) : cls :=
  if Py.isdigit_char c then CDigit
  else if (c =? "*")%char then CStar
  else COther.

Definition cls_eqb (a b : cls) : bool :=
  match a, b with
  | CDigit, CDigit | CStar, CStar | COther, COther => true
  | _, _ => false
  end.

(** [_version_split_re.findall(s)]: the maximal runs of digits, of
    stars and of other characters, left to right. *)
Fixpoint findall_runs (s : pystr) : list pystr :=
  match s with
  | [] => []
  | c :: r =>
      match findall_runs r with
      | (d :: p) :: ps =>
          if cls_eqb (cls_of c) (cls_of d) then (c :: d :: p) :: ps
          else [c] :: (d :: p) :: ps
      | _ => [[c]]
      end
  end.

(** The characters accepted by [_version_check_re]. *)
Definition valid_char (c : ascii) : bool :=
  (c =? "*")%char || (c =? ".")%char || (c =? "+")%char || (c =? "!")%char
  || (c =? "_")%char || Py.isdigit_char c || Py.between 97 122 c.

(** The text a pattern ending in [$] has to cover: [$] also matches
    just before a newline that ends the string. *)
Definition before_dollar (s : pystr) : pystr :=
  match rev s with
  | c :: r => if (c =? "010")%char then rev r else s
  | [] => s
  end.

(** [_version_check_re.match(s)] as a truth value. *)
Definition version_check (s : pystr) : bool :=
  match before_dollar s with
  | [] => false
  | v => forallb valid_char v
  end.

(** The message of the [ValueError] that [int(r)] raises. *)
Definition int_limit_message (r : pystr) : pystr :=
  "Exceeds the limit (4300 digits) for integer string conversion: value has "
  ++ Py.str_of_N (N.of_nat (length r))
  ++ " digits; use sys.set_int_max_str_digits() to increase the limit".

(** The body of the loop over [j]: one run [c[j]]. *)
Definition convert_run (r : pystr) : result token :=
  if Py.isdigit r then
    match Py.int r with
    | Some n => Ok (TInt n)
    | None => Raise (ValueError (int_limit_message r))
    end
  else if Py.eqb r "post" then Ok TInf
  else if Py.eqb r "dev" then Ok (TStr "DEV")
  else Ok (TStr r).

(** The body of the loop over [k]: one component [v[k]]. *)
Definition parse_component (message : pystr) (vk : pystr) : result (list token) :=
  match findall_runs vk with
  | [] => Raise (ValueError (message ++ "empty version component."))
  | c =>
      c <- mapM convert_run c ;;
      match vk with
      | c0 :: _ => if Py.isdigit_char c0 then Ok c else Ok (fillvalue :: c)
      | [] => Raise IndexError
      end
  end.

(** [__new__] from the assignment of [norm_version] on: [version] is
    the normalized string. *)
Definition parse_norm (message : pystr) (version : pystr) : result VersionOrder :=
  let norm := version in
  let version := Py.split "!" version in
  epoch <-
    match version with
    | [_] => Ok ["0"%char]
    | [e; _] =>
        if Py.isdigit e then Ok e
        else Raise (ValueError (message ++ "epoch must be an integer."))
    | _ => Raise (ValueError (message ++ "duplicated epoch separator '!'."))
    end ;;
  let version := Py.split "+" (last version []) in
  loc <-
    match version with
    | [_] => Ok []
    | [_; l] => Ok (Py.split "." (Py.replace "_" "." l))
    | _ => Raise (ValueError (message ++ "duplicated local version separator '+'."))
    end ;;
  let ver := epoch :: Py.split "." (Py.replace "_" "." (hd [] version)) in
  ver' <- mapM (parse_component message) ver ;;
  loc' <- mapM (parse_component message) loc ;;
  Ok (mkVersionOrder norm ver' loc').

(** [__new__] up to the assignment of [norm_version]: [Ok] carries
    the normalized string. *)
Definition normalize (message : pystr) (version : pystr) : result pystr :=
  let version := Py.lower (Py.rstrip (Py.strip version)) in
  if Py.eqb version [] then Raise (ValueError "Empty version string.")
  else
    let invalid := negb (version_check version) in
    let '(version, invalid) :=
      if invalid && Py.contains "-" version && negb (Py.contains "_" version)
      then let version := Py.replace "-" "_" version in
           (version, negb (version_check version))
      else (version, invalid) in
    if invalid then Raise (ValueError (message ++ "invalid character(s)."))
    else Ok version.

(** [_VersionOrder(version)] for a string [version] met for the first
    time.  The memo table [_version_cache] maps a raw string to the
    object this body builds; for a string on which the body returns,
    every later call yields this same value.  For a string on which the
    body raises, the table keeps the unfinished object and every later
    call returns it: [Cache.new] below is the call with the table. *)
Definition new (version : pystr) : result VersionOrder :=
  let message := "Malformed version string '" ++ version ++ "': " in
  version <- normalize message version ;;
  parse_norm message version.

(** [__str__] *)
Definition str (self : VersionOrder) : pystr := norm_version self.

(** [_eq] *)
Definition _eq (t1 t2 : list (list token)) : bool :=
  forallb (fun '(v1, v2) =>
             forallb (fun '(c1, c2) => token_eqb c1 c2)
                     (zip_longest fillvalue v1 v2))
          (zip_longest [] t1 t2).

(** [__eq__] *)
Definition eq (self other : VersionOrder) : bool :=
  _eq (version self) (version other) && _eq (local self) (local other).

(** [__ne__] *)
Definition ne (self other : VersionOrder) : bool := negb (eq self other).

(** A [for] loop whose body either returns or continues: the first
    iteration that returns decides. *)
Fixpoint first_return {A B : Type} (body : A -> option B) (l : list A) : option B :=
  match l with
  | [] => None
  | a :: r =>
      match body a with
      | Some b => Some b
      | None => first_return body r
      end
  end.

(** The body of the innermost loop of [__lt__]. *)
Definition lt_step (p : token * token) : option bool :=
  let (c1, c2) := p in
  if token_eqb c1 c2 then None
  else if is_str c1 then
    if negb (is_str c2) then Some true else Some (token_ltb c1 c2)
  else if is_str c2 then Some false
  else Some (token_ltb c1 c2).

Definition lt_component (p : list token * list token) : option bool :=
  let (v1, v2) := p in first_return lt_step (zip_longest fillvalue v1 v2).

Definition lt_part (p : list (list token) * list (list token)) : option bool :=
  let (t1, t2) := p in first_return lt_component (zip_longest [] t1 t2).

(** [__lt__] *)
Definition lt (self other : VersionOrder) : bool :=
  match first_return lt_part
          (combine [version self; local self] [version other; local other]) with
  | Some b => b
  | None => false
  end.

(** [__gt__], [__le__], [__ge__] *)
Definition gt (self other : VersionOrder) : bool := lt other self.
Definition le (self other : VersionOrder) : bool := negb (lt other self).
Definition ge (self other : VersionOrder) : bool := negb (lt self other).

(** [startswith] *)
Definition startswith (self other : VersionOrder) : result bool :=
  let go (t1 t2 : list (list token)) : result bool :=
    let nt := length t2 - 1 in
    if negb (_eq (firstn nt t1) (firstn nt t2)) then Ok false
    else
      let v1 := nth nt t1 [] in
      let v2 := last t2 [] in
      match v2 with
      | [] =>
          (* nt = -1: both slices drop the last item, then v2[-1] fails *)
          if negb (_eq [removelast v1] [[]]) then Ok false
          else Raise IndexError
      | _ =>
          let nt := length v2 - 1 in
          if negb (_eq [firstn nt v1] [firstn nt v2]) then Ok false
          else
            let c1 := nth nt v1 fillvalue in
            let c2 := last v2 fillvalue in
            match c2 with
            | TStr p =>
                Ok (match c1 with
                    | TStr s => Py.startswith s p
                    | _ => false
                    end)
            | _ => Ok (token_eqb c1 c2)
            end
      end in
  match local other, version other with
  | _ :: _, _ =>
      if negb (_eq (version self) (version other)) then Ok false
      else go (local self) (local other)
  | [], _ :: _ => go (version self) (version other)
  | [], [] => Ok true
  end.

End VO.

(** ** _VersionSpec *)

(** The first item of a combinator's [spec] tuple: one of the strings
    ['all'] and ['any'], which [__new__] builds, or one of the built-in
    functions [all] and [any], which [__and__] and [__or__] build. *)
Inductive tag : Type :=
| TagStrAll
| TagStrAny
| TagFnAll
| TagFnAny.

(** The value of [self.op]: an entry of [_opdict] or
    [_VersionOrder.startswith]. *)
Inductive relop : Type :=
| OpEq | OpNe | OpLe | OpGe | OpLt | OpGt | OpStartswith.

(** A [_VersionSpec] object, by the method stored in [self.match]:
    [exact_match_], [regex_match_] ([regex] is the source of the compiled
    pattern), [veval_match_], [triv_match_], and [all_match_] or
    [any_match_] for a tuple [spec]. *)
#[local] Unset Elimination Schemes.
Inductive VersionSpec : Type :=
| VSExact (spec : pystr)
| VSRegex (spec : pystr) (regex : pystr)
| VSEval (spec : pystr) (op : relop) (cmp : VersionOrder)
| VSTriv (spec : pystr)
| VSTuple (t : tag) (children : list VersionSpec).
#[local] Set Elimination Schemes.

(** [spec[0] == 'all'], [s[0] == all] and [s[0] == any] *)
Definition tag_is_str_all (t : tag) : bool :=
  match t with TagStrAll => true | _ => false end.
Definition tag_is_fn_all (t : tag) : bool :=
  match t with TagFnAll => true | _ => false end.
Definition tag_is_fn_any (t : tag) : bool :=
  match t with TagFnAny => true | _ => false end.

(** [_regex_split_re.match(spec)]: the matched text [m.group()] and the
    text after it, [spec[m.end():]]. *)
Fixpoint regex_split_scan (acc r : pystr) : option (pystr * pystr) :=
  match r with
  | [] => None
  | d :: r' =>
      if (d =? "$")%char then Some (rev (d :: acc), r')
      else if Py.isspace d then None
      else regex_split_scan (d :: acc) r'
  end.

Definition regex_split (spec : pystr) : option (pystr * pystr) :=
  match spec with
  | a :: c :: r =>
      if (a =? "^")%char && negb (Py.isspace c) then regex_split_scan [c; a] r
      else None
  | _ => None
  end.

(** [_regex_split_converter] *)
Definition regex_split_converter (operator : ascii) : result tag :=
  if (operator =? "|")%char then Ok TagStrAny
  else if (operator =? ",")%char then Ok TagStrAll
  else Raise KeyError.

(** The alternatives of [_version_relation_re], in order. *)
Definition relation_ops : list (pystr * relop) :=
  [("==" : pystr, OpEq); ("!=" : pystr, OpNe); ("<=" : pystr, OpLe);
   (">=" : pystr, OpGe); ("<" : pystr, OpLt); (">" : pystr, OpGt)].

(** [(?![=<>!])(\S+)$] on the text after the operator. *)
Definition relation_rest (r : pystr) : option pystr :=
  match r with
  | [] => None
  | c :: _ =>
      if (c =? "=")%char || (c =? "<")%char || (c =? ">")%char || (c =? "!")%char
      then None
      else
        let b := VO.before_dollar r in
        match b with
        | [] => None
        | _ => if forallb (fun d => negb (Py.isspace d)) b then Some b else None
        end
  end.

(** [_version_relation_re.match(spec)]: the two groups. *)
Definition relation_match (spec : pystr) : option (relop * pystr) :=
  VO.first_return
    (fun '(sym, op) =>
       if Py.startswith spec sym
       then match relation_rest (skipn (length sym) spec) with
            | Some b => Some (op, b)
            | None => None
            end
       else None)
    relation_ops.

(** [self.op(a, b)] *)
Definition apply_op (op : relop) (a b : VersionOrder) : result bool :=
  match op with
  | OpEq => Ok (VO.eq a b)
  | OpNe => Ok (VO.ne a b)
  | OpLe => Ok (VO.le a b)
  | OpGe => Ok (VO.ge a b)
  | OpLt => Ok (VO.lt a b)
  | OpGt => Ok (VO.gt a b)
  | OpStartswith => VO.startswith a b
  end.

(** [tuple(_VersionSpec(s) for s in l)], stopping at the first exception
    and at the end of the fuel. *)
Fixpoint compile_all (f : pystr -> option (result VersionSpec)) (l : list pystr)
  : option (result (list VersionSpec)) :=
  match l with
  | [] => Some (Ok [])
  | s :: r =>
      match f s with
      | None => None
      | Some (Raise e) => Some (Raise e)
      | Some (Ok x) =>
          match compile_all f r with
          | None => None
          | Some (Raise e) => Some (Raise e)
          | Some (Ok xs) => Some (Ok (x :: xs))
          end
      end
  end.

Definition tupled (t : tag) (r : option (result (list VersionSpec)))
  : option (result VersionSpec) :=
  match r with
  | None => None
  | Some (Raise e) => Some (Raise e)
  | Some (Ok xs) => Some (Ok (VSTuple t xs))
  end.

Section Engine.

(** Python's [re] module, which is not part of the repository:
    [re_compile p] is [None] when [re.compile(p)] raises [re.error], and
    otherwise the truth value of [regex.match(s)] as a function of [s]. *)
Variable re_compile : pystr -> option (pystr -> bool).

(** The branches of [_VersionSpec.__new__] that build [self] without
    a recursive call, from [spec.startswith(('=', '<', '>', '!'))] on.
    [self.cmp] is parsed by [VO.new]: this is the call of [_VersionOrder]
    on a string that is valid or that the memo table does not hold. *)
Definition VersionSpec_leaf (spec : pystr) : result VersionSpec :=
  if existsb (fun p : pystr => Py.startswith spec p)
             ["=" : pystr; "<" : pystr; ">" : pystr; "!" : pystr] then
    match relation_match spec with
    | None => Raise (ValueError ("Invalid spec: " ++ spec))
    | Some (op, b) => cmp <- VO.new b ;; Ok (VSEval spec op cmp)
    end
  else if Py.eqb spec "*" then Ok (VSTriv spec)
  else if Py.contains "*" (Py.rstrip_char "*" spec) then
    let rx := Py.replace "." "\." spec in
    let rx := Py.replace "+" "\+" rx in
    let rx := Py.replace "*" ".*" rx in
    let rx := "^(?:" ++ rx ++ ")$" in
    match re_compile rx with
    | None => Raise ReError
    | Some _ => Ok (VSRegex spec rx)
    end
  else if Py.endswith spec "*" then
    cmp <- VO.new (Py.rstrip_char "." (Py.rstrip_char "*" spec)) ;;
    Ok (VSEval spec OpStartswith cmp)
  else Ok (VSExact spec).

(** [_VersionSpec.__new__] on a string, with a bound on the depth of
    the recursion; [None] when the bound is reached. *)
Fixpoint VersionSpec_fuel (fuel : nat) (spec : pystr) : option (result VersionSpec) :=
  match fuel with
  | O => None
  | S fuel =>
      match regex_split spec with
      | Some (first, tail) =>
          match tail with
          | [] =>
              match re_compile spec with
              | None => Some (Raise ReError)
              | Some _ => Some (Ok (VSRegex first spec))
              end
          | operator :: rest =>
              match regex_split_converter operator with
              | Raise e => Some (Raise e)
              | Ok t => tupled t (compile_all (VersionSpec_fuel fuel) [first; rest])
              end
          end
      | None =>
          if Py.contains "|" spec then
            tupled TagStrAny (compile_all (VersionSpec_fuel fuel) (Py.split "|" spec))
          else if Py.contains "," spec then
            tupled TagStrAll (compile_all (VersionSpec_fuel fuel) (Py.split "," spec))
          else Some (VersionSpec_leaf spec)
      end
  end.

(** [_VersionSpec(spec)] for a string [spec]; every recursive call is
    on a shorter string, so the bound is never reached and a larger one
    changes nothing (see [VersionSpec_new_fuel], [VersionSpec_fuel_mono]). *)
Definition VersionSpec_new (spec : pystr) : result VersionSpec :=
  match VersionSpec_fuel (S (length spec)) spec with
  | Some r => r
  | None => Raise ReError
  end.

(** [_VersionSpec(spec)] for a tuple [spec = (t, children)]. *)
Definition VersionSpec_of_tuple (t : tag) (children : list VersionSpec) : VersionSpec :=
  VSTuple t children.

(** [__and__] and [__or__] on two [_VersionSpec] objects *)
Definition VersionSpec_and (self other : VersionSpec) : VersionSpec :=
  VersionSpec_of_tuple TagFnAll [self; other].
Definition VersionSpec_or (self other : VersionSpec) : VersionSpec :=
  VersionSpec_of_tuple TagFnAny [self; other].

(** [self.match(vspec)] *)
Fixpoint VersionSpec_match (self : VersionSpec) (vspec : pystr) : result bool :=
  match self with
  | VSExact spec => Ok (Py.eqb spec vspec)
  | VSRegex _ regex =>
      match re_compile regex with
      | Some m => Ok (m vspec)
      | None => Raise ReError
      end
  | VSEval _ op cmp => v <- VO.new vspec ;; apply_op op v cmp
  | VSTriv _ => Ok true
  | VSTuple t children =>
      if tag_is_str_all t then
        (fix all_ (l : list VersionSpec) : result bool :=
           match l with
           | [] => Ok true
           | s :: r => b <- VersionSpec_match s vspec ;; if b then all_ r else Ok false
           end) children
      else
        (fix any_ (l : list VersionSpec) : result bool :=
           match l with
           | [] => Ok false
           | s :: r => b <- VersionSpec_match s vspec ;; if b then Ok true else any_ r
           end) children
  end.

(** [str(self, inand)] *)
Fixpoint VersionSpec_str (self : VersionSpec) (inand : bool) : pystr :=
  match self with
  | VSExact spec | VSRegex spec _ | VSEval spec _ _ | VSTriv spec => spec
  | VSTuple t children =>
      let newand := negb inand && tag_is_fn_all t in
      let inand := inand && tag_is_fn_any t in
      let s := Py.join (if tag_is_str_all t then "," else "|")
                       (map (fun x => VersionSpec_str x newand) children) in
      if inand then "(" ++ s ++ ")" else s
  end.

(** [is_exact] *)
Definition VersionSpec_is_exact (self : VersionSpec) : bool :=
  match self with
  | VSExact _ => true
  | _ => false
  end.

End Engine.

(** ** _Dist and _MatchSpec *)

Definition CONDA_TARBALL_EXTENSION : pystr := ".tar.bz2".

Module Dist.

Record t : Type := mk {
  name : pystr;
  version : pystr;
  build_string : pystr
}.

(** [quad], without its constant fourth item *)
Definition quad (self : t) : pystr * pystr * pystr :=
  (name self, version self, build_string self).

End Dist.

Module MS.

(** The method stored in [self.match_fast], with the fields it
    reads: [_match_any]; [_match_version] ([self.version] is a
    [_VersionSpec]); [_match_exact] ([self.version] and [self.build] are
    strings); [_match_full] ([self.build] is a pattern compiled from the
    source [build]). *)
Inductive fast : Type :=
| MatchAny
| MatchVersion (version : VersionSpec)
| MatchExact (version build : pystr)
| MatchFull (version : VersionSpec) (build : pystr).

Record t : Type := mk {
  target : option pystr;
  optional : bool;
  spec : pystr;
  name : pystr;
  strictness : nat;
  match_fast : fast
}.

End MS.

(** The loop over the attribute list: [acc] is [(self.target,
    self.optional)]. *)
Definition attr_step (spec : pystr) (acc : result (option pystr * bool)) (opart : pystr)
  : result (option pystr * bool) :=
  a <- acc ;;
  let (target, optional) := a in
  if Py.eqb opart "optional" then Ok (target, true)
  else if Py.startswith opart "target=" then
    Ok (Some (Py.strip (nth 1 (Py.split "=" opart) [])), optional)
  else Raise (ValueError ("Invalid MatchSpec: " ++ spec)).

(** The statements under [if oparts:], for a non-empty [oparts]. *)
Definition parse_attrs (spec oparts : pystr) (target : option pystr) (optional : bool)
  : result (option pystr * bool) :=
  match Py.last_char (Py.strip oparts) with
  | None => Raise IndexError
  | Some c =>
      if negb (c =? ")")%char then Raise (ValueError ("Invalid MatchSpec: " ++ spec))
      else fold_left (attr_step spec)
                     (Py.split "," (removelast (Py.strip oparts)))
                     (Ok (target, optional))
  end.

(** [self.target] is tested for truth in [__str__]. *)
Definition truthy (target : option pystr) : bool :=
  match target with
  | Some (_ :: _) => true
  | _ => false
  end.

(** [parts]: the whole text for a package archive, else its tokens. *)
Definition split_parts (spec : pystr) : list pystr :=
  if Py.endswith spec CONDA_TARBALL_EXTENSION then [spec] else Py.split_ws spec.

Section Matching.

Variable re_compile : pystr -> option (pystr -> bool).

(** [__new__] from [spec = self.spec = spec.strip()] on, [target] and
    [optional] being [self.target] and [self.optional]. *)
Definition MatchSpec_build (target : option pystr) (optional : bool)
           (normalize : bool) (spec : pystr) : result MS.t :=
  let spec := Py.strip spec in
  let parts := split_parts spec in
  let nparts := length parts in
  if negb ((1 <=? nparts)%nat && (nparts <=? 3)%nat) then Raise AssertionError
  else
    let name := nth 0 parts [] in
    if (nparts =? 1)%nat then Ok (MS.mk target optional spec name 1 MS.MatchAny)
    else
      vspec <- VersionSpec_new re_compile (nth 1 parts []) ;;
      let general (spec : pystr) (parts : list pystr) (vspec : VersionSpec) :=
        if (nparts =? 2)%nat
        then Ok (MS.mk target optional spec name 2 (MS.MatchVersion vspec))
        else
          let rx := "^(?:" ++ Py.replace "*" ".*" (nth 2 parts []) ++ ")$" in
          match re_compile rx with
          | None => Raise ReError
          | Some _ => Ok (MS.mk target optional spec name 2 (MS.MatchFull vspec rx))
          end in
      if VersionSpec_is_exact vspec then
        if (2 <? nparts)%nat && negb (Py.contains "*" (nth 2 parts [])) then
          Ok (MS.mk target optional spec name 3
                    (MS.MatchExact (nth 1 parts []) (nth 2 parts [])))
        else if normalize && negb (Py.endswith (nth 1 parts []) "*") then
          let parts := [nth 0 parts []; nth 1 parts [] ++ "*"] ++ skipn 2 parts in
          vspec <- VersionSpec_new re_compile (nth 1 parts []) ;;
          general (Py.join " " parts) parts vspec
        else general spec parts vspec
      else general spec parts vspec.

(** [_MatchSpec(spec, target, optional, normalize)] for a string
    [spec]; [None] for [target] and for [optional] is the default
    [Ellipsis]. *)
Definition MatchSpec_new (spec : pystr) (target : option (option pystr))
           (optional : option bool) (normalize : bool) : result MS.t :=
  let target := match target with None => None | Some t => t end in
  let optional := match optional with None => false | Some b => b end in
  let '(spec, oparts) := Py.partition "(" spec in
  a <- match oparts with
       | [] => Ok (target, optional)
       | _ => parse_attrs spec oparts target optional
       end ;;
  let (target, optional) := a in
  MatchSpec_build target optional normalize spec.

(** [is_exact] and [is_simple] *)
Definition MatchSpec_is_exact (self : MS.t) : bool :=
  match MS.match_fast self with MS.MatchExact _ _ => true | _ => false end.
Definition MatchSpec_is_simple (self : MS.t) : bool :=
  match MS.match_fast self with MS.MatchAny => true | _ => false end.

(** [self.match_fast(version, build)], as a truth value *)
Definition MatchSpec_match_fast (self : MS.t) (version build : pystr) : result bool :=
  match MS.match_fast self with
  | MS.MatchAny => Ok true
  | MS.MatchVersion v => VersionSpec_match re_compile v version
  | MS.MatchExact v b => Ok (Py.eqb build b && Py.eqb v version)
  | MS.MatchFull v rx =>
      match re_compile rx with
      | None => Raise ReError
      | Some m => if m build then VersionSpec_match re_compile v version else Ok false
      end
  end.

(** [match(dist)] *)
Definition MatchSpec_match (self : MS.t) (dist : Dist.t) : result bool :=
  let '(name, version, build) := Dist.quad dist in
  if negb (Py.eqb name (MS.name self)) then Ok false
  else MatchSpec_match_fast self version build.

(** [__str__] *)
Definition MatchSpec_str (self : MS.t) : pystr :=
  let res := MS.spec self in
  if MS.optional self || truthy (MS.target self) then
    let args := if MS.optional self then ["optional" : pystr] else [] in
    let args := if truthy (MS.target self)
                then args ++ ["target=" ++ match MS.target self with
                                            | Some t => t
                                            | None => []
                                            end]
                else args in
    res ++ " (" ++ Py.join "," args ++ ")"
  else res.

(** [__hash__], over Python's [hash] on strings *)
Definition MatchSpec_hash (hash : pystr -> Z) (self : MS.t) : Z :=
  hash (MS.spec self).

End Matching.

(** ** A fragment of Python's regular expressions

    The patterns that the wildcard translations produce from plain
    tokens: [^(?:] items [)$] and [^] items [$], an item being a literal
    character, [\.], [\+], [.] or one of these followed by [*]. *)
Module Re.

Inductive atom : Type :=
| ALit (c : ascii)
| ADot.

Inductive item : Type :=
| IOne (a : atom)
| IStar (a : atom).

Definition is_meta (c : ascii) : bool :=
  existsb (fun m => (c =? m)%char)
          (list_ascii_of_string "\^$.|?*+()[]{}").

Definition quantified (a : atom) (r : pystr) : item * pystr :=
  match r with
  | "*"%char :: r' => (IStar a, r')
  | _ => (IOne a, r)
  end.

(** The items of a pattern body; [None] outside the fragment. *)
Fixpoint parse_items (fuel : nat) (p : pystr) : option (list item) :=
  match fuel with
  | O => None
  | S fuel =>
      match p with
      | [] => Some []
      | c :: r =>
          let next (a : atom) (r : pystr) :=
            let (i, r') := quantified a r in
            match parse_items fuel r' with
            | Some l => Some (i :: l)
            | None => None
            end in
          if (c =? "\")%char then
            match r with
            | d :: r' =>
                if (d =? ".")%char || (d =? "+")%char then next (ALit d) r'
                else None
            | [] => None
            end
          else if (c =? ".")%char then next ADot r
          else if is_meta c then None
          else next (ALit c) r
      end
  end.

Definition atom_ok (a : atom) (c : ascii) : bool :=
  match a with
  | ALit d => (c =? d)%char
  | ADot => negb (c =? "010")%char
  end.

(** [$]: the end of the string, or just before a final newline. *)
Definition at_end (s : pystr) : bool :=
  match s with
  | [] => true
  | [c] => (c =? "010")%char
  | _ => false
  end.

(** Does the item sequence, followed by [$], match at the start of [s]? *)
Fixpoint match_items (l : list item) (s : pystr) : bool :=
  match l with
  | [] => at_end s
  | IOne a :: r =>
      match s with
      | c :: s' => atom_ok a c && match_items r s'
      | [] => false
      end
  | IStar a :: r =>
      (fix star (s : pystr) : bool :=
         match_items r s
         || match s with
            | c :: s' => atom_ok a c && star s'
            | [] => false
            end) s
  end.

(** The body of a pattern of one of the two shapes. *)
Definition body (p : pystr) : option pystr :=
  if Py.startswith p "^(?:" && Py.endswith p ")$" && (6 <=? length p)%nat
  then Some (firstn (length p - 6) (skipn 4 p))
  else if Py.startswith p "^" && Py.endswith p "$" && (2 <=? length p)%nat
  then Some (firstn (length p - 2) (skipn 1 p))
  else None.

Definition fragment (p : pystr) : option (list item) :=
  match body p with
  | Some b => parse_items (S (length b)) b
  | None => None
  end.

(** An engine defined on the fragment only. *)
Definition compile (p : pystr) : option (pystr -> bool) :=
  match fragment p with
  | Some l => Some (match_items l)
  | None => None
  end.

(** [re] implements the fragment: on a pattern of the fragment,
    [re.compile] succeeds and [match] decides as [match_items] does. *)
Definition implements (re : pystr -> option (pystr -> bool)) : Prop :=
  forall p l, fragment p = Some l ->
    exists m, re p = Some m /\ forall s, m s = match_items l s.

End Re.


(** ** Comparisons of version strings *)

(** [_VersionOrder(a) < _VersionOrder(b)], [==] and [>] on two strings;
    [false] when one of them is malformed. *)
Definition on_versions (op : VersionOrder -> VersionOrder -> bool) (a b : pystr) : bool :=
  match VO.new a, VO.new b with
  | Ok va, Ok vb => op va vb
  | _, _ => false
  end.

Definition vlt : pystr -> pystr -> bool := on_versions VO.lt.
Definition veq : pystr -> pystr -> bool := on_versions VO.eq.
Definition vgt : pystr -> pystr -> bool := on_versions VO.gt.

(** [ValueError] is what the source raises for a malformed version or
    spec. *)
Definition is_value_error (e : exn) : bool :=
  match e with
  | ValueError _ => true
  | _ => false
  end.

(** The last character, if any, is not a newline. *)
Definition ends_clean (s : pystr) : Prop :=
  match rev s with
  | c :: _ => (c =? "010")%char = false
  | [] => True
  end.

(** The object built for a valid string. *)
Definition parsed (s : pystr) : VersionOrder :=
  match VO.new s with
  | Ok v => v
  | Raise _ => mkVersionOrder [] [] []
  end.

(** The epoch of a parsed version: the number in [self.version[0]]. *)
Definition epoch (v : VersionOrder) : option N :=
  match version v with
  | (TInt e :: _) :: _ => Some e
  | _ => None
  end.

(** [_MatchSpec(spec).match(_Dist(name, version, build))] *)
Definition spec_matches (re : pystr -> option (pystr -> bool))
           (spec name version build : pystr) : result bool :=
  m <- MatchSpec_new re spec None None false ;;
  MatchSpec_match re m (Dist.mk name version build).

(** [re.sub('[><=!]+', ' \g<0>', spec)]: a space before every maximal
    run of operator characters. *)
Fixpoint space_operators (inrun : bool) (spec : pystr) : pystr :=
  match spec with
  | [] => []
  | c :: r =>
      if (c =? ">")%char || (c =? "<")%char || (c =? "=")%char || (c =? "!")%char
      then (if inrun then [c] else [" "%char; c]) ++ space_operators true r
      else c :: space_operators false r
  end.

(** [conda_match_eval(spec, pkg_dict)], the dictionary holding [name],
    [version] and [build_string]. *)
Definition conda_match_eval (re : pystr -> option (pystr -> bool))
           (spec name version build : pystr) : result bool :=
  spec_matches re (space_operators false spec) name version build.

(** ** Orders decided by a loop that returns at the first difference *)

(** What two consecutive comparisons say about the third. *)
Definition chains (x y z : option bool) : Prop :=
  match x, y with
  | None, _ => z = y
  | _, None => z = x
  | Some true, Some true => z = Some true
  | Some false, Some false => z = Some false
  | _, _ => True
  end.

(** [step (a, b)] is [None] when [a] and [b] are equivalent, and else
    [Some] of whether [a] is below [b]. *)
Record weak_order {A : Type} (step : A * A -> option bool) : Prop := {
  wo_refl : forall a, step (a, a) = None;
  wo_flip : forall a b, step (b, a) = option_map negb (step (a, b));
  wo_chain : forall a b c, chains (step (a, b)) (step (b, c)) (step (a, c))
}.

(** The loop over [zip_longest(l1, l2, fillvalue=fill)]. *)
Definition padded {A : Type} (fill : A) (step : A * A -> option bool)
           (p : list A * list A) : option bool :=
  let (l1, l2) := p in VO.first_return step (zip_longest fill l1 l2).

(** The outer loop of [__lt__], over the versions and then the locals. *)
Definition VO_cmp (a b : VersionOrder) : option bool :=
  VO.first_return VO.lt_part (combine [version a; local a] [version b; local b]).

Definition exactly_one (x y z : bool) : Prop :=
  (x = true /\ y = false /\ z = false) \/
  (x = false /\ y = true /\ z = false) \/
  (x = false /\ y = false /\ z = true).

(** The order that [lt_step] reports on two different subcomponents:
    strings below numbers, strings among themselves, numbers among
    themselves. *)
Definition tlt (c1 c2 : token) : bool :=
  match c1, c2 with
  | TStr a, TStr b => Py.ltb a b
  | TStr _, _ => true
  | _, TStr _ => false
  | _, _ => token_ltb c1 c2
  end.

(** ** Shape of parsed versions *)

(** A component that begins with a number. *)
Definition starts_with_int (c : list token) : bool :=
  match c with
  | TInt _ :: _ => true
  | _ => false
  end.

(** A subcomponent as the conversion loop of [__new__] leaves it: a
    string is not empty and is neither [post] nor [dev]. *)
Definition token_ok (t : token) : bool :=
  match t with
  | TStr s => negb (Py.eqb s []) && negb (Py.eqb s "post") && negb (Py.eqb s "dev")
  | _ => true
  end.

Definition component_ok (c : list token) : bool :=
  starts_with_int c && forallb token_ok c.

(** ** The texts a normalized version string is cut into *)

(** The epoch, the version and, after [+], the local version, as the
    two [split] calls of [__new__] find them; [None] where [__new__]
    raises. *)
Definition cut_local (e b : pystr) : option (pystr * pystr * option pystr) :=
  match Py.split "+" b with
  | [m] => Some (e, m, None)
  | [m; l] => Some (e, m, Some l)
  | _ => None
  end.

Definition sections (n : pystr) : option (pystr * pystr * option pystr) :=
  match Py.split "!" n with
  | [b] => cut_local ["0"%char] b
  | [e; b] => if Py.isdigit e then cut_local e b else None
  | _ => None
  end.

(** [y.replace('_', '.').split('.')] *)
Definition components (y : pystr) : list pystr :=
  Py.split "." (Py.replace "_" "." y).

Definition local_components (l : option pystr) : list pystr :=
  match l with
  | Some l => components l
  | None => []
  end.

(** The last character is a digit. *)
Definition ends_digit (s : pystr) : bool :=
  match rev s with
  | c :: _ => Py.isdigit_char c
  | [] => false
  end.

(** The characters of one component: digits, lower-case letters and
    the star. *)
Definition comp_char (c : ascii) : bool :=
  Py.isdigit_char c || Py.between 97 122 c || (c =? "*")%char.

Definition letter (c : ascii) : bool := Py.between 97 122 c.

(** A text of at most [sys.int_max_str_digits] characters: [int]
    accepts every run of digits in it. *)
Definition fits_int (x : pystr) : bool :=
  (N.of_nat (length x) <=? Py.int_max_str_digits)%N.

(** The body of [startswith] from [nt = len(t2) - 1] on. *)
Definition prefix_test (t1 t2 : list (list token)) : result bool :=
  let nt := length t2 - 1 in
  if negb (VO._eq (firstn nt t1) (firstn nt t2)) then Ok false
  else
    let v1 := nth nt t1 [] in
    let v2 := last t2 [] in
    match v2 with
    | [] => if negb (VO._eq [removelast v1] [[]]) then Ok false else Raise IndexError
    | _ =>
        let nt := length v2 - 1 in
        if negb (VO._eq [firstn nt v1] [firstn nt v2]) then Ok false
        else
          let c1 := nth nt v1 fillvalue in
          let c2 := last v2 fillvalue in
          match c2 with
          | TStr p => Ok (match c1 with
                          | TStr s => Py.startswith s p
                          | _ => false
                          end)
          | _ => Ok (token_eqb c1 c2)
          end
    end.

(** ** Compiling and matching in one step *)

(** [_VersionSpec(spec).match(version)] *)
Definition version_matches (re : pystr -> option (pystr -> bool))
           (spec version : pystr) : result bool :=
  vs <- VersionSpec_new re spec ;; VersionSpec_match re vs version.

(** ** Command-line specs *)

(** The class [[><=!]] of the substitution in [conda_match_eval]. *)
Definition operator_char (c : ascii) : bool :=
  (c =? ">")%char || (c =? "<")%char || (c =? "=")%char || (c =? "!")%char.

(** A character of a package name on the command line: no space, no
    operator character and no parenthesis that opens an attribute list. *)
Definition name_char (c : ascii) : bool :=
  negb (Py.isspace c) && negb (operator_char c) && negb (c =? "(")%char.

(** ** fileutils: removing a tree with retries *)

Module Fileutils.

(** What one call of [shutil.rmtree(path)] does: it returns, raises
    [OSError], or raises another exception. *)
Inductive outcome : Type :=
| Removed
| RaisedOSError
| RaisedOther.

(** The calls that [robust_rmtree] makes, in order. *)
Inductive event : Type :=
| Rmtree (path : pystr)
| Info_unable (path : pystr)
| Info_retrying (dt : Z)
| Sleep (dt : Z).

(** How [robust_rmtree] ends: it returns, or the exception of the last
    [shutil.rmtree] goes up to the caller. *)
Inductive ending : Type :=
| Returned
| Propagated (o : outcome).

(** The [for] loop of [robust_rmtree] with [togo] iterations to go;
    [rmtree k] is what the call number [k] of [shutil.rmtree] does, [k]
    counting the calls made so far, and the events are listed in order.
    After the loop comes the final attempt. *)
Fixpoint robust_rmtree_loop (rmtree : nat -> outcome) (path : pystr) (logger : bool)
         (togo : nat) (k : nat) (dt : Z) : list event * ending :=
  match togo with
  | O =>
      ([Rmtree path],
       match rmtree k with
       | Removed => Returned
       | o => Propagated o
       end)
  | S togo =>
      match rmtree k with
      | Removed => ([Rmtree path], Returned)
      | RaisedOSError =>
          let (tr, e) := robust_rmtree_loop rmtree path logger togo (S k) (dt * 2) in
          (Rmtree path ::
           (if logger then [Info_unable path; Info_retrying dt] else []) ++
           Sleep dt :: tr, e)
      | RaisedOther => ([Rmtree path], Propagated RaisedOther)
      end
  end.

(** [robust_rmtree(path, logger, max_retries)]; [range(max_retries)] is
    empty for a negative [max_retries]. *)
Definition robust_rmtree (rmtree : nat -> outcome) (path : pystr) (logger : bool)
           (max_retries : Z) : list event * ending :=
  robust_rmtree_loop rmtree path logger (Z.to_nat max_retries) 0 1.

(** The calls of [shutil.rmtree] and the arguments of [time.sleep] in
    a list of events. *)
Definition calls (tr : list event) : nat :=
  length (filter (fun e => match e with Rmtree _ => true | _ => false end) tr).

Fixpoint sleeps (tr : list event) : list Z :=
  match tr with
  | [] => []
  | Sleep dt :: r => dt :: sleeps r
  | _ :: r => sleeps r
  end.

End Fileutils.

(** ** The memo table of _VersionOrder *)

Module Cache.

(** One item of [self.version] or of [self.local] while [__new__]
    runs: the text of the component, or the list that the loop over [k]
    has put in its place. *)
Inductive item : Type :=
| Text (s : pystr)
| Runs (c : list token).

(** The attributes that [__new__] has assigned so far; [fillvalue] is
    assigned right after the object is stored, before anything raises. *)
Record object : Type := mk {
  norm_version : option pystr;
  version : option (list item);
  local : option (list item)
}.

(** The loop over [k] on one list: the list as the loop leaves it and
    the exception, if one is raised. *)
Fixpoint convert (message : pystr) (v : list pystr) : list item * option exn :=
  match v with
  | [] => ([], None)
  | vk :: r =>
      match VO.parse_component message vk with
      | Raise e => (map Text (vk :: r), Some e)
      | Ok c => let (r', e) := convert message r in (Runs c :: r', e)
      end
  end.

(** [__new__] after the object is stored in the table: the object as
    the body leaves it and the exception, if one is raised. *)
Definition body (version : pystr) : object * option exn :=
  let message := "Malformed version string '" ++ version ++ "': " in
  match VO.normalize message version with
  | Raise e => (mk None None None, Some e)
  | Ok norm =>
      let version := Py.split "!" norm in
      match match version with
            | [_] => Ok ["0"%char]
            | [e; _] =>
                if Py.isdigit e then Ok e
                else Raise (ValueError (message ++ "epoch must be an integer."))
            | _ => Raise (ValueError (message ++ "duplicated epoch separator '!'."))
            end with
      | Raise e => (mk (Some norm) None None, Some e)
      | Ok epoch =>
          let version := Py.split "+" (last version []) in
          match match version with
                | [_] => Ok []
                | [_; l] => Ok (Py.split "." (Py.replace "_" "." l))
                | _ => Raise (ValueError
                                (message ++ "duplicated local version separator '+'."))
                end with
          | Raise e => (mk (Some norm) None None, Some e)
          | Ok loc =>
              let ver := epoch :: Py.split "." (Py.replace "_" "." (hd [] version)) in
              let (ver', e) := convert message ver in
              match e with
              | Some e => (mk (Some norm) (Some ver') (Some (map Text loc)), Some e)
              | None =>
                  let (loc', e) := convert message loc in
                  (mk (Some norm) (Some ver') (Some loc'), e)
              end
          end
      end
  end.

(** [_VersionOrder(version)] for a string, with the table
    [_version_cache] before and after the call: a string found in the
    table gives the stored object, and a new string is stored with its
    object before the body runs, so that the table keeps what the body
    leaves of it. *)
Definition new (cache : pystr -> option object) (version : pystr)
  : result object * (pystr -> option object) :=
  match cache version with
  | Some self => (Ok self, cache)
  | None =>
      let (self, e) := body version in
      (match e with
       | Some e => Raise e
       | None => Ok self
       end,
       fun k => if Py.eqb k version then Some self else cache k)
  end.

End Cache.

(** The object of a version that [__new__] has built to the end. *)
Definition built (v : VersionOrder) : Cache.object :=
  Cache.mk (Some (norm_version v)) (Some (map Cache.Runs (version v)))
           (Some (map Cache.Runs (local v))).

(** Every attribute is assigned and every component is converted. *)
Definition complete (self : Cache.object) : bool :=
  match Cache.norm_version self, Cache.version self, Cache.local self with
  | Some _, Some v, Some l =>
      forallb (fun i => match i with Cache.Runs _ => true | Cache.Text _ => false end)
              (v ++ l)
  | _, _, _ => false
  end.

(** The tables that the module can hold: [_version_cache] is empty
    when the module is loaded, and only [__new__] writes to it. *)
Inductive reachable : (pystr -> option Cache.object) -> Prop :=
| reachable_empty : reachable (fun _ => None)
| reachable_call : forall cache version,
    reachable cache -> reachable (snd (Cache.new cache version)).

(** ** A match spec made from a match spec *)

(** [_MatchSpec(spec, target, optional, normalize)] for a
    [_MatchSpec] object [spec]: the object itself when nothing else is
    given, and else what its text compiles to, with its own [target] and
    [optional] where none is given. *)
Definition MatchSpec_of_spec (re : pystr -> option (pystr -> bool)) (spec : MS.t)
           (target : option (option pystr)) (optional : option bool)
           (normalize : bool) : result MS.t :=
  match target, optional, normalize with
  | None, None, false => Ok spec
  | _, _, _ =>
      let target := match target with None => MS.target spec | Some t => t end in
      let optional := match optional with None => MS.optional spec | Some b => b end in
      MatchSpec_new re (MS.spec spec) (Some target) (Some optional) normalize
  end.

(** ** Version patterns with a star inside *)



(** ** Python text: facts *)

Lemma code_inj : forall a b, Py.code a = Py.code b -> a = b.
Proof.
  unfold Py.code. intros a b H.
  rewrite <- (ascii_N_embedding a), <- (ascii_N_embedding b), H. reflexivity.
Qed.

Lemma eqb_true_iff : forall s t, Py.eqb s t = true <-> s = t.
Proof.
  intros s t. unfold Py.eqb. destruct (list_eq_dec ascii_dec s t); split; congruence.
Qed.

Lemma eqb_refl : forall s, Py.eqb s s = true.
Proof. intro s. apply eqb_true_iff. reflexivity. Qed.

Lemma ltb_irrefl : forall s, Py.ltb s s = false.
Proof.
  induction s as [|a s IH]; simpl; [reflexivity|].
  rewrite N.ltb_irrefl. exact IH.
Qed.

Lemma ltb_flip : forall s t, s <> t -> Py.ltb t s = negb (Py.ltb s t).
Proof.
  induction s as [|a s IH]; intros [|b t] H; simpl; try reflexivity.
  - congruence.
  - destruct (N.ltb_spec (Py.code a) (Py.code b)) as [L|L];
      destruct (N.ltb_spec (Py.code b) (Py.code a)) as [L'|L']; try reflexivity.
    + lia.
    + apply IH. intro E. apply H. f_equal; [|exact E].
      apply code_inj. lia.
Qed.

Lemma ltb_trans : forall s t u,
  Py.ltb s t = true -> Py.ltb t u = true -> Py.ltb s u = true.
Proof.
  induction s as [|a s IH]; intros [|b t] [|c u]; simpl; try congruence.
  destruct (N.ltb_spec (Py.code a) (Py.code b));
    destruct (N.ltb_spec (Py.code b) (Py.code a));
    destruct (N.ltb_spec (Py.code b) (Py.code c));
    destruct (N.ltb_spec (Py.code c) (Py.code b));
    destruct (N.ltb_spec (Py.code a) (Py.code c));
    destruct (N.ltb_spec (Py.code c) (Py.code a));
    try congruence; try lia.
  apply IH.
Qed.

(** ** The order on subcomponents *)

Lemma token_eqb_true_iff : forall a b, token_eqb a b = true <-> a = b.
Proof.
  intros a b. unfold token_eqb. destruct (token_eq_dec a b); split; congruence.
Qed.

Lemma token_eqb_refl : forall a, token_eqb a a = true.
Proof. intro a. apply token_eqb_true_iff. reflexivity. Qed.

Lemma lt_step_none : forall c1 c2,
  VO.lt_step (c1, c2) = None <-> token_eqb c1 c2 = true.
Proof.
  intros c1 c2. unfold VO.lt_step.
  destruct (token_eqb c1 c2); [tauto|].
  destruct (is_str c1), (is_str c2); simpl; split; discriminate.
Qed.

Lemma lt_step_tlt : forall a b,
  VO.lt_step (a, b) = if token_eq_dec a b then None else Some (tlt a b).
Proof.
  intros a b. unfold VO.lt_step, token_eqb.
  destruct (token_eq_dec a b); [reflexivity|].
  destruct a, b; reflexivity.
Qed.

Lemma tlt_irrefl : forall a, tlt a a = false.
Proof.
  intros [x|x|]; simpl; [apply N.ltb_irrefl|apply ltb_irrefl|reflexivity].
Qed.

Lemma tlt_flip : forall a b, a <> b -> tlt b a = negb (tlt a b).
Proof.
  intros [x|x|] [y|y|] H; simpl; try reflexivity; try congruence.
  - destruct (N.ltb_spec y x), (N.ltb_spec x y); try reflexivity; try lia.
    exfalso. apply H. f_equal. lia.
  - apply ltb_flip. congruence.
Qed.

Lemma tlt_trans : forall a b c, tlt a b = true -> tlt b c = true -> tlt a c = true.
Proof.
  intros [x|x|] [y|y|] [z|z|]; simpl; try congruence.
  - rewrite !N.ltb_lt. lia.
  - apply ltb_trans.
Qed.

Lemma lt_step_weak_order : weak_order VO.lt_step.
Proof.
  split.
  - intro a. apply lt_step_none, token_eqb_refl.
  - intros a b. rewrite !lt_step_tlt.
    destruct (token_eq_dec b a), (token_eq_dec a b); try congruence; [reflexivity|].
    simpl. f_equal. apply tlt_flip. assumption.
  - intros a b c. rewrite !lt_step_tlt.
    destruct (token_eq_dec a b) as [E1|E1]; [subst b; reflexivity|].
    destruct (token_eq_dec b c) as [E2|E2].
    { subst c. simpl. destruct (token_eq_dec a b); [congruence|].
      destruct (tlt a b); reflexivity. }
    simpl. destruct (tlt a b) eqn:Lab, (tlt b c) eqn:Lbc; try exact I.
    + destruct (token_eq_dec a c) as [E3|E3].
      * subst c. rewrite (tlt_flip E1), Lab in Lbc. discriminate.
      * rewrite (tlt_trans _ _ _ Lab Lbc). reflexivity.
    + assert (Hba : tlt b a = true) by (rewrite (tlt_flip E1), Lab; reflexivity).
      assert (Hcb : tlt c b = true) by (rewrite (tlt_flip E2), Lbc; reflexivity).
      destruct (token_eq_dec a c) as [E3|E3].
      * subst c. rewrite Hba in Lbc. discriminate.
      * f_equal. rewrite (tlt_flip (not_eq_sym E3)).
        rewrite (tlt_trans _ _ _ Hcb Hba). reflexivity.
Qed.

(** ** Lifting an order through [zip_longest] *)

Section Padded.

Variable A : Type.
Variable fill : A.
Variable step : A * A -> option bool.
Hypothesis step_wo : weak_order step.

Lemma zip_longest_nil_r : forall l : list A,
  zip_longest fill l [] = map (fun x => (x, fill)) l.
Proof. destruct l; reflexivity. Qed.

Lemma padded_unfold : forall l1 l2,
  padded fill step (l1, l2) =
  match step (hd fill l1, hd fill l2) with
  | Some x => Some x
  | None => padded fill step (tl l1, tl l2)
  end.
Proof.
  intros [|a l1] [|b l2]; simpl.
  - rewrite (wo_refl step_wo). reflexivity.
  - reflexivity.
  - rewrite zip_longest_nil_r. reflexivity.
  - reflexivity.
Qed.

Lemma padded_refl : forall l, padded fill step (l, l) = None.
Proof.
  induction l as [|a l IH]; [reflexivity|].
  rewrite padded_unfold. simpl. rewrite (wo_refl step_wo). exact IH.
Qed.

Lemma padded_flip : forall l1 l2,
  padded fill step (l2, l1) = option_map negb (padded fill step (l1, l2)).
Proof.
  intros l1 l2.
  remember (length l1 + length l2) as n eqn:Hn.
  revert l1 l2 Hn. induction n as [n IH] using lt_wf_ind. intros l1 l2 Hn.
  destruct (Nat.eq_dec n 0) as [Z|Z].
  { destruct l1, l2; simpl in Hn; try lia. reflexivity. }
  rewrite (padded_unfold l2 l1), (padded_unfold l1 l2).
  rewrite (wo_flip step_wo (hd fill l1) (hd fill l2)).
  destruct (step (hd fill l1, hd fill l2)); [reflexivity|].
  cbn [option_map]. eapply IH; [|reflexivity].
  destruct l1, l2; simpl in *; lia.
Qed.

Lemma padded_chain : forall l1 l2 l3,
  chains (padded fill step (l1, l2)) (padded fill step (l2, l3))
         (padded fill step (l1, l3)).
Proof.
  intros l1 l2 l3.
  remember (length l1 + length l2 + length l3) as n eqn:Hn.
  revert l1 l2 l3 Hn. induction n as [n IH] using lt_wf_ind. intros l1 l2 l3 Hn.
  destruct (Nat.eq_dec n 0) as [Z|Z].
  { destruct l1, l2, l3; simpl in Hn; try lia. reflexivity. }
  rewrite (padded_unfold l1 l2), (padded_unfold l2 l3), (padded_unfold l1 l3).
  pose proof (wo_chain step_wo (hd fill l1) (hd fill l2) (hd fill l3)) as C.
  assert (T : chains (padded fill step (tl l1, tl l2)) (padded fill step (tl l2, tl l3))
                     (padded fill step (tl l1, tl l3))).
  { eapply IH; [|reflexivity]. destruct l1, l2, l3; simpl in *; lia. }
  destruct (step (hd fill l1, hd fill l2)) as [[|]|],
           (step (hd fill l2, hd fill l3)) as [[|]|];
    simpl in C; rewrite ?C; try exact I; try exact T.
  all: unfold padded in *.
  all: repeat match goal with
         | |- context [VO.first_return ?f ?l] =>
             destruct (VO.first_return f l) as [[|]|]
         end; simpl in *; try exact I; try reflexivity; try congruence.
Qed.

Lemma padded_weak_order : weak_order (padded fill step).
Proof.
  split.
  - apply padded_refl.
  - apply padded_flip.
  - apply padded_chain.
Qed.

End Padded.

(** ** The order on parsed versions *)

Lemma lt_component_weak_order : weak_order VO.lt_component.
Proof. exact (padded_weak_order fillvalue lt_step_weak_order). Qed.

Lemma lt_part_weak_order : weak_order VO.lt_part.
Proof. exact (padded_weak_order [] lt_component_weak_order). Qed.

Lemma first_return_none : forall (A : Type) (f : A -> option bool) (g : A -> bool),
  (forall p, f p = None <-> g p = true) ->
  forall l, VO.first_return f l = None <-> forallb g l = true.
Proof.
  intros A f g H. induction l as [|p l IH]; simpl; [tauto|].
  specialize (H p). destruct (f p), (g p); simpl.
  - split; [discriminate|]. intros _. destruct H as [_ H]. discriminate (H eq_refl).
  - split; discriminate.
  - exact IH.
  - destruct H as [H _]. discriminate (H eq_refl).
Qed.

Lemma _eq_lt_part : forall t1 t2,
  VO._eq t1 t2 = true <-> VO.lt_part (t1, t2) = None.
Proof.
  intros t1 t2. symmetry. unfold VO._eq, VO.lt_part.
  apply first_return_none. intros [v1 v2]. unfold VO.lt_component.
  apply first_return_none. intros [c1 c2]. apply lt_step_none.
Qed.

Lemma VO_cmp_unfold : forall a b,
  VO_cmp a b =
  match VO.lt_part (version a, version b) with
  | Some x => Some x
  | None => VO.lt_part (local a, local b)
  end.
Proof.
  intros a b. unfold VO_cmp. simpl.
  destruct (VO.first_return _ _); [reflexivity|].
  destruct (VO.first_return _ _); reflexivity.
Qed.

Lemma VO_cmp_flip : forall a b, VO_cmp b a = option_map negb (VO_cmp a b).
Proof.
  intros a b. rewrite !VO_cmp_unfold.
  rewrite (wo_flip lt_part_weak_order (version a) (version b)).
  rewrite (wo_flip lt_part_weak_order (local a) (local b)).
  destruct (VO.lt_part (version a, version b)); reflexivity.
Qed.

Lemma VO_cmp_chain : forall a b c, chains (VO_cmp a b) (VO_cmp b c) (VO_cmp a c).
Proof.
  intros a b c. rewrite !VO_cmp_unfold.
  pose proof (wo_chain lt_part_weak_order (version a) (version b) (version c)) as V.
  pose proof (wo_chain lt_part_weak_order (local a) (local b) (local c)) as L.
  destruct (VO.lt_part (version a, version b)) as [[|]|],
           (VO.lt_part (version b, version c)) as [[|]|];
    cbn [chains] in V; rewrite ?V; cbn [chains]; try exact I; try reflexivity;
    try exact L.
  all: destruct (VO.lt_part (local a, local b)) as [[|]|]; cbn [chains] in *;
    try exact I; try reflexivity.
  all: destruct (VO.lt_part (local b, local c)) as [[|]|]; cbn [chains] in *;
    try exact I; try reflexivity; try congruence.
Qed.

Lemma lt_cmp : forall a b, VO.lt a b = true <-> VO_cmp a b = Some true.
Proof.
  intros a b. unfold VO.lt. fold (VO_cmp a b).
  destruct (VO_cmp a b) as [[|]|]; split; congruence.
Qed.

Lemma eq_cmp : forall a b, VO.eq a b = true <-> VO_cmp a b = None.
Proof.
  intros a b. unfold VO.eq. rewrite VO_cmp_unfold, andb_true_iff, !_eq_lt_part.
  destruct (VO.lt_part (version a, version b)); [|tauto].
  split; [intros [H _]; discriminate|discriminate].
Qed.

Lemma gt_cmp : forall a b, VO.gt a b = true <-> VO_cmp a b = Some false.
Proof.
  intros a b. unfold VO.gt. rewrite lt_cmp, VO_cmp_flip.
  destruct (VO_cmp a b) as [[|]|]; simpl; split; congruence.
Qed.

Lemma bool_iff_false : forall (b : bool) (P : Prop), (b = true <-> P) -> ~ P -> b = false.
Proof. intros [|] P H N; [exfalso; apply N, H|]; reflexivity. Qed.

Lemma VO_trichotomy : forall a b, exactly_one (VO.lt a b) (VO.eq a b) (VO.gt a b).
Proof.
  intros a b. unfold exactly_one.
  pose proof (lt_cmp a b) as L. pose proof (eq_cmp a b) as E.
  pose proof (gt_cmp a b) as G.
  destruct (VO_cmp a b) as [[|]|].
  - left. repeat split; [apply L; reflexivity| |];
      eapply bool_iff_false; eauto; discriminate.
  - right. right. repeat split; [| |apply G; reflexivity];
      eapply bool_iff_false; eauto; discriminate.
  - right. left. repeat split; [|apply E; reflexivity|];
      eapply bool_iff_false; eauto; discriminate.
Qed.

Lemma VO_lt_trans : forall a b c,
  VO.lt a b = true -> VO.lt b c = true -> VO.lt a c = true.
Proof.
  intros a b c. rewrite !lt_cmp. intros H1 H2.
  pose proof (VO_cmp_chain a b c) as C. rewrite H1, H2 in C. exact C.
Qed.

(** C1: on valid version strings the comparisons of [_VersionOrder]
    form a strict total order: exactly one of [a < b], [a == b] and
    [a > b] holds, and [a < b] with [b < c] gives [a < c]. *)
Theorem C1_total_order : forall (a b c : pystr) (va vb vc : VersionOrder),
  VO.new a = Ok va -> VO.new b = Ok vb -> VO.new c = Ok vc ->
  exactly_one (VO.lt va vb) (VO.eq va vb) (VO.gt va vb) /\
  (VO.lt va vb = true -> VO.lt vb vc = true -> VO.lt va vc = true).
Proof.
  intros a b c va vb vc _ _ _. split.
  - apply VO_trichotomy.
  - apply VO_lt_trans.
Qed.

Lemma C1_total_order_witness :
  (VO.new "1.1a1" = Ok (parsed "1.1a1") /\ VO.new "1.1" = Ok (parsed "1.1") /\
   VO.new "1.1post1" = Ok (parsed "1.1post1")) /\
  exactly_one (VO.lt (parsed "1.1a1") (parsed "1.1"))
              (VO.eq (parsed "1.1a1") (parsed "1.1"))
              (VO.gt (parsed "1.1a1") (parsed "1.1")) /\
  (VO.lt (parsed "1.1a1") (parsed "1.1") = true ->
   VO.lt (parsed "1.1") (parsed "1.1post1") = true ->
   VO.lt (parsed "1.1a1") (parsed "1.1post1") = true).
Proof.
  split.
  - repeat split; vm_compute; reflexivity.
  - apply (C1_total_order "1.1a1" "1.1" "1.1post1"); vm_compute; reflexivity.
Defined.

(** C2, as the code has it: the documented chain holds from its second
    version on; its first two versions, 0.4 and 0.4.0, are equal, as
    1.1.0 and 1.1 are. *)
Theorem C2_ordering_chain :
  veq "0.4" "0.4.0" = true /\
  vlt "0.4.0" "0.4.1.rc" = true /\
  veq "0.4.1.rc" "0.4.1.RC" = true /\
  vlt "0.4.1.RC" "0.4.1" = true /\
  vlt "0.4.1" "0.5a1" = true /\
  vlt "0.5a1" "0.5b3" = true /\
  vlt "0.5b3" "0.5C1" = true /\
  veq "0.5C1" "0.5c1" = true /\
  vlt "0.5c1" "0.5" = true /\
  vlt "0.5" "1.1dev1" = true /\
  vlt "1.1dev1" "1.1a1" = true /\
  vlt "1.1a1" "1.1.0dev1" = true /\
  veq "1.1.0dev1" "1.1.dev1" = true /\
  vlt "1.1.dev1" "1.1.a1" = true /\
  vlt "1.1.a1" "1.1.0rc1" = true /\
  vlt "1.1.0rc1" "1.1.0" = true /\
  veq "1.1.0" "1.1" = true /\
  vlt "1.1" "1.1.0post1" = true /\
  veq "1.1.0post1" "1.1.post1" = true /\
  vlt "1.1.post1" "1.1post1" = true.
Proof. repeat split; vm_compute; reflexivity. Qed.

(** The first link of the documented chain fails: 0.4 is not below
    0.4.0, the two are equal. *)
Lemma C2_counterexample :
  VO.new "0.4" = Ok (parsed "0.4") /\ VO.new "0.4.0" = Ok (parsed "0.4.0") /\
  VO.lt (parsed "0.4") (parsed "0.4.0") = false /\
  VO.eq (parsed "0.4") (parsed "0.4.0") = true.
Proof. repeat split; vm_compute; reflexivity. Qed.

(** ** Epochs *)

Lemma epoch_gt : forall va vb n,
  epoch va = Some (n + 1)%N -> epoch vb = Some n -> VO.gt va vb = true.
Proof.
  intros [na [|[|[x| |] c1] t1] la] [nb [|[|[y| |] c2] t2] lb] n; simpl;
    try discriminate.
  unfold epoch. simpl. intros E1 E2. injection E1 as ->. injection E2 as ->.
  unfold VO.gt, VO.lt. cbn -[VO.lt_step N.add]. rewrite lt_step_tlt.
  destruct (token_eq_dec (TInt n) (TInt (n + 1))) as [E|E].
  - injection E. lia.
  - simpl. apply N.ltb_lt. lia.
Qed.

(** C3: a version whose epoch is N+1 is above every version whose
    epoch is N, whatever the other components; so 1!0.4.1 > 3.1.1.6 and
    2!0.4.1 > 1!0.4.1. *)
Theorem C3_epoch_dominance :
  (forall (a b : pystr) (va vb : VersionOrder) (n : N),
      VO.new a = Ok va -> VO.new b = Ok vb ->
      epoch va = Some (n + 1)%N -> epoch vb = Some n ->
      VO.gt va vb = true) /\
  vgt "1!0.4.1" "3.1.1.6" = true /\
  vgt "2!0.4.1" "1!0.4.1" = true.
Proof.
  split.
  - intros a b va vb n _ _. apply epoch_gt.
  - split; vm_compute; reflexivity.
Qed.

Lemma C3_epoch_dominance_witness :
  (VO.new "1!0.4.1" = Ok (parsed "1!0.4.1") /\
   VO.new "3.1.1.6" = Ok (parsed "3.1.1.6") /\
   epoch (parsed "1!0.4.1") = Some (0 + 1)%N /\
   epoch (parsed "3.1.1.6") = Some 0%N) /\
  VO.gt (parsed "1!0.4.1") (parsed "3.1.1.6") = true.
Proof.
  split.
  - repeat split; vm_compute; reflexivity.
  - apply (proj1 C3_epoch_dominance "1!0.4.1" "3.1.1.6" _ _ 0%N);
      vm_compute; reflexivity.
Defined.

(** ** Matching candidates *)

Section Scenarios.

Variable re : pystr -> option (pystr -> bool).

Lemma numpy_exact_spec :
  MatchSpec_new re "numpy 1.7 py27_0" None None false =
  Ok (MS.mk None false "numpy 1.7 py27_0" "numpy" 3 (MS.MatchExact "1.7" "py27_0")).
Proof. vm_compute. reflexivity. Qed.

Lemma numpy_exact_match : forall name version build : pystr,
  spec_matches re "numpy 1.7 py27_0" name version build =
  Ok (Py.eqb name "numpy" && (Py.eqb build "py27_0" && Py.eqb "1.7" version)).
Proof.
  intros name version build. unfold spec_matches. rewrite numpy_exact_spec.
  unfold bind, MatchSpec_match, MatchSpec_match_fast. cbn [Dist.quad Dist.name
    Dist.version Dist.build_string MS.name MS.match_fast].
  destruct (Py.eqb name _); reflexivity.
Qed.

Lemma numpy_range_match : forall name version build : pystr,
  spec_matches re "numpy >=1.7,<2" name version build =
  if Py.eqb name "numpy"
  then VersionSpec_match re (VSTuple TagStrAll [VSEval ">=1.7" OpGe (parsed "1.7");
                                                VSEval "<2" OpLt (parsed "2")]) version
  else Ok false.
Proof.
  intros name version build. unfold spec_matches.
  assert (H : MatchSpec_new re "numpy >=1.7,<2" None None false =
              Ok (MS.mk None false "numpy >=1.7,<2" "numpy" 2
                    (MS.MatchVersion
                       (VSTuple TagStrAll [VSEval ">=1.7" OpGe (parsed "1.7");
                                           VSEval "<2" OpLt (parsed "2")]))))
    by (vm_compute; reflexivity).
  rewrite H. unfold bind, MatchSpec_match. cbn [Dist.quad Dist.name
    Dist.version Dist.build_string MS.name].
  destruct (Py.eqb name _); reflexivity.
Qed.

(** C4: the documented scenarios.  A name-only spec accepts the two
    candidates named numpy; [1.7*] accepts 1.7.1 and rejects 1.8.0;
    [>=1.7,<2] accepts 1.9 and rejects 2.0 and 1.6; a spec with an exact
    version and build accepts the exact triple only. *)
Theorem C4_scenarios :
  spec_matches re "numpy" "numpy" "1.0" "py27_0" = Ok true /\
  spec_matches re "numpy" "numpy" "9.9" "abi_1" = Ok true /\
  spec_matches re "numpy 1.7*" "numpy" "1.7.1" "x" = Ok true /\
  spec_matches re "numpy 1.7*" "numpy" "1.8.0" "x" = Ok false /\
  (forall name build : pystr,
     spec_matches re "numpy >=1.7,<2" name "1.9" build = Ok (Py.eqb name "numpy") /\
     spec_matches re "numpy >=1.7,<2" name "2.0" build = Ok false /\
     spec_matches re "numpy >=1.7,<2" name "1.6" build = Ok false) /\
  (forall name version build : pystr,
     spec_matches re "numpy 1.7 py27_0" name version build = Ok true <->
     (name, version, build) = ("numpy" : pystr, "1.7" : pystr, "py27_0" : pystr)).
Proof.
  split; [vm_compute; reflexivity|].
  split; [vm_compute; reflexivity|].
  split; [vm_compute; reflexivity|].
  split; [vm_compute; reflexivity|].
  split.
  - intros name build. rewrite !numpy_range_match.
    destruct (Py.eqb name _); repeat split; vm_compute; reflexivity.
  - intros name version build. rewrite numpy_exact_match. split.
    + intro H. injection H as H.
      apply andb_true_iff in H. destruct H as [H1 H].
      apply andb_true_iff in H. destruct H as [H2 H3].
      apply eqb_true_iff in H1, H2, H3. subst. reflexivity.
    + intro H. injection H as -> -> ->. vm_compute. reflexivity.
Qed.

End Scenarios.

Section FastPath.

Variable re : pystr -> option (pystr -> bool).

Lemma build_three_tokens : forall target optional normalize (text n v b : pystr) (m : MS.t),
  split_parts (Py.strip text) = [n; v; b] ->
  MatchSpec_build re target optional normalize text = Ok m ->
  exists vs, VersionSpec_new re v = Ok vs /\
    if VersionSpec_is_exact vs && negb (Py.contains "*" b)
    then m = MS.mk target optional (Py.strip text) n 3 (MS.MatchExact v b)
    else MatchSpec_is_exact m = false.
Proof.
  intros target optional normalize text n v b m P. unfold MatchSpec_build.
  rewrite P. cbn [length Nat.leb Nat.eqb Nat.ltb negb andb nth skipn app].
  destruct (VersionSpec_new re v) as [vs|e] eqn:V; cbn [bind]; [|discriminate].
  intro H. exists vs. split; [reflexivity|].
  destruct (VersionSpec_is_exact vs); cbn [andb].
  - destruct (Py.contains "*" b); cbn [negb andb] in *.
    + destruct (normalize && negb (Py.endswith v "*")).
      * destruct (VersionSpec_new re (v ++ "*")); cbn [bind] in H; [|discriminate].
        destruct (re _); [|discriminate]. injection H as <-. reflexivity.
      * destruct (re _); [|discriminate]. injection H as <-. reflexivity.
    + injection H as <-. reflexivity.
  - destruct (re _); [|discriminate]. injection H as <-. reflexivity.
Qed.

Lemma build_general_pattern :
  forall target optional normalize (text n v b : pystr) (m : MS.t),
    split_parts (Py.strip text) = [n; v; b] ->
    MatchSpec_build re target optional normalize text = Ok m ->
    MatchSpec_is_exact m = false ->
    exists vs, MS.match_fast m =
               MS.MatchFull vs ("^(?:" ++ Py.replace "*" ".*" b ++ ")$").
Proof.
  intros target optional normalize text n v b m P. unfold MatchSpec_build.
  rewrite P. cbn [length Nat.leb Nat.eqb Nat.ltb negb andb nth skipn app].
  destruct (VersionSpec_new re v) as [vs|e] eqn:V; cbn [bind]; [|discriminate].
  destruct (VersionSpec_is_exact vs).
  - destruct (Py.contains "*" b); cbn [negb andb].
    + destruct (normalize && negb (Py.endswith v "*")).
      * destruct (VersionSpec_new re (v ++ "*")) as [vs'|]; cbn [bind]; [|discriminate].
        destruct (re _); [|discriminate]. intro H. injection H as <-.
        intros _. exists vs'. reflexivity.
      * destruct (re _); [|discriminate]. intro H. injection H as <-.
        intros _. exists vs. reflexivity.
    + intro H. injection H as <-. discriminate.
  - destruct (re _); [|discriminate]. intro H. injection H as <-.
    intros _. exists vs. reflexivity.
Qed.

(** C10: on a spec of three tokens the fast path is taken exactly when
    the version token compiles to an exact [_VersionSpec] and the build
    token has no [*]; it compares the candidate's version with the
    version token as text, so that 1.7.0, which is equal to 1.7 as a
    version, is rejected by [numpy 1.7 py27_0]. *)
Theorem C10_fast_path :
  forall (s : pystr) (target : option (option pystr)) (optional : option bool)
         (normalize : bool) (m : MS.t) (n v b : pystr),
    split_parts (Py.strip (fst (Py.partition "(" s))) = [n; v; b] ->
    MatchSpec_new re s target optional normalize = Ok m ->
    (MatchSpec_is_exact m = true <->
       (exists vs, VersionSpec_new re v = Ok vs /\ VersionSpec_is_exact vs = true)
       /\ Py.contains "*" b = false) /\
    (MatchSpec_is_exact m = true ->
       MS.strictness m = 3 /\
       forall d : Dist.t,
         MatchSpec_match re m d =
         Ok (Py.eqb (Dist.name d) n
             && (Py.eqb (Dist.build_string d) b && Py.eqb v (Dist.version d)))) /\
    (veq "1.7" "1.7.0" = true /\
     spec_matches re "numpy 1.7 py27_0" "numpy" "1.7.0" "py27_0" = Ok false).
Proof.
  intros s target optional normalize m n v b P H.
  unfold MatchSpec_new in H. destruct (Py.partition "(" s) as [text oparts].
  cbn [fst] in P.
  destruct (match oparts with [] => _ | _ => _ end) as [[tg op]|e]; cbn [bind] in H;
    [|discriminate].
  destruct (build_three_tokens _ _ _ _ P H) as [vs [V C]].
  split; [split|split].
  - intro E. split.
    + exists vs. split; [exact V|].
      destruct (VersionSpec_is_exact vs); [reflexivity|].
      cbn [andb] in C. congruence.
    + destruct (VersionSpec_is_exact vs); cbn [andb] in C; [|congruence].
      destruct (Py.contains "*" b); [cbn in C; congruence|reflexivity].
  - intros [[vs' [V' X]] S]. rewrite V in V'. injection V' as <-.
    rewrite X, S in C. cbn in C. subst m. reflexivity.
  - intro E. destruct (VersionSpec_is_exact vs && negb (Py.contains "*" b));
      [subst m|congruence].
    split; [reflexivity|]. intros [dn dv db].
    unfold MatchSpec_match, MatchSpec_match_fast.
    cbn [Dist.quad Dist.name Dist.version Dist.build_string MS.name MS.match_fast].
    destruct (Py.eqb dn n); reflexivity.
  - split; vm_compute; reflexivity.
Qed.

End FastPath.

Lemma C10_fast_path_witness :
  (split_parts (Py.strip (fst (Py.partition "(" "numpy 1.7 py27_0"))) =
     ["numpy" : pystr; "1.7" : pystr; "py27_0" : pystr] /\
   MatchSpec_new Re.compile "numpy 1.7 py27_0" None None false =
     Ok (MS.mk None false "numpy 1.7 py27_0" "numpy" 3 (MS.MatchExact "1.7" "py27_0"))) /\
  MS.strictness (MS.mk None false "numpy 1.7 py27_0" "numpy" 3
                       (MS.MatchExact "1.7" "py27_0")) = 3.
Proof.
  split.
  - split; vm_compute; reflexivity.
  - refine (proj1 (proj1 (proj2 (@C10_fast_path Re.compile "numpy 1.7 py27_0" None None false
                                   _ "numpy" "1.7" "py27_0" _ _)) _)).
    + vm_compute. reflexivity.
    + vm_compute. reflexivity.
    + reflexivity.
Defined.

(** C5, where the code departs from it: on the general path the build
    pattern is the build token with [*] replaced by [.*] and nothing
    escaped; so the token [py2.7] becomes the pattern [^(?:py2.7)$] and
    the spec accepts the build string [py2x7]. *)
Theorem C5_build_dot_not_escaped :
  forall re : pystr -> option (pystr -> bool),
    Re.implements re ->
    (forall (s : pystr) target optional normalize (m : MS.t) (n v b : pystr),
        split_parts (Py.strip (fst (Py.partition "(" s))) = [n; v; b] ->
        MatchSpec_new re s target optional normalize = Ok m ->
        MatchSpec_is_exact m = false ->
        exists vs, MS.match_fast m =
                   MS.MatchFull vs ("^(?:" ++ Py.replace "*" ".*" b ++ ")$")) /\
    spec_matches re "numpy 1.7* py2.7" "numpy" "1.7.1" "py2x7" = Ok true.
Proof.
  intros re H. split.
  { intros s target optional normalize m n v b P N.
    unfold MatchSpec_new in N. destruct (Py.partition "(" s) as [text oparts].
    cbn [fst] in P.
    destruct (match oparts with [] => _ | _ => _ end) as [[tg op]|e]; cbn [bind] in N;
      [|discriminate].
    eapply build_general_pattern; eassumption. }
  assert (F : Re.fragment "^(?:py2.7)$" =
              Some [Re.IOne (Re.ALit "p"); Re.IOne (Re.ALit "y"); Re.IOne (Re.ALit "2");
                    Re.IOne Re.ADot; Re.IOne (Re.ALit "7")])
    by (vm_compute; reflexivity).
  destruct (H _ _ F) as [m [Hm Hs]].
  assert (E : MatchSpec_new re "numpy 1.7* py2.7" None None false =
              Ok (MS.mk None false "numpy 1.7* py2.7" "numpy" 2
                        (MS.MatchFull (VSEval "1.7*" OpStartswith (parsed "1.7"))
                                      "^(?:py2.7)$"))).
  { pose proof Hm as Hm'. vm_compute in Hm'. vm_compute. rewrite Hm'. reflexivity. }
  unfold spec_matches. rewrite E. cbn [bind]. unfold MatchSpec_match.
  cbn [Dist.quad Dist.name Dist.version Dist.build_string MS.name].
  rewrite eqb_refl. cbn [negb]. unfold MatchSpec_match_fast. cbn [MS.match_fast].
  rewrite Hm, Hs.
  change (Re.match_items _ _) with true. cbv iota.
  vm_compute. reflexivity.
Qed.

Lemma C5_build_dot_not_escaped_witness :
  Re.implements Re.compile /\
  spec_matches Re.compile "numpy 1.7* py2.7" "numpy" "1.7.1" "py2x7" = Ok true.
Proof.
  assert (I : Re.implements Re.compile).
  { intros p l F. unfold Re.compile. rewrite F. eexists. split; reflexivity. }
  split; [exact I|]. exact (proj2 (C5_build_dot_not_escaped I)).
Defined.

(** ** Token count *)

Section TokenCount.

Variable re : pystr -> option (pystr -> bool).

Lemma build_token_count : forall target optional normalize (text : pystr),
  Py.endswith (Py.strip text) CONDA_TARBALL_EXTENSION = false ->
  length (Py.split_ws (Py.strip text)) < 1 \/ 3 < length (Py.split_ws (Py.strip text)) ->
  MatchSpec_build re target optional normalize text = Raise AssertionError.
Proof.
  intros target optional normalize text E L. unfold MatchSpec_build, split_parts.
  rewrite E.
  destruct L as [L|L].
  - apply Nat.leb_gt in L. rewrite L. reflexivity.
  - apply Nat.leb_gt in L. rewrite L, andb_false_r. reflexivity.
Qed.

(** C6, as the code has it: when the text before the attribute list does
    not end in the archive extension and has fewer than one or more than
    three tokens, compiling it raises an exception: the token count is
    checked by an assertion, so where the check is reached (always, when
    there is no attribute list) the exception is [AssertionError]. *)
Theorem C6_token_count :
  forall (s : pystr) (target : option (option pystr)) (optional : option bool)
         (normalize : bool),
    Py.endswith (Py.strip (fst (Py.partition "(" s))) CONDA_TARBALL_EXTENSION = false ->
    length (Py.split_ws (Py.strip (fst (Py.partition "(" s)))) < 1 \/
    3 < length (Py.split_ws (Py.strip (fst (Py.partition "(" s)))) ->
    (exists e, MatchSpec_new re s target optional normalize = Raise e) /\
    (forall tg op,
        MatchSpec_build re tg op normalize (fst (Py.partition "(" s)) =
        Raise AssertionError) /\
    (snd (Py.partition "(" s) = [] ->
     MatchSpec_new re s target optional normalize = Raise AssertionError).
Proof.
  intros s target optional normalize E L.
  unfold MatchSpec_new. destruct (Py.partition "(" s) as [t oparts].
  cbn [fst snd] in *. split; [|split].
  - destruct (match oparts with [] => _ | _ => _ end) as [[tg op]|e]; cbn [bind].
    + eexists. apply build_token_count; assumption.
    + eexists. reflexivity.
  - intros tg op. apply build_token_count; assumption.
  - intros ->. cbn [bind]. apply build_token_count; assumption.
Qed.

End TokenCount.

Lemma C6_token_count_witness :
  (Py.endswith (Py.strip (fst (Py.partition "(" "numpy 1.7 py27_0 extra")))
               CONDA_TARBALL_EXTENSION = false /\
   3 < length (Py.split_ws (Py.strip (fst (Py.partition "(" "numpy 1.7 py27_0 extra"))))) /\
  MatchSpec_new Re.compile "numpy 1.7 py27_0 extra" None None false = Raise AssertionError.
Proof.
  split.
  - split; [reflexivity|vm_compute; lia].
  - apply (fun E L => proj2 (proj2 (@C6_token_count Re.compile "numpy 1.7 py27_0 extra"
                                       None None false E L))).
    + reflexivity.
    + right. vm_compute. lia.
    + reflexivity.
Defined.

(** A spec of four tokens is rejected by an exception that is not the
    [ValueError] of malformed specs. *)
Lemma C6_counterexample :
  exists e : exn,
    MatchSpec_new Re.compile "numpy 1.7 py27_0 extra" None None false = Raise e /\
    is_value_error e = false.
Proof. exists AssertionError. split; vm_compute; reflexivity. Qed.

(** ** The attributes do not reach what a text compiles to *)

Section Hashing.

Variable re : pystr -> option (pystr -> bool).

Lemma build_attributes : forall tg op tg' op' normalize (text : pystr) (m : MS.t),
  MatchSpec_build re tg op normalize text = Ok m ->
  MatchSpec_build re tg' op' normalize text =
  Ok (MS.mk tg' op' (MS.spec m) (MS.name m) (MS.strictness m) (MS.match_fast m)).
Proof.
  intros tg op tg' op' normalize text m. unfold MatchSpec_build.
  destruct (negb _); [discriminate|].
  destruct (_ =? 1)%nat; [intro H; injection H as <-; reflexivity|].
  destruct (VersionSpec_new re _) as [vs|]; cbn [bind]; [|discriminate].
  repeat match goal with
         | |- context [if ?c then _ else _] => destruct c
         | |- context [match re ?x with _ => _ end] => destruct (re x)
         | |- context [bind (VersionSpec_new re ?x)] =>
             destruct (VersionSpec_new re x); cbn [bind]
         end;
    try discriminate; intro H; injection H as <-; reflexivity.
Qed.

End Hashing.

(** ** Canonical strings *)

Unset Implicit Arguments.

Lemma valid_char_facts : forall c,
  VO.valid_char c = true -> Py.lower_char c = c /\ Py.isspace c = false.
Proof.
  intros c. destruct c as [[] [] [] [] [] [] [] []]; vm_compute; intro H;
    try discriminate H; split; reflexivity.
Qed.

Lemma isspace_newline : forall c, Py.isspace c = false -> (c =? "010")%char = false.
Proof.
  intros c. destruct c as [[] [] [] [] [] [] [] []]; vm_compute; intro H;
    try discriminate H; reflexivity.
Qed.

Lemma lower_char_newline : forall c,
  Py.isspace c = false -> (Py.lower_char c =? "010")%char = false.
Proof.
  intros c. destruct c as [[] [] [] [] [] [] [] []]; vm_compute; intro H;
    try discriminate H; reflexivity.
Qed.

Lemma replace_single : forall (a b : ascii) (s : pystr),
  Py.replace a [b] s = map (fun c => if (c =? a)%char then b else c) s.
Proof.
  intros a b. induction s as [|c s IH]; [reflexivity|].
  unfold Py.replace in *. simpl. rewrite IH. destruct (c =? a)%char; reflexivity.
Qed.

Lemma lstrip_head : forall s,
  match Py.lstrip s with
  | c :: _ => Py.isspace c = false
  | [] => True
  end.
Proof.
  induction s as [|c s IH]; simpl; [exact I|].
  destruct (Py.isspace c) eqn:E; [exact IH|exact E].
Qed.

Lemma lstrip_fixed : forall s,
  match s with c :: _ => Py.isspace c = false | [] => True end -> Py.lstrip s = s.
Proof. intros [|c s] H; simpl; [reflexivity|]. rewrite H. reflexivity. Qed.

Lemma before_dollar_clean : forall s, ends_clean s -> VO.before_dollar s = s.
Proof.
  intros s. unfold ends_clean, VO.before_dollar. destruct (rev s); [reflexivity|].
  intros ->. reflexivity.
Qed.

Lemma lowered_ends_clean : forall s, ends_clean (Py.lower (Py.rstrip s)).
Proof.
  intro s. unfold ends_clean, Py.lower, Py.rstrip.
  rewrite <- map_rev, rev_involutive.
  pose proof (lstrip_head (rev s)) as H.
  destruct (Py.lstrip (rev s)); simpl; [exact I|].
  apply lower_char_newline. exact H.
Qed.

Lemma replaced_ends_clean : forall s, ends_clean s -> ends_clean (Py.replace "-" "_" s).
Proof.
  intros s. unfold ends_clean.
  change (list_ascii_of_string "_") with ["_"%char].
  rewrite replace_single, <- map_rev.
  destruct (rev s) as [|c r]; simpl; [trivial|].
  intro H. destruct (c =? "-")%char; [reflexivity|exact H].
Qed.

Lemma version_check_valid : forall s,
  ends_clean s -> VO.version_check s = true -> s <> [] /\ forallb VO.valid_char s = true.
Proof.
  intros s C. unfold VO.version_check. rewrite (before_dollar_clean s C).
  destruct s; [discriminate|]. intro H. split; [discriminate|exact H].
Qed.

Lemma normalize_valid : forall message s n,
  VO.normalize message s = Ok n -> n <> [] /\ forallb VO.valid_char n = true.
Proof.
  intros message s n. unfold VO.normalize.
  set (v := Py.lower (Py.rstrip (Py.strip s))).
  assert (C : ends_clean v) by apply lowered_ends_clean.
  destruct (Py.eqb v []); [discriminate|].
  destruct (VO.version_check v) eqn:K; cbn [negb andb].
  - intro H. injection H as <-. apply version_check_valid; assumption.
  - destruct (Py.contains "-" v && negb (Py.contains "_" v)).
    + destruct (VO.version_check (Py.replace "-" "_" v)) eqn:K'; cbn [negb];
        [|discriminate].
      intro H. injection H as <-.
      apply version_check_valid; [apply replaced_ends_clean|]; assumption.
    + discriminate.
Qed.

Lemma valid_ends_clean : forall s, forallb VO.valid_char s = true -> ends_clean s.
Proof.
  intros s H. unfold ends_clean.
  assert (R : forallb VO.valid_char (rev s) = true).
  { rewrite forallb_forall in *. intros c I. apply H, in_rev. exact I. }
  destruct (rev s) as [|c r]; [exact I|]. simpl in R.
  apply andb_true_iff in R. destruct R as [R _].
  apply isspace_newline. apply (valid_char_facts _ R).
Qed.

Lemma valid_strip : forall s, forallb VO.valid_char s = true -> Py.strip s = s.
Proof.
  intros s H. unfold Py.strip, Py.rstrip.
  assert (L : forall t, forallb VO.valid_char t = true -> Py.lstrip t = t).
  { intros t T. apply lstrip_fixed. destruct t as [|c t]; [exact I|].
    simpl in T. apply andb_true_iff in T. apply (valid_char_facts _ (proj1 T)). }
  rewrite (L s H). rewrite L; [apply rev_involutive|].
  rewrite forallb_forall in *. intros c I. apply H, in_rev. exact I.
Qed.

Lemma valid_lower : forall s, forallb VO.valid_char s = true -> Py.lower s = s.
Proof.
  induction s as [|c s IH]; [reflexivity|]. simpl. intro H.
  apply andb_true_iff in H. destruct H as [H1 H2].
  rewrite (proj1 (valid_char_facts _ H1)), (IH H2). reflexivity.
Qed.

Lemma normalize_fixed : forall message n,
  n <> [] -> forallb VO.valid_char n = true -> VO.normalize message n = Ok n.
Proof.
  intros message n N V. unfold VO.normalize.
  assert (R : Py.rstrip n = n).
  { pose proof (valid_strip n V) as S. unfold Py.strip in S.
    assert (L : Py.lstrip n = n).
    { apply lstrip_fixed. destruct n as [|c t]; [exact I|].
      simpl in V. apply andb_true_iff in V. apply (valid_char_facts _ (proj1 V)). }
    rewrite L in S. exact S. }
  rewrite (valid_strip n V), R, (valid_lower n V).
  assert (K : VO.version_check n = true).
  { unfold VO.version_check. rewrite (before_dollar_clean n (valid_ends_clean n V)).
    destruct n; [congruence|exact V]. }
  rewrite K. cbn [negb andb].
  destruct (Py.eqb n []) eqn:E; [apply eqb_true_iff in E; congruence|reflexivity].
Qed.

Lemma parse_component_message : forall message message' vk c,
  VO.parse_component message vk = Ok c -> VO.parse_component message' vk = Ok c.
Proof.
  intros message message' vk c. unfold VO.parse_component.
  destruct (VO.findall_runs vk); [discriminate|]. trivial.
Qed.

Lemma mapM_parse_message : forall message message' l r,
  mapM (VO.parse_component message) l = Ok r ->
  mapM (VO.parse_component message') l = Ok r.
Proof.
  intros message message'. induction l as [|x l IH]; intros r; simpl; [trivial|].
  destruct (VO.parse_component message x) as [c|] eqn:P; cbn [bind]; [|discriminate].
  rewrite (parse_component_message message message' x c P). cbn [bind].
  destruct (mapM (VO.parse_component message) l) as [cs|]; cbn [bind]; [|discriminate].
  rewrite (IH cs eq_refl). trivial.
Qed.

Lemma parse_norm_message : forall message message' n v,
  VO.parse_norm message n = Ok v ->
  VO.parse_norm message' n = Ok v /\ norm_version v = n.
Proof.
  intros message message' n v. unfold VO.parse_norm.
  set (parts := Py.split "!" n).
  destruct (match parts with [_] => _ | _ => _ end) as [epoch|] eqn:E at 1;
    cbn [bind]; [|discriminate].
  assert (E' : match parts with
               | [_] => Ok ["0"%char]
               | [e; _] =>
                   if Py.isdigit e then Ok e
                   else Raise (ValueError (message' ++ "epoch must be an integer."))
               | _ => Raise (ValueError (message' ++ "duplicated epoch separator '!'."))
               end = Ok epoch).
  { destruct parts as [|p0 [|p1 [|p2 ps]]]; try discriminate; [exact E|].
    destruct (Py.isdigit p0); [exact E|discriminate]. }
  rewrite E'. cbn [bind]. clear E E'.
  set (rest := Py.split "+" (last parts [])).
  destruct (match rest with [_] => _ | _ => _ end) as [loc|] eqn:L at 1;
    cbn [bind]; [|discriminate].
  assert (L' : match rest with
               | [_] => Ok []
               | [_; l] => Ok (Py.split "." (Py.replace "_" "." l))
               | _ => Raise (ValueError
                               (message' ++ "duplicated local version separator '+'."))
               end = Ok loc).
  { destruct rest as [|p0 [|p1 [|p2 ps]]]; try discriminate; exact L. }
  rewrite L'. cbn [bind]. clear L L'.
  destruct (mapM (VO.parse_component message) (epoch :: _)) as [ver'|] eqn:V;
    cbn [bind]; [|discriminate].
  rewrite (mapM_parse_message message message' _ _ V). cbn [bind].
  destruct (mapM (VO.parse_component message) loc) as [loc'|] eqn:W;
    cbn [bind]; [|discriminate].
  rewrite (mapM_parse_message message message' _ _ W). cbn [bind].
  intro H. injection H as <-. split; reflexivity.
Qed.

Lemma new_str : forall s v, VO.new s = Ok v -> VO.new (VO.str v) = Ok v.
Proof.
  intros s v. unfold VO.new.
  destruct (VO.normalize _ s) as [n|] eqn:N; cbn [bind]; [|discriminate].
  intro P. destruct (normalize_valid _ _ _ N) as [N1 N2].
  destruct (parse_norm_message _ ("Malformed version string '" ++ VO.str v ++ "': ")
                                _ _ P) as [P' S].
  unfold VO.str in *. rewrite S in *. rewrite (normalize_fixed _ n N1 N2). cbn [bind].
  exact P'.
Qed.

Lemma VO_eq_refl : forall v, VO.eq v v = true.
Proof.
  intro v. apply eq_cmp. rewrite VO_cmp_unfold.
  rewrite !(wo_refl lt_part_weak_order). reflexivity.
Qed.

(** C8: parsing the canonical string of a parsed version succeeds and
    gives a version equal to it. *)
Theorem C8_canonical_string : forall (s : pystr) (v : VersionOrder),
  VO.new s = Ok v ->
  exists v', VO.new (VO.str v) = Ok v' /\ VO.eq v' v = true.
Proof.
  intros s v H. exists v. split; [exact (new_str s v H)|apply VO_eq_refl].
Qed.

Lemma C8_canonical_string_witness :
  VO.new " 1.1-POST1 " = Ok (parsed " 1.1-POST1 ") /\
  exists v', VO.new (VO.str (parsed " 1.1-POST1 ")) = Ok v' /\
             VO.eq v' (parsed " 1.1-POST1 ") = true.
Proof.
  split; [vm_compute; reflexivity|].
  apply (C8_canonical_string " 1.1-POST1 "). vm_compute. reflexivity.
Defined.

(** ** Serialization of compiled version specs *)

Lemma split_nonempty : forall sep s, Py.split sep s <> [].
Proof.
  intros sep [|c r]; simpl; [discriminate|].
  destruct (c =? sep)%char; [discriminate|].
  destruct (Py.split sep r); discriminate.
Qed.

Lemma join_cons : forall sep x l,
  l <> [] -> Py.join sep (x :: l) = x ++ sep ++ Py.join sep l.
Proof. intros sep x [|y l] H; [congruence|reflexivity]. Qed.

Lemma join_split : forall sep s, Py.join [sep] (Py.split sep s) = s.
Proof.
  intros sep. induction s as [|c r IH]; [reflexivity|]. simpl.
  destruct (c =? sep)%char eqn:E.
  - apply Ascii.eqb_eq in E. subst c.
    rewrite join_cons by apply split_nonempty. rewrite IH. reflexivity.
  - pose proof (split_nonempty sep r) as N.
    destruct (Py.split sep r) as [|p ps]; [congruence|].
    destruct ps as [|q qs].
    + simpl in *. rewrite IH. reflexivity.
    + rewrite join_cons by discriminate. rewrite join_cons in IH by discriminate.
      simpl. rewrite <- IH. reflexivity.
Qed.

Lemma regex_split_scan_app : forall r acc first tail,
  regex_split_scan acc r = Some (first, tail) -> rev acc ++ r = first ++ tail.
Proof.
  induction r as [|d r IH]; intros acc first tail; simpl; [discriminate|].
  destruct (d =? "$")%char.
  - intro H. injection H as <- <-. simpl. rewrite <- app_assoc. reflexivity.
  - destruct (Py.isspace d); [discriminate|].
    intro H. apply IH in H. simpl in H. rewrite <- app_assoc in H. exact H.
Qed.

Lemma regex_split_app : forall spec first tail,
  regex_split spec = Some (first, tail) -> spec = first ++ tail.
Proof.
  intros [|a [|c r]] first tail; simpl; try discriminate.
  destruct ((a =? "^")%char && negb (Py.isspace c)); [|discriminate].
  intro H. apply regex_split_scan_app in H. exact H.
Qed.

Section Serialization.

Variable re : pystr -> option (pystr -> bool).

Lemma leaf_str : forall spec r,
  VersionSpec_leaf re spec = Ok r ->
  VersionSpec_str r false = spec /\ forall t cs, r <> VSTuple t cs.
Proof.
  intros spec r. unfold VersionSpec_leaf.
  destruct (existsb _ _).
  - destruct (relation_match spec) as [[op b]|]; [|discriminate].
    destruct (VO.new b); cbn [bind]; [|discriminate].
    intro H. injection H as <-. split; [reflexivity|discriminate].
  - destruct (Py.eqb spec "*").
    { intro H. injection H as <-. split; [reflexivity|discriminate]. }
    destruct (Py.contains "*" _).
    { destruct (re _); [|discriminate].
      intro H. injection H as <-. split; [reflexivity|discriminate]. }
    destruct (Py.endswith spec "*").
    { destruct (VO.new _); cbn [bind]; [|discriminate].
      intro H. injection H as <-. split; [reflexivity|discriminate]. }
    intro H. injection H as <-. split; [reflexivity|discriminate].
Qed.

Lemma compile_all_str : forall (f : pystr -> option (result VersionSpec)),
  forall l xs,
    (forall x r, In x l -> f x = Some (Ok r) -> VersionSpec_str r false = x) ->
    compile_all f l = Some (Ok xs) ->
    map (fun x => VersionSpec_str x false) xs = l.
Proof.
  intros f. induction l as [|s l IH]; intros xs H; simpl.
  - intro E. injection E as <-. reflexivity.
  - destruct (f s) as [[x|]|] eqn:F; try discriminate.
    destruct (compile_all f l) as [[ys|]|] eqn:C; try discriminate.
    intro E. injection E as <-. simpl.
    rewrite (H s x (or_introl eq_refl) F).
    rewrite (IH ys); [reflexivity| |reflexivity].
    intros y r I. apply H. right. exact I.
Qed.

Lemma tupled_inv : forall t c r,
  tupled t c = Some (Ok r) -> exists xs, c = Some (Ok xs) /\ r = VSTuple t xs.
Proof.
  intros t [[xs|]|] r; simpl; try discriminate.
  intro H. injection H as <-. exists xs. split; reflexivity.
Qed.

Lemma tuple_str : forall t xs,
  t = TagStrAll \/ t = TagStrAny ->
  VersionSpec_str (VSTuple t xs) false =
  Py.join (if tag_is_str_all t then "," else "|")
          (map (fun x => VersionSpec_str x false) xs).
Proof. intros t xs [-> | ->]; reflexivity. Qed.

Lemma fuel_str : forall n spec r,
  VersionSpec_fuel re n spec = Some (Ok r) ->
  VersionSpec_str r false = spec /\
  forall t cs, r = VSTuple t cs -> t = TagStrAll \/ t = TagStrAny.
Proof.
  induction n as [|n IH]; intros spec r; cbn [VersionSpec_fuel]; [discriminate|].
  assert (A : forall l xs, compile_all (VersionSpec_fuel re n) l = Some (Ok xs) ->
                           map (fun x => VersionSpec_str x false) xs = l).
  { intros l xs. apply compile_all_str. intros x y _ F. apply (IH x y F). }
  destruct (regex_split spec) as [[first tail]|] eqn:R.
  - apply regex_split_app in R. destruct tail as [|operator rest].
    + destruct (re spec); [|discriminate]. intro H. injection H as <-.
      rewrite app_nil_r in R. split; [simpl; congruence|discriminate].
    + unfold regex_split_converter.
      destruct (operator =? "|")%char eqn:E1.
      * intro H. apply tupled_inv in H. destruct H as [xs [C ->]].
        apply Ascii.eqb_eq in E1. subst operator.
        split; [|intros t cs E; injection E as <- _; right; reflexivity].
        rewrite tuple_str by (right; reflexivity). rewrite (A _ _ C).
        rewrite R. reflexivity.
      * destruct (operator =? ",")%char eqn:E2; [|discriminate].
        intro H. apply tupled_inv in H. destruct H as [xs [C ->]].
        apply Ascii.eqb_eq in E2. subst operator.
        split; [|intros t cs E; injection E as <- _; left; reflexivity].
        rewrite tuple_str by (left; reflexivity). rewrite (A _ _ C).
        rewrite R. reflexivity.
  - destruct (Py.contains "|" spec).
    { intro H. apply tupled_inv in H. destruct H as [xs [C ->]].
      split; [|intros t cs E; injection E as <- _; right; reflexivity].
      rewrite tuple_str by (right; reflexivity). rewrite (A _ _ C).
      apply (join_split "|"). }
    destruct (Py.contains "," spec).
    { intro H. apply tupled_inv in H. destruct H as [xs [C ->]].
      split; [|intros t cs E; injection E as <- _; left; reflexivity].
      rewrite tuple_str by (left; reflexivity). rewrite (A _ _ C).
      apply (join_split ","). }
    intro H. injection H as H. apply leaf_str in H. destruct H as [H1 H2].
    split; [exact H1|]. intros t cs E. exfalso. exact (H2 t cs E).
Qed.

(** C7, as the code has it: for a [_VersionSpec] compiled from a
    string, [str] gives back that string, the children of an ['all']
    joined with [,] and those of an ['any'] with [|], with no parentheses
    added; compiling it again gives the same [_VersionSpec], whose [match]
    agrees on every version string. *)
Theorem C7_serialization_round_trip :
  forall (spec : pystr) (vs : VersionSpec),
    VersionSpec_new re spec = Ok vs ->
    VersionSpec_str vs false = spec /\
    (exists vs', VersionSpec_new re (VersionSpec_str vs false) = Ok vs' /\
                 forall v, VersionSpec_match re vs' v = VersionSpec_match re vs v) /\
    (forall t children, vs = VSTuple t children ->
       (t = TagStrAll \/ t = TagStrAny) /\
       VersionSpec_str vs false =
       Py.join (if tag_is_str_all t then "," else "|")
               (map (fun x => VersionSpec_str x false) children)).
Proof.
  intros spec vs H.
  assert (F : VersionSpec_fuel re (S (length spec)) spec = Some (Ok vs)).
  { unfold VersionSpec_new in H.
    destruct (VersionSpec_fuel re (S (length spec)) spec); [congruence|discriminate]. }
  destruct (fuel_str _ _ _ F) as [S T].
  split; [exact S|]. split.
  - exists vs. rewrite S. split; [exact H|reflexivity].
  - intros t children E. split; [exact (T t children E)|].
    subst vs. apply tuple_str. exact (T t children eq_refl).
Qed.

End Serialization.

Lemma C7_serialization_round_trip_witness :
  VersionSpec_new Re.compile ">=1.7,<2|1.5*" =
    Ok (VSTuple TagStrAny
          [VSTuple TagStrAll [VSEval ">=1.7" OpGe (parsed "1.7");
                              VSEval "<2" OpLt (parsed "2")];
           VSEval "1.5*" OpStartswith (parsed "1.5")]) /\
  VersionSpec_str
    (VSTuple TagStrAny
       [VSTuple TagStrAll [VSEval ">=1.7" OpGe (parsed "1.7");
                           VSEval "<2" OpLt (parsed "2")];
        VSEval "1.5*" OpStartswith (parsed "1.5")]) false = ">=1.7,<2|1.5*".
Proof.
  split; [vm_compute; reflexivity|].
  apply (C7_serialization_round_trip Re.compile ">=1.7,<2|1.5*").
  vm_compute. reflexivity.
Defined.

(** C7 fails twice: an ['all'] group inside an ['any'] group is
    serialized without parentheses; and a combinator built with [&] and
    [|] is serialized to a string whose compiled form rejects a version
    that the combinator accepts. *)
Lemma C7_counterexample :
  (VersionSpec_new Re.compile "1.0,2.0|3.0" =
     Ok (VSTuple TagStrAny [VSTuple TagStrAll [VSExact "1.0"; VSExact "2.0"];
                            VSExact "3.0"]) /\
   VersionSpec_str (VSTuple TagStrAny [VSTuple TagStrAll [VSExact "1.0"; VSExact "2.0"];
                                       VSExact "3.0"]) false = "1.0,2.0|3.0") /\
  (VersionSpec_str (VersionSpec_and (VersionSpec_or (VSExact "1.0") (VSExact "2.0"))
                                    (VSExact "3.0")) false = "(1.0|2.0)|3.0" /\
   VersionSpec_new Re.compile "(1.0|2.0)|3.0" =
     Ok (VSTuple TagStrAny [VSExact "(1.0"; VSExact "2.0)"; VSExact "3.0"]) /\
   VersionSpec_match Re.compile
     (VersionSpec_and (VersionSpec_or (VSExact "1.0") (VSExact "2.0")) (VSExact "3.0"))
     "1.0" = Ok true /\
   VersionSpec_match Re.compile
     (VSTuple TagStrAny [VSExact "(1.0"; VSExact "2.0)"; VSExact "3.0"]) "1.0" = Ok false).
Proof. repeat split; vm_compute; reflexivity. Qed.

(** ** The recursion of [_VersionSpec.__new__] ends *)

Lemma split_piece_le : forall sep s p,
  In p (Py.split sep s) -> length p <= length s.
Proof.
  intros sep. induction s as [|c r IH]; intros p; simpl.
  - intros [<- | []]. simpl. lia.
  - destruct (c =? sep)%char.
    + intros [<- | I]; [simpl; lia|]. apply IH in I. lia.
    + pose proof (split_nonempty sep r) as N.
      destruct (Py.split sep r) as [|q qs]; [congruence|].
      intros [<- | I].
      * specialize (IH q (or_introl eq_refl)). simpl. lia.
      * specialize (IH p (or_intror I)). lia.
Qed.

Lemma split_piece_lt : forall sep s p,
  Py.contains sep s = true -> In p (Py.split sep s) -> length p < length s.
Proof.
  intros sep. induction s as [|c r IH]; intros p; simpl; [discriminate|].
  destruct (c =? sep)%char; simpl.
  - intros _ [<- | I]; [simpl; lia|]. apply split_piece_le in I. lia.
  - intro C. pose proof (split_nonempty sep r) as N.
    destruct (Py.split sep r) as [|q qs]; [congruence|].
    intros [<- | I].
    + specialize (IH q C (or_introl eq_refl)). simpl. lia.
    + specialize (IH p C (or_intror I)). lia.
Qed.

Lemma compile_all_total : forall (f : pystr -> option (result VersionSpec)) l,
  (forall x, In x l -> f x <> None) -> compile_all f l <> None.
Proof.
  intros f. induction l as [|s l IH]; intro H; simpl; [discriminate|].
  pose proof (H s (or_introl eq_refl)) as F.
  destruct (f s) as [[x|]|]; [|discriminate|congruence].
  assert (C : compile_all f l <> None) by (apply IH; intros y I; apply H; right; exact I).
  destruct (compile_all f l) as [[ys|]|]; [discriminate|discriminate|congruence].
Qed.

Lemma tupled_total : forall t c, c <> None -> tupled t c <> None.
Proof. intros t [[xs|]|] H; simpl; [discriminate|discriminate|congruence]. Qed.

Lemma VersionSpec_fuel_total :
  forall (re : pystr -> option (pystr -> bool)) n spec,
    length spec < n -> VersionSpec_fuel re n spec <> None.
Proof.
  intros re. induction n as [|n IH]; intros spec L; [lia|].
  cbn [VersionSpec_fuel].
  destruct (regex_split spec) as [[first tail]|] eqn:R.
  - apply regex_split_app in R. destruct tail as [|operator rest].
    + destruct (re spec); discriminate.
    + destruct (regex_split_converter operator); [|discriminate].
      apply tupled_total, compile_all_total. subst spec.
      rewrite length_app in L. simpl in L.
      intros x [<- | [<- | []]]; apply IH; lia.
  - destruct (Py.contains "|" spec) eqn:C1.
    { apply tupled_total, compile_all_total. intros x I.
      apply IH. pose proof (split_piece_lt "|" spec x C1 I). lia. }
    destruct (Py.contains "," spec) eqn:C2.
    { apply tupled_total, compile_all_total. intros x I.
      apply IH. pose proof (split_piece_lt "," spec x C2 I). lia. }
    discriminate.
Qed.

Lemma VersionSpec_new_fuel :
  forall (re : pystr -> option (pystr -> bool)) spec,
    VersionSpec_fuel re (S (length spec)) spec = Some (VersionSpec_new re spec).
Proof.
  intros re spec. unfold VersionSpec_new.
  pose proof (VersionSpec_fuel_total re (S (length spec)) spec (Nat.lt_succ_diag_r _)) as T.
  destruct (VersionSpec_fuel re (S (length spec)) spec); [reflexivity|congruence].
Qed.

Lemma compile_all_mono : forall (f g : pystr -> option (result VersionSpec)) l r,
  (forall x y, f x = Some y -> g x = Some y) ->
  compile_all f l = Some r -> compile_all g l = Some r.
Proof.
  intros f g. induction l as [|s l IH]; intros r M; simpl; [trivial|].
  destruct (f s) as [[x|e]|] eqn:F; [| |discriminate];
    rewrite (M _ _ F); [|trivial].
  destruct (compile_all f l) as [[ys|e]|] eqn:C; [| |discriminate];
    rewrite (IH _ M eq_refl); trivial.
Qed.

Lemma VersionSpec_fuel_mono :
  forall (re : pystr -> option (pystr -> bool)) n spec r,
    VersionSpec_fuel re n spec = Some r -> VersionSpec_fuel re (S n) spec = Some r.
Proof.
  intros re. induction n as [|n IH]; intros spec r; [discriminate|].
  intro H. cbn [VersionSpec_fuel] in *.
  assert (A : forall t l, tupled t (compile_all (VersionSpec_fuel re n) l) = Some r ->
                          tupled t (compile_all (VersionSpec_fuel re (S n)) l) = Some r).
  { intros t l T.
    destruct (compile_all (VersionSpec_fuel re n) l) as [c|] eqn:C; [|discriminate].
    rewrite (compile_all_mono _ (VersionSpec_fuel re (S n)) l c IH C). exact T. }
  destruct (regex_split spec) as [[first tail]|].
  - destruct tail as [|operator rest]; [exact H|].
    destruct (regex_split_converter operator); [|exact H].
    apply A. exact H.
  - destruct (Py.contains "|" spec); [apply A; exact H|].
    destruct (Py.contains "," spec); [apply A; exact H|exact H].
Qed.

(** ** Every parsed version has an epoch *)

Lemma findall_digits : forall s,
  s <> [] -> forallb Py.isdigit_char s = true -> VO.findall_runs s = [s].
Proof.
  induction s as [|c r IH]; intros N D; [congruence|].
  simpl in D. apply andb_true_iff in D. destruct D as [Dc Dr].
  destruct r as [|d r']; [reflexivity|].
  change (VO.findall_runs (c :: d :: r')) with
    (match VO.findall_runs (d :: r') with
     | (d0 :: p) :: ps =>
         if VO.cls_eqb (VO.cls_of c) (VO.cls_of d0) then (c :: d0 :: p) :: ps
         else [c] :: (d0 :: p) :: ps
     | _ => [[c]]
     end).
  rewrite IH by (discriminate || exact Dr).
  simpl in Dr. apply andb_true_iff in Dr. destruct Dr as [Dd _].
  unfold VO.cls_of. rewrite Dc, Dd. reflexivity.
Qed.

Lemma parse_digits : forall message e,
  Py.isdigit e = true ->
  VO.parse_component message e =
  match Py.int e with
  | Some n => Ok [TInt n]
  | None => Raise (ValueError (VO.int_limit_message e))
  end.
Proof.
  intros message e D. unfold VO.parse_component.
  assert (N : e <> []) by (destruct e; [discriminate|discriminate]).
  assert (F : forallb Py.isdigit_char e = true) by (destruct e; [discriminate|exact D]).
  rewrite (findall_digits e N F).
  cbn [mapM]. unfold VO.convert_run. rewrite D.
  destruct (Py.int e); cbn [bind]; [|reflexivity].
  destruct e as [|c0 e']; [congruence|].
  simpl in F. apply andb_true_iff in F. rewrite (proj1 F). reflexivity.
Qed.

Lemma parse_epoch_component : forall message e,
  Py.isdigit e = true ->
  (N.of_nat (length e) <=? Py.int_max_str_digits)%N = true ->
  VO.parse_component message e = Ok [TInt (Py.int_value e)].
Proof.
  intros message e D L. rewrite (parse_digits message e D). unfold Py.int.
  apply N.leb_le in L.
  destruct (N.ltb_spec Py.int_max_str_digits (N.of_nat (length e))); [lia|reflexivity].
Qed.

Lemma parse_digits_inv : forall message e c,
  Py.isdigit e = true ->
  VO.parse_component message e = Ok c -> c = [TInt (Py.int_value e)].
Proof.
  intros message e c D. rewrite (parse_digits message e D). unfold Py.int.
  destruct (_ <? _)%N; [discriminate|]. intro H. injection H as <-. reflexivity.
Qed.

Lemma new_epoch : forall s v,
  VO.new s = Ok v ->
  epoch v = Some (match Py.split "!" (norm_version v) with
                  | [e; _] => Py.int_value e
                  | _ => 0%N
                  end).
Proof.
  intros s v. unfold VO.new.
  destruct (VO.normalize _ s) as [n|]; cbn [bind]; [|discriminate].
  intro P. pose proof (proj2 (parse_norm_message _ [] _ _ P)) as S. rewrite S.
  revert P. unfold VO.parse_norm.
  destruct (Py.split "!" n) as [|p0 [|p1 [|p2 ps]]]; cbn [bind]; try discriminate.
  - destruct (match Py.split "+" _ with [_] => _ | _ => _ end); cbn [bind];
      [|discriminate].
    cbn [mapM]. rewrite (parse_epoch_component _ ["0"%char] eq_refl eq_refl). cbn [bind].
    destruct (mapM _ _); cbn [bind]; [|discriminate].
    destruct (mapM _ _); cbn [bind]; [|discriminate].
    intro H. injection H as <-. reflexivity.
  - destruct (Py.isdigit p0) eqn:D; cbn [bind]; [|discriminate].
    destruct (match Py.split "+" _ with [_] => _ | _ => _ end); cbn [bind];
      [|discriminate].
    cbn [mapM].
    destruct (VO.parse_component _ p0) as [c0|] eqn:P0; cbn [bind]; [|discriminate].
    rewrite (parse_digits_inv _ p0 c0 D P0).
    destruct (mapM _ _); cbn [bind]; [|discriminate].
    destruct (mapM _ _); cbn [bind]; [|discriminate].
    intro H. injection H as <-. reflexivity.
Qed.

(** ** The six comparison operators together *)

(** X1: the operators of [_VersionOrder] agree with one another:
    [a <= b] is [a < b or a == b], [a >= b] is [a > b or a == b], and
    [a != b] is [a < b or a > b]. *)
Theorem VO_operators_agree : forall a b : VersionOrder,
  VO.le a b = (VO.lt a b || VO.eq a b) /\
  VO.ge a b = (VO.gt a b || VO.eq a b) /\
  VO.ne a b = (VO.lt a b || VO.gt a b).
Proof.
  intros a b. unfold VO.le, VO.ge, VO.ne.
  fold (VO.gt a b).
  destruct (VO_trichotomy a b) as [[H1 [H2 H3]] | [[H1 [H2 H3]] | [H1 [H2 H3]]]];
    rewrite H1, H2, H3; repeat split; reflexivity.
Qed.

Lemma VO_eq_sym : forall a b, VO.eq a b = VO.eq b a.
Proof.
  intros a b.
  pose proof (eq_cmp a b) as E1. pose proof (eq_cmp b a) as E2.
  rewrite VO_cmp_flip in E2.
  destruct (VO_cmp a b) as [[|]|]; simpl in E2;
    destruct (VO.eq a b), (VO.eq b a); try reflexivity;
    try (destruct E1 as [E1 _]; discriminate (E1 eq_refl));
    try (destruct E2 as [E2 _]; discriminate (E2 eq_refl));
    try (destruct E1 as [_ E1]; discriminate (E1 eq_refl));
    try (destruct E2 as [_ E2]; discriminate (E2 eq_refl)).
Qed.

Lemma VO_cmp_eq_l : forall a b c, VO.eq a b = true -> VO_cmp a c = VO_cmp b c.
Proof.
  intros a b c E. apply eq_cmp in E.
  pose proof (VO_cmp_chain a b c) as C. rewrite E in C. exact C.
Qed.

Lemma VO_cmp_eq_r : forall a b c, VO.eq a b = true -> VO_cmp c a = VO_cmp c b.
Proof.
  intros a b c E. rewrite (VO_cmp_flip a c), (VO_cmp_flip b c).
  rewrite (VO_cmp_eq_l a b c E). reflexivity.
Qed.

Lemma lt_of_cmp : forall a b,
  VO.lt a b = match VO_cmp a b with Some true => true | _ => false end.
Proof.
  intros a b. unfold VO.lt. fold (VO_cmp a b).
  destruct (VO_cmp a b) as [[|]|]; reflexivity.
Qed.

Lemma eq_of_cmp : forall a b,
  VO.eq a b = match VO_cmp a b with None => true | _ => false end.
Proof.
  intros a b. pose proof (eq_cmp a b) as E.
  destruct (VO_cmp a b) as [[|]|]; destruct (VO.eq a b); try reflexivity;
    try (destruct E as [E _]; discriminate (E eq_refl));
    try (destruct E as [_ E]; discriminate (E eq_refl)).
Qed.

(** X2: [==] on parsed versions is an equivalence relation, and
    versions that are equal compare alike with every third version, under
    [<] and under [==]. *)
Theorem VO_eq_equivalence :
  (forall a, VO.eq a a = true) /\
  (forall a b, VO.eq a b = true -> VO.eq b a = true) /\
  (forall a b c, VO.eq a b = true -> VO.eq b c = true -> VO.eq a c = true) /\
  (forall a b c, VO.eq a b = true ->
     VO.lt a c = VO.lt b c /\ VO.lt c a = VO.lt c b /\ VO.eq a c = VO.eq b c).
Proof.
  split; [exact VO_eq_refl|]. split; [|split].
  - intros a b H. rewrite <- VO_eq_sym. exact H.
  - intros a b c H1 H2. rewrite eq_of_cmp. rewrite (VO_cmp_eq_l a b c H1).
    rewrite <- eq_of_cmp. exact H2.
  - intros a b c H. rewrite !lt_of_cmp, !eq_of_cmp.
    rewrite (VO_cmp_eq_l a b c H), (VO_cmp_eq_r a b c H). repeat split; reflexivity.
Qed.

Lemma VO_eq_equivalence_witness :
  VO.eq (parsed "1.1") (parsed "1.1.0") = true /\
  (VO.lt (parsed "1.1") (parsed "1.1post1") = VO.lt (parsed "1.1.0") (parsed "1.1post1") /\
   VO.lt (parsed "1.1post1") (parsed "1.1") = VO.lt (parsed "1.1post1") (parsed "1.1.0") /\
   VO.eq (parsed "1.1") (parsed "1.1post1") = VO.eq (parsed "1.1.0") (parsed "1.1post1")).
Proof.
  split; [vm_compute; reflexivity|].
  apply (proj2 (proj2 (proj2 VO_eq_equivalence)) (parsed "1.1") (parsed "1.1.0")).
  vm_compute. reflexivity.
Defined.

(** ** What parsing builds *)

Lemma cls_eqb_eq : forall a b, VO.cls_eqb a b = true <-> a = b.
Proof. intros [] []; simpl; split; congruence. Qed.

Lemma findall_runs_head : forall r c,
  exists p ps,
    VO.findall_runs (c :: r) = (c :: p) :: ps /\
    forallb (fun d => VO.cls_eqb (VO.cls_of c) (VO.cls_of d)) p = true.
Proof.
  induction r as [|d r IH]; intro c.
  - exists [], []. split; reflexivity.
  - destruct (IH d) as [p [ps [E F]]].
    change (VO.findall_runs (c :: d :: r)) with
      (match VO.findall_runs (d :: r) with
       | (d0 :: p0) :: ps0 =>
           if VO.cls_eqb (VO.cls_of c) (VO.cls_of d0) then (c :: d0 :: p0) :: ps0
           else [c] :: (d0 :: p0) :: ps0
       | _ => [[c]]
       end).
    rewrite E. destruct (VO.cls_eqb (VO.cls_of c) (VO.cls_of d)) eqn:K.
    + exists (d :: p), ps. split; [reflexivity|]. simpl. rewrite K. simpl.
      apply cls_eqb_eq in K. rewrite K. exact F.
    + exists [], ((d :: p) :: ps). split; reflexivity.
Qed.

Lemma findall_runs_nonempty : forall s, Forall (fun x => x <> []) (VO.findall_runs s).
Proof.
  induction s as [|c r IH]; [constructor|].
  destruct (findall_runs_head r c) as [p [ps [E _]]].
  simpl in *. destruct (VO.findall_runs r) as [|[|d q] qs].
  - constructor; [discriminate|constructor].
  - constructor; [discriminate|constructor].
  - inversion IH as [|? ? _ T]; subst.
    destruct (VO.cls_eqb (VO.cls_of c) (VO.cls_of d)).
    + constructor; [discriminate|exact T].
    + constructor; [discriminate|]. constructor; [discriminate|exact T].
Qed.

Lemma convert_run_ok : forall r t,
  r <> [] -> VO.convert_run r = Ok t -> token_ok t = true.
Proof.
  intros r t N. unfold VO.convert_run.
  destruct (Py.isdigit r).
  { destruct (Py.int r); [|discriminate]. intro H. injection H as <-. reflexivity. }
  destruct (Py.eqb r "post") eqn:P; [intro H; injection H as <-; reflexivity|].
  destruct (Py.eqb r "dev") eqn:D; [intro H; injection H as <-; reflexivity|].
  intro H. injection H as <-. unfold token_ok. rewrite P, D.
  destruct (Py.eqb r []) eqn:E; [apply eqb_true_iff in E; congruence|reflexivity].
Qed.

Lemma convert_runs_ok : forall l ts,
  Forall (fun x => x <> []) l -> mapM VO.convert_run l = Ok ts ->
  forallb token_ok ts = true.
Proof.
  induction l as [|r l IH]; intros ts F; cbn [mapM].
  - intro H. injection H as <-. reflexivity.
  - inversion F as [|? ? Fr Fl]; subst.
    destruct (VO.convert_run r) as [t|] eqn:C; cbn [bind]; [|discriminate].
    destruct (mapM VO.convert_run l) as [ts'|]; cbn [bind]; [|discriminate].
    intro H. injection H as <-. simpl.
    rewrite (convert_run_ok r t Fr C), (IH ts' Fl eq_refl). reflexivity.
Qed.

Lemma convert_run_digits : forall r t,
  Py.isdigit r = true -> VO.convert_run r = Ok t -> t = TInt (Py.int_value r).
Proof.
  intros r t D. unfold VO.convert_run, Py.int. rewrite D.
  destruct (_ <? _)%N; [discriminate|]. intro H. injection H as <-. reflexivity.
Qed.

Lemma isdigit_cls : forall c, Py.isdigit_char c = true <-> VO.cls_of c = VO.CDigit.
Proof.
  intro c. unfold VO.cls_of. destruct (Py.isdigit_char c); [tauto|].
  destruct (c =? "*")%char; split; discriminate.
Qed.

Lemma parse_component_ok : forall message vk c,
  VO.parse_component message vk = Ok c -> component_ok c = true.
Proof.
  intros message vk c. unfold VO.parse_component.
  pose proof (findall_runs_nonempty vk) as N.
  destruct vk as [|c0 r]; [simpl; discriminate|].
  destruct (findall_runs_head r c0) as [p [ps [E F]]]. rewrite E in *.
  destruct (mapM _ _) as [ts|] eqn:M; cbn [bind]; [|discriminate].
  pose proof (convert_runs_ok _ ts N M) as T.
  destruct (Py.isdigit_char c0) eqn:D.
  - intro H. injection H as <-. unfold component_ok.
    rewrite T, andb_true_r.
    assert (G : Py.isdigit (c0 :: p) = true).
    { simpl. rewrite D. simpl. rewrite forallb_forall in *. intros d I.
      apply isdigit_cls. apply isdigit_cls in D.
      specialize (F d I). apply cls_eqb_eq in F. congruence. }
    cbn [mapM] in M.
    destruct (VO.convert_run (c0 :: p)) as [t0|] eqn:C0; cbn [bind] in M;
      [|discriminate M].
    destruct (mapM VO.convert_run ps) as [ts'|]; cbn [bind] in M; [|discriminate M].
    injection M as <-. rewrite (convert_run_digits _ t0 G C0). reflexivity.
  - intro H. injection H as <-. unfold component_ok.
    cbn [starts_with_int fillvalue forallb token_ok andb]. exact T.
Qed.

Lemma mapM_parse_ok : forall message l r,
  mapM (VO.parse_component message) l = Ok r ->
  forallb component_ok r = true /\ length r = length l.
Proof.
  intros message. induction l as [|x l IH]; intros r; simpl.
  - intro H. injection H as <-. split; reflexivity.
  - destruct (VO.parse_component message x) as [c|] eqn:P; cbn [bind]; [|discriminate].
    destruct (mapM (VO.parse_component message) l) as [cs|]; cbn [bind]; [|discriminate].
    intro H. injection H as <-. destruct (IH cs eq_refl) as [A B].
    simpl. rewrite (parse_component_ok _ _ _ P), A, B. split; reflexivity.
Qed.

Lemma new_components_ok : forall (s : pystr) (v : VersionOrder),
  VO.new s = Ok v ->
  forallb component_ok (version v) = true /\
  forallb component_ok (local v) = true /\
  2 <= length (version v).
Proof.
  intros s v H.
  revert H. unfold VO.new.
  destruct (VO.normalize _ s) as [n|]; cbn [bind]; [|discriminate].
  unfold VO.parse_norm.
  destruct (match Py.split "!" n with [_] => _ | _ => _ end) as [ep|]; cbn [bind];
    [|discriminate].
  destruct (match Py.split "+" _ with [_] => _ | _ => _ end) as [loc|]; cbn [bind];
    [|discriminate].
  destruct (mapM (VO.parse_component _) (ep :: _)) as [ver'|] eqn:V; cbn [bind];
    [|discriminate].
  destruct (mapM (VO.parse_component _) loc) as [loc'|] eqn:L; cbn [bind];
    [|discriminate].
  intro H. injection H as <-. cbn [version local].
  destruct (mapM_parse_ok _ _ _ V) as [V1 V2].
  destruct (mapM_parse_ok _ _ _ L) as [L1 _].
  split; [exact V1|]. split; [exact L1|].
  rewrite V2. simpl.
  pose proof (split_nonempty "." (Py.replace "_" "."
                (hd [] (Py.split "+" (last (Py.split "!" n) []))))) as N.
  destruct (Py.split "." _); [congruence|simpl; lia].
Qed.

(** X3: in every parsed version, each component of the version and of
    the local version begins with a number, no string subcomponent is
    empty, [post] or [dev], and the version has the epoch and at least one
    more component. *)
Theorem parsed_shape : forall (s : pystr) (v : VersionOrder),
  VO.new s = Ok v ->
  forallb component_ok (version v) = true /\
  forallb component_ok (local v) = true /\
  2 <= length (version v) /\
  exists e, epoch v = Some e.
Proof.
  intros s v H. destruct (new_components_ok s v H) as [A [B C]].
  split; [exact A|]. split; [exact B|]. split; [exact C|].
  eexists. exact (new_epoch s v H).
Qed.

Lemma parsed_shape_witness :
  VO.new "1!2.15.1_ALPHA+dev.3" = Ok (parsed "1!2.15.1_ALPHA+dev.3") /\
  forallb component_ok (version (parsed "1!2.15.1_ALPHA+dev.3")) = true.
Proof.
  split; [vm_compute; reflexivity|].
  apply (parsed_shape "1!2.15.1_ALPHA+dev.3"). vm_compute. reflexivity.
Defined.

Lemma component_ok_nonempty : forall c, component_ok c = true -> c <> [].
Proof. intros [|t c]; [discriminate|discriminate]. Qed.

Lemma last_in : forall (A : Type) (l : list A) (d : A), l <> [] -> In (last l d) l.
Proof.
  intros A. induction l as [|a l IH]; intros d N; [congruence|].
  destruct l as [|b l]; [left; reflexivity|].
  right. apply IH. discriminate.
Qed.

Lemma startswith_ok : forall va vb,
  forallb component_ok (version vb) = true ->
  forallb component_ok (local vb) = true ->
  exists r, VO.startswith va vb = Ok r.
Proof.
  intros va vb V L. unfold VO.startswith.
  assert (G : forall t1 t2, t2 <> [] -> forallb component_ok t2 = true ->
            exists r,
              (let nt := length t2 - 1 in
               if negb (VO._eq (firstn nt t1) (firstn nt t2)) then Ok false
               else
                 let v1 := nth nt t1 [] in
                 let v2 := last t2 [] in
                 match v2 with
                 | [] => if negb (VO._eq [removelast v1] [[]]) then Ok false
                         else Raise IndexError
                 | _ =>
                     let nt := length v2 - 1 in
                     if negb (VO._eq [firstn nt v1] [firstn nt v2]) then Ok false
                     else
                       let c1 := nth nt v1 fillvalue in
                       let c2 := last v2 fillvalue in
                       match c2 with
                       | TStr p => Ok (match c1 with
                                       | TStr s => Py.startswith s p
                                       | _ => false
                                       end)
                       | _ => Ok (token_eqb c1 c2)
                       end
                 end) = Ok r).
  { intros t1 t2 N F. cbv zeta.
    destruct (negb (VO._eq (firstn _ t1) (firstn _ t2))); [eexists; reflexivity|].
    assert (K : last t2 [] <> []).
    { apply component_ok_nonempty. rewrite forallb_forall in F. apply F.
      apply last_in. exact N. }
    destruct (last t2 []) as [|t0 v2]; [congruence|].
    destruct (negb (VO._eq _ _)); [eexists; reflexivity|].
    destruct (last (t0 :: v2) fillvalue); eexists; reflexivity. }
  destruct (local vb) as [|l0 ls] eqn:EL.
  - destruct (version vb) as [|v0 vs] eqn:EV; [eexists; reflexivity|].
    apply G; [discriminate|exact V].
  - destruct (negb (VO._eq (version va) (version vb))); [eexists; reflexivity|].
    apply G; [discriminate|exact L].
Qed.

(** ** Parsing, by the texts of a normalized string *)

Ltac case_mapM V :=
  match goal with
  | |- context [bind (mapM ?f ?l) _] =>
      destruct (mapM f l) eqn:V; cbn [bind]; [|discriminate]
  end.

Lemma parse_norm_sections : forall message n v,
  VO.parse_norm message n = Ok v ->
  exists e m l,
    sections n = Some (e, m, l) /\
    mapM (VO.parse_component message) (e :: components m) = Ok (version v) /\
    mapM (VO.parse_component message) (local_components l) = Ok (local v) /\
    norm_version v = n.
Proof.
  intros message n v. unfold VO.parse_norm, sections, cut_local.
  destruct (Py.split "!" n) as [|p0 [|p1 [|p2 ps]]]; cbn [bind last hd];
    try discriminate.
  - destruct (Py.split "+" p0) as [|q0 [|q1 [|q2 qs]]]; cbn [bind last hd];
      try discriminate.
    + case_mapM V. cbn [mapM bind].
      intro H. injection H as <-. exists ["0"%char], q0, None.
      repeat split; assumption || reflexivity.
    + case_mapM V. case_mapM L.
      intro H. injection H as <-. exists ["0"%char], q0, (Some q1).
      repeat split; assumption || reflexivity.
  - destruct (Py.isdigit p0); cbn [bind]; [|discriminate].
    destruct (Py.split "+" p1) as [|q0 [|q1 [|q2 qs]]]; cbn [bind last hd];
      try discriminate.
    + case_mapM V. cbn [mapM bind].
      intro H. injection H as <-. exists p0, q0, None.
      repeat split; assumption || reflexivity.
    + case_mapM V. case_mapM L.
      intro H. injection H as <-. exists p0, q0, (Some q1).
      repeat split; assumption || reflexivity.
Qed.

Ltac use_mapM V :=
  match type of V with
  | _ = ?r =>
      match goal with
      | |- context [bind (mapM ?f ?l) _] =>
          replace (mapM f l) with r by (symmetry; exact V)
      end
  end; cbn [bind].

Lemma sections_parse_norm : forall message n e m l ver loc,
  sections n = Some (e, m, l) ->
  mapM (VO.parse_component message) (e :: components m) = Ok ver ->
  mapM (VO.parse_component message) (local_components l) = Ok loc ->
  VO.parse_norm message n = Ok (mkVersionOrder n ver loc).
Proof.
  intros message n e m l ver loc. unfold VO.parse_norm, sections, cut_local.
  destruct (Py.split "!" n) as [|p0 [|p1 [|p2 ps]]]; cbn [bind last hd];
    try discriminate.
  - destruct (Py.split "+" p0) as [|q0 [|q1 [|q2 qs]]]; cbn [bind last hd];
      try discriminate; intro H; injection H as <- <- <-; intros V L;
      unfold components, local_components in *;
      use_mapM V; use_mapM L; reflexivity.
  - destruct (Py.isdigit p0); cbn [bind]; [|discriminate].
    destruct (Py.split "+" p1) as [|q0 [|q1 [|q2 qs]]]; cbn [bind last hd];
      try discriminate; intro H; injection H as <- <- <-; intros V L;
      unfold components, local_components in *;
      use_mapM V; use_mapM L; reflexivity.
Qed.

(** ** Text added at the end of a normalized string *)

Lemma split_nosep : forall sep b, Py.contains sep b = false -> Py.split sep b = [b].
Proof.
  intros sep. induction b as [|c b IH]; [reflexivity|]. simpl.
  destruct (c =? sep)%char; [discriminate|]. simpl. intro H.
  rewrite (IH H). reflexivity.
Qed.

Lemma split_app_nosep : forall sep a b,
  Py.contains sep b = false ->
  Py.split sep (a ++ b) =
  removelast (Py.split sep a) ++ [last (Py.split sep a) [] ++ b].
Proof.
  intros sep a b N. induction a as [|c a IH].
  - simpl. apply split_nosep. exact N.
  - pose proof (split_nonempty sep a) as S.
    change ((c :: a) ++ b) with (c :: (a ++ b)).
    cbn [Py.split]. rewrite IH.
    destruct (c =? sep)%char.
    + destruct (Py.split sep a) as [|q qs]; [congruence|]. reflexivity.
    + destruct (Py.split sep a) as [|q [|q' qs]]; [congruence| |]; reflexivity.
Qed.

Lemma split_app_sep : forall sep a b,
  Py.split sep (a ++ sep :: b) = Py.split sep a ++ Py.split sep b.
Proof.
  intros sep a b. induction a as [|c a IH].
  - simpl. rewrite Ascii.eqb_refl. reflexivity.
  - pose proof (split_nonempty sep a) as S.
    change ((c :: a) ++ sep :: b) with (c :: (a ++ sep :: b)).
    cbn [Py.split]. rewrite IH.
    destruct (c =? sep)%char; [reflexivity|].
    destruct (Py.split sep a) as [|q qs]; [congruence|]. reflexivity.
Qed.

Lemma replace_app : forall a r x y,
  Py.replace a r (x ++ y) = Py.replace a r x ++ Py.replace a r y.
Proof. intros a r x y. unfold Py.replace. apply flat_map_app. Qed.

Lemma replace_absent : forall a r x, Py.contains a x = false -> Py.replace a r x = x.
Proof.
  intros a r. induction x as [|c x IH]; [reflexivity|].
  unfold Py.replace, Py.contains in *. simpl.
  destruct (c =? a)%char; [discriminate|]. simpl. intro H. rewrite (IH H). reflexivity.
Qed.

Lemma contains_app : forall a x y,
  Py.contains a (x ++ y) = Py.contains a x || Py.contains a y.
Proof. intros a x y. unfold Py.contains. apply existsb_app. Qed.

Lemma sections_append : forall n t e m l,
  sections n = Some (e, m, l) ->
  Py.contains "!" t = false -> Py.contains "+" t = false ->
  sections (n ++ t) =
  Some (e, match l with None => m ++ t | Some _ => m end,
        option_map (fun l => l ++ t) l).
Proof.
  intros n t e m l S N1 N2.
  assert (C : forall x b, cut_local x b = Some (e, m, l) ->
              cut_local x (b ++ t) =
              Some (e, match l with None => m ++ t | Some _ => m end,
                    option_map (fun l => l ++ t) l)).
  { intros x b. unfold cut_local. rewrite (split_app_nosep "+" b t N2).
    destruct (Py.split "+" b) as [|q0 [|q1 [|q2 qs]]]; try discriminate;
      intro H; injection H as <- <- <-; reflexivity. }
  revert S. unfold sections. rewrite (split_app_nosep "!" n t N1).
  destruct (Py.split "!" n) as [|p0 [|p1 [|p2 ps]]]; try discriminate.
  - apply C.
  - cbn [removelast last app]. destruct (Py.isdigit p0); [apply C|discriminate].
Qed.

Lemma components_app_component : forall y x,
  Py.contains "." x = false -> Py.contains "_" x = false ->
  components (y ++ "." ++ x) = components y ++ [x].
Proof.
  intros y x N1 N2. unfold components.
  rewrite replace_app. change (list_ascii_of_string ".") with ["."%char].
  change (["."%char] ++ x) with ("."%char :: x).
  assert (R : Py.replace "_" ["."%char] ("."%char :: x) = "."%char :: x).
  { apply replace_absent. simpl. exact N2. }
  rewrite R, split_app_sep, (split_nosep "." x N1). reflexivity.
Qed.

Lemma components_app_text : forall y w,
  Py.contains "." w = false -> Py.contains "_" w = false ->
  components (y ++ w) =
  removelast (components y) ++ [last (components y) [] ++ w].
Proof.
  intros y w N1 N2. unfold components.
  rewrite replace_app, (replace_absent "_" "." w N2).
  apply split_app_nosep. exact N1.
Qed.

Lemma mapM_app : forall (A B : Type) (f : A -> result B) l1 l2 r1 r2,
  mapM f l1 = Ok r1 -> mapM f l2 = Ok r2 -> mapM f (l1 ++ l2) = Ok (r1 ++ r2).
Proof.
  intros A B f. induction l1 as [|a l1 IH]; intros l2 r1 r2; simpl.
  - intro H. injection H as <-. trivial.
  - destruct (f a); cbn [bind]; [|discriminate].
    destruct (mapM f l1) as [r|] eqn:M; cbn [bind]; [|discriminate].
    intro H. injection H as <-. intro H2. rewrite (IH l2 r r2 eq_refl H2). reflexivity.
Qed.

Lemma mapM_app_inv : forall (A B : Type) (f : A -> result B) l1 l2 r,
  mapM f (l1 ++ l2) = Ok r ->
  exists r1 r2, mapM f l1 = Ok r1 /\ mapM f l2 = Ok r2 /\ r = r1 ++ r2.
Proof.
  intros A B f. induction l1 as [|a l1 IH]; intros l2 r; simpl.
  - intro H. exists [], r. repeat split. exact H.
  - destruct (f a) as [b|]; cbn [bind]; [|discriminate].
    destruct (mapM f (l1 ++ l2)) as [r'|] eqn:M; cbn [bind]; [|discriminate].
    intro H. injection H as <-. destruct (IH l2 r' M) as [r1 [r2 [H1 [H2 ->]]]].
    exists (b :: r1), r2. rewrite H1. repeat split. exact H2.
Qed.

Lemma mapM_last : forall (A B : Type) (f : A -> result B) l r (da : A),
  l <> [] -> mapM f l = Ok r ->
  exists r0 b,
    mapM f (removelast l) = Ok r0 /\ f (last l da) = Ok b /\ r = r0 ++ [b].
Proof.
  intros A B f l r da N H.
  rewrite (app_removelast_last da N) in H.
  destruct (mapM_app_inv _ _ f _ _ _ H) as [r1 [r2 [H1 [H2 ->]]]].
  simpl in H2. destruct (f (last l da)) as [b|]; cbn [bind] in H2; [|discriminate].
  injection H2 as <-. exists r1, b. repeat split. exact H1.
Qed.

Lemma comp_char_facts : forall c,
  comp_char c = true ->
  VO.valid_char c = true /\ (c =? "!")%char = false /\ (c =? "+")%char = false /\
  (c =? ".")%char = false /\ (c =? "_")%char = false.
Proof.
  intros c. destruct c as [[] [] [] [] [] [] [] []]; vm_compute; intro H;
    try discriminate H; repeat split.
Qed.

Lemma letter_facts : forall c,
  letter c = true ->
  comp_char c = true /\ VO.cls_of c = VO.COther /\ Py.isdigit_char c = false.
Proof.
  intros c. destruct c as [[] [] [] [] [] [] [] []]; vm_compute; intro H;
    try discriminate H; repeat split.
Qed.

Lemma comp_chars_facts : forall x,
  forallb comp_char x = true ->
  forallb VO.valid_char x = true /\ Py.contains "!" x = false /\
  Py.contains "+" x = false /\ Py.contains "." x = false /\ Py.contains "_" x = false.
Proof.
  induction x as [|c x IH]; [repeat split|]. simpl. intro H.
  apply andb_true_iff in H. destruct H as [H1 H2].
  destruct (comp_char_facts c H1) as [A [B [C [D E]]]].
  destruct (IH H2) as [A' [B' [C' [D' E']]]].
  unfold Py.contains in *. simpl. rewrite A, A', B, B', C, C', D, D', E, E'.
  repeat split.
Qed.

Lemma letters_comp : forall w, forallb letter w = true -> forallb comp_char w = true.
Proof.
  intros w H. rewrite forallb_forall in *. intros c I.
  apply (letter_facts c (H c I)).
Qed.

Lemma findall_runs_cons : forall c r,
  VO.findall_runs (c :: r) =
  match VO.findall_runs r with
  | (d :: p) :: ps =>
      if VO.cls_eqb (VO.cls_of c) (VO.cls_of d) then (c :: d :: p) :: ps
      else [c] :: (d :: p) :: ps
  | _ => [[c]]
  end.
Proof. reflexivity. Qed.

Lemma findall_uniform : forall w c,
  forallb (fun d => VO.cls_eqb (VO.cls_of c) (VO.cls_of d)) w = true ->
  VO.findall_runs (c :: w) = [c :: w].
Proof.
  induction w as [|d w IH]; intros c H; [reflexivity|].
  simpl in H. apply andb_true_iff in H. destruct H as [H1 H2].
  rewrite findall_runs_cons, IH.
  - rewrite H1. reflexivity.
  - apply cls_eqb_eq in H1. rewrite <- H1. exact H2.
Qed.

Lemma findall_letters : forall w,
  w <> [] -> forallb letter w = true -> VO.findall_runs w = [w].
Proof.
  intros [|c w] N H; [congruence|]. apply findall_uniform.
  simpl in H. apply andb_true_iff in H. destruct H as [H1 H2].
  rewrite forallb_forall in *. intros d I. apply cls_eqb_eq.
  rewrite (proj1 (proj2 (letter_facts c H1))).
  rewrite (proj1 (proj2 (letter_facts d (H2 d I)))). reflexivity.
Qed.

Lemma findall_runs_app : forall p d w,
  Py.isdigit_char d = true -> w <> [] -> forallb letter w = true ->
  VO.findall_runs ((p ++ [d]) ++ w) = VO.findall_runs (p ++ [d]) ++ [w].
Proof.
  intros p d w D N L. induction p as [|c p IH].
  - change (([] ++ [d]) ++ w) with (d :: w).
    rewrite findall_runs_cons, (findall_letters w N L).
    destruct w as [|w0 w']; [congruence|].
    simpl in L. apply andb_true_iff in L.
    rewrite (proj1 (isdigit_cls d) D).
    rewrite (proj1 (proj2 (letter_facts w0 (proj1 L)))). reflexivity.
  - change (((c :: p) ++ [d]) ++ w) with (c :: ((p ++ [d]) ++ w)).
    change ((c :: p) ++ [d]) with (c :: (p ++ [d])).
    rewrite !findall_runs_cons, IH.
    destruct (p ++ [d]) as [|h r] eqn:E; [destruct p; discriminate|].
    destruct (findall_runs_head r h) as [q [ps [F _]]]. rewrite F.
    cbn [app]. destruct (VO.cls_eqb (VO.cls_of c) (VO.cls_of h)); reflexivity.
Qed.

Lemma ends_digit_snoc : forall s,
  ends_digit s = true -> exists p d, s = p ++ [d] /\ Py.isdigit_char d = true.
Proof.
  intros s. unfold ends_digit. destruct (rev s) as [|d r] eqn:E; [discriminate|].
  intro D. exists (rev r), d. split; [|exact D].
  rewrite <- (rev_involutive s), E. reflexivity.
Qed.

Lemma run_length : forall s r, In r (VO.findall_runs s) -> length r <= length s.
Proof.
  induction s as [|c s IH]; intros r; [intros []|].
  rewrite findall_runs_cons.
  destruct (VO.findall_runs s) as [|[|d p] ps].
  - intros [<-|[]]. simpl. lia.
  - intros [<-|[]]. simpl. lia.
  - destruct (VO.cls_eqb _ _).
    + intros [<-|I].
      * specialize (IH (d :: p) (or_introl eq_refl)). simpl in *. lia.
      * specialize (IH r (or_intror I)). simpl. lia.
    + intros [<-|I]; [simpl; lia|].
      specialize (IH r I). simpl. lia.
Qed.

Lemma convert_run_short : forall r,
  (N.of_nat (length r) <=? Py.int_max_str_digits)%N = true ->
  exists t, VO.convert_run r = Ok t.
Proof.
  intros r L. unfold VO.convert_run, Py.int. apply N.leb_le in L.
  destruct (N.ltb_spec Py.int_max_str_digits (N.of_nat (length r))); [lia|].
  destruct (Py.isdigit r); [eexists; reflexivity|].
  destruct (Py.eqb r "post"); [eexists; reflexivity|].
  destruct (Py.eqb r "dev"); eexists; reflexivity.
Qed.

Lemma convert_runs_short : forall l,
  (forall r, In r l -> (N.of_nat (length r) <=? Py.int_max_str_digits)%N = true) ->
  exists ts, mapM VO.convert_run l = Ok ts.
Proof.
  induction l as [|r l IH]; intro H; [eexists; reflexivity|].
  destruct (convert_run_short r (H r (or_introl eq_refl))) as [t T].
  destruct (IH (fun x I => H x (or_intror I))) as [ts Ts].
  exists (t :: ts). cbn [mapM]. rewrite T. cbn [bind]. rewrite Ts. reflexivity.
Qed.

Lemma parse_component_total : forall message x,
  x <> [] -> (N.of_nat (length x) <=? Py.int_max_str_digits)%N = true ->
  exists c, VO.parse_component message x = Ok c.
Proof.
  intros message [|c0 r] N L; [congruence|]. unfold VO.parse_component.
  destruct (convert_runs_short (VO.findall_runs (c0 :: r))) as [ts T].
  { intros x I. apply run_length in I. apply N.leb_le. apply N.leb_le in L. lia. }
  destruct (findall_runs_head r c0) as [p [ps [E _]]]. rewrite E in *.
  match goal with
  | |- context [bind ?x _] => replace x with (Ok ts) by (symmetry; exact T)
  end.
  cbn [bind]. destruct (Py.isdigit_char c0); eexists; reflexivity.
Qed.

Lemma parse_component_runs : forall message p c,
  VO.parse_component message p = Ok c ->
  exists h r ts,
    p = h :: r /\ mapM VO.convert_run (VO.findall_runs p) = Ok ts /\
    c = if Py.isdigit_char h then ts else fillvalue :: ts.
Proof.
  intros message p c. unfold VO.parse_component.
  destruct (VO.findall_runs p) as [|x xs] eqn:F; [discriminate|].
  destruct (mapM _ _) as [ts|] eqn:M; cbn [bind]; [|discriminate].
  destruct p as [|h r]; [discriminate|].
  intro H. exists h, r, ts. split; [reflexivity|]. split; [reflexivity|].
  destruct (Py.isdigit_char h); injection H as <-; reflexivity.
Qed.

Lemma parse_component_letters : forall message p w c t,
  ends_digit p = true -> w <> [] -> forallb letter w = true ->
  VO.convert_run w = Ok t ->
  VO.parse_component message p = Ok c ->
  VO.parse_component message (p ++ w) = Ok (c ++ [t]).
Proof.
  intros message p w c t E N L T H.
  destruct (parse_component_runs message p c H) as [h [r [ts [K [M ->]]]]].
  destruct (ends_digit_snoc p E) as [p0 [d [P D]]].
  unfold VO.parse_component. rewrite P in *.
  rewrite (findall_runs_app p0 d w D N L).
  assert (M' : mapM VO.convert_run (VO.findall_runs (p0 ++ [d]) ++ [w]) = Ok (ts ++ [t])).
  { apply mapM_app; [exact M|]. cbn [mapM]. rewrite T. reflexivity. }
  destruct (VO.findall_runs (p0 ++ [d]) ++ [w]) as [|x xs] eqn:F.
  { destruct (VO.findall_runs (p0 ++ [d])); discriminate F. }
  match goal with
  | |- context [bind ?x _] => replace x with (Ok (ts ++ [t])) by (symmetry; exact M')
  end.
  cbn [bind]. rewrite K. cbn [app].
  destruct (Py.isdigit_char h); reflexivity.
Qed.

Lemma new_append : forall s v t,
  VO.new s = Ok v ->
  forallb VO.valid_char t = true ->
  Py.contains "!" t = false -> Py.contains "+" t = false ->
  exists message e m l,
    sections (VO.str v) = Some (e, m, l) /\
    mapM (VO.parse_component message) (e :: components m) = Ok (version v) /\
    mapM (VO.parse_component message) (local_components l) = Ok (local v) /\
    forall ver loc,
      mapM (VO.parse_component message)
           (e :: components (match l with None => m ++ t | Some _ => m end)) = Ok ver ->
      mapM (VO.parse_component message)
           (local_components (option_map (fun l => l ++ t) l)) = Ok loc ->
      VO.new (VO.str v ++ t) = Ok (mkVersionOrder (VO.str v ++ t) ver loc).
Proof.
  intros s v t H T N1 N2. unfold VO.new in H.
  destruct (VO.normalize _ s) as [n|] eqn:N; cbn [bind] in H; [|discriminate].
  destruct (normalize_valid _ _ _ N) as [V1 V2].
  set (message := "Malformed version string '" ++ (n ++ t) ++ "': ").
  destruct (parse_norm_message _ message _ _ H) as [P S].
  destruct (parse_norm_sections _ _ _ P) as [e [m [l [A [B [C _]]]]]].
  unfold VO.str. rewrite S.
  exists message, e, m, l. repeat split; try assumption.
  intros ver loc Hv Hl. unfold VO.new. fold message.
  rewrite normalize_fixed.
  - cbn [bind]. apply (sections_parse_norm message (n ++ t) e _ _ ver loc
                         (sections_append n t e m l A N1 N2) Hv Hl).
  - destruct n; [congruence|discriminate].
  - rewrite forallb_app, V2, T. reflexivity.
Qed.

Lemma padded_app_same :
  forall (A : Type) (fill : A) (step : A * A -> option bool),
    weak_order step ->
    forall l a b, padded fill step (l ++ a, l ++ b) = padded fill step (a, b).
Proof.
  intros A fill step W. induction l as [|x l IH]; intros a b; [reflexivity|].
  rewrite (padded_unfold fill W). cbn [hd tl app].
  rewrite (wo_refl W). apply IH.
Qed.

Lemma lt_part_prefix : forall r a b,
  VO.lt_part (r ++ a, r ++ b) = VO.lt_part (a, b).
Proof. exact (padded_app_same _ [] _ lt_component_weak_order). Qed.

Lemma lt_component_prefix : forall c a b,
  VO.lt_component (c ++ a, c ++ b) = VO.lt_component (a, b).
Proof. exact (padded_app_same _ fillvalue _ lt_step_weak_order). Qed.

Lemma lt_part_refl : forall r, VO.lt_part (r, r) = None.
Proof. exact (wo_refl lt_part_weak_order). Qed.

Lemma _eq_refl : forall r, VO._eq r r = true.
Proof. intro r. apply _eq_lt_part, lt_part_refl. Qed.

Lemma startswith_refl : forall s, Py.startswith s s = true.
Proof.
  induction s as [|c s IH]; [reflexivity|]. simpl.
  rewrite Ascii.eqb_refl. exact IH.
Qed.

Lemma nth_last : forall (A : Type) (l : list A) (d : A),
  nth (length l - 1) l d = last l d.
Proof.
  intros A. induction l as [|a l IH]; intro d; [reflexivity|].
  destruct l as [|b l]; [reflexivity|].
  specialize (IH d). simpl in *. rewrite Nat.sub_0_r in IH. exact IH.
Qed.

Lemma firstn_app_short : forall (A : Type) (l ext : list A),
  firstn (length l - 1) (l ++ ext) = firstn (length l - 1) l.
Proof.
  intros A l ext. rewrite firstn_app.
  replace (length l - 1 - length l) with 0 by lia.
  rewrite firstn_O, app_nil_r. reflexivity.
Qed.

Lemma prefix_test_extended : forall t2 ext,
  t2 <> [] -> forallb component_ok t2 = true ->
  prefix_test (t2 ++ ext) t2 = Ok true.
Proof.
  intros t2 ext N F. unfold prefix_test. cbv zeta.
  rewrite firstn_app_short, _eq_refl. cbn [negb].
  assert (K : nth (length t2 - 1) (t2 ++ ext) [] = last t2 []).
  { rewrite app_nth1; [apply nth_last|]. destruct t2; [congruence|simpl; lia]. }
  rewrite K.
  assert (C : component_ok (last t2 []) = true).
  { rewrite forallb_forall in F. apply F, last_in. exact N. }
  destruct (last t2 []) as [|t0 v2] eqn:E; [discriminate|].
  rewrite _eq_refl. cbn [negb]. rewrite nth_last.
  destruct (last (t0 :: v2) fillvalue).
  - rewrite token_eqb_refl. reflexivity.
  - rewrite startswith_refl. reflexivity.
  - reflexivity.
Qed.

Lemma startswith_prefix_test : forall self other,
  VO.startswith self other =
  match local other, version other with
  | _ :: _, _ =>
      if negb (VO._eq (version self) (version other)) then Ok false
      else prefix_test (local self) (local other)
  | [], _ :: _ => prefix_test (version self) (version other)
  | [], [] => Ok true
  end.
Proof. reflexivity. Qed.

Lemma components_nonempty : forall y, components y <> [].
Proof. intro y. apply split_nonempty. Qed.

Lemma local_empty : forall message loc,
  mapM (VO.parse_component message) (local_components None) = Ok loc -> loc = [].
Proof. intros message loc H. simpl in H. injection H as <-. reflexivity. Qed.

Lemma mapM_nonempty : forall message l r,
  l <> [] -> mapM (VO.parse_component message) l = Ok r -> r <> [].
Proof.
  intros message l r N H. destruct (mapM_parse_ok _ _ _ H) as [_ L].
  destruct r; [destruct l; [congruence|discriminate]|discriminate].
Qed.

Lemma new_trailing_zero : forall (s : pystr) (v : VersionOrder),
  VO.new s = Ok v ->
  exists v', VO.new (VO.str v ++ ".0") = Ok v' /\ VO.eq v v' = true.
Proof.
  intros s v H.
  destruct (new_append s v ".0" H eq_refl eq_refl eq_refl)
    as [message [e [m [l [A [B [C K]]]]]]].
  assert (Z : VO.parse_component message "0" = Ok [TInt 0]) by reflexivity.
  assert (Z' : mapM (VO.parse_component message) [("0" : pystr)] = Ok [[TInt 0]])
    by reflexivity.
  assert (Q : forall r, VO._eq r (r ++ [[TInt 0]]) = true).
  { intro r. apply _eq_lt_part. rewrite <- (app_nil_r r) at 1.
    rewrite lt_part_prefix. reflexivity. }
  destruct l as [l0|].
  - specialize (K (version v) (local v ++ [[TInt 0]]) B).
    eexists. split.
    + apply K. cbn [local_components option_map].
      change (list_ascii_of_string ".0") with ("." ++ "0": pystr).
      rewrite components_app_component by reflexivity.
      apply mapM_app; [exact C|exact Z'].
    + unfold VO.eq. cbn [version local]. rewrite _eq_refl, Q. reflexivity.
  - specialize (K (version v ++ [[TInt 0]]) []).
    eexists. split.
    + apply K; [|reflexivity].
      change (list_ascii_of_string ".0") with ("." ++ "0": pystr).
      rewrite components_app_component by reflexivity.
      apply (mapM_app _ _ _ (e :: components m) [("0" : pystr)]); [exact B|exact Z'].
    + unfold VO.eq. cbn [version local]. rewrite Q.
      rewrite (local_empty _ _ C). reflexivity.
Qed.


Lemma startswith_appended : forall (s : pystr) (v : VersionOrder),
  VO.new s = Ok v ->
  VO.startswith v v = Ok true /\
  forall x : pystr,
    x <> [] -> forallb comp_char x = true -> fits_int x = true ->
    exists v', VO.new (VO.str v ++ "." ++ x) = Ok v' /\
               VO.startswith v' v = Ok true.
Proof.
  intros s v H.
  destruct (new_components_ok s v H) as [S1 [S2 S3]].
  assert (NV : version v <> []) by (destruct (version v); [simpl in S3; lia|discriminate]).
  assert (R : forall va,
             (local v = [] /\ exists ext, version va = version v ++ ext) \/
             (local v <> [] /\ version va = version v /\
              exists ext, local va = local v ++ ext) ->
             VO.startswith va v = Ok true).
  { intros va D. rewrite startswith_prefix_test.
    destruct D as [[L [ext E]] | [L [E1 [ext E2]]]].
    - rewrite L. destruct (version v) as [|v0 vs] eqn:EV; [congruence|].
      rewrite E. apply prefix_test_extended; [discriminate|exact S1].
    - destruct (local v) as [|l0 ls] eqn:EL; [congruence|].
      rewrite E1, _eq_refl. cbn [negb]. rewrite E2.
      apply prefix_test_extended; [discriminate|exact S2]. }
  split.
  { apply R. destruct (local v) as [|l0 ls] eqn:EL.
    - left. split; [reflexivity|]. exists []. rewrite app_nil_r. reflexivity.
    - right. split; [discriminate|]. split; [reflexivity|].
      exists []. rewrite app_nil_r. reflexivity. }
  intros x NX CX FX.
  destruct (comp_chars_facts x CX) as [F1 [F2 [F3 [F4 F5]]]].
  change (list_ascii_of_string ".") with ["."%char].
  destruct (new_append s v ("."%char :: x) H) as [message [e [m [l [A [B [C K]]]]]]];
    [simpl; exact F1|simpl; exact F2|simpl; exact F3|].
  destruct (parse_component_total message x NX FX) as [c PC].
  assert (PC' : mapM (VO.parse_component message) [x] = Ok [c]).
  { simpl. rewrite PC. reflexivity. }
  assert (CA : forall y, components (y ++ "."%char :: x) = components y ++ [x]).
  { intro y. apply (components_app_component y x F4 F5). }
  destruct l as [l0|].
  - specialize (K (version v) (local v ++ [c]) B).
    eexists. split.
    + apply K. cbn [local_components option_map].
      rewrite CA.
      apply mapM_app; [exact C|exact PC'].
    + apply R. right. cbn [version local]. split; [|split; [reflexivity|]].
      * apply (mapM_nonempty message (components l0)); [apply components_nonempty|].
        exact C.
      * exists [c]. reflexivity.
  - specialize (K (version v ++ [c]) []).
    eexists. split.
    + apply K; [|reflexivity].
      rewrite CA.
      apply (mapM_app _ _ _ (e :: components m) [x]); [exact B|exact PC'].
    + apply R. left. cbn [version local]. split.
      * apply (local_empty _ _ C).
      * exists [c]. reflexivity.
Qed.

(** X4: [startswith] holds between a version and itself, and between
    the version and every version that adds one more component to its
    text, where the added component has no character that separates
    components and is at most 4300 characters long, the length up to
    which [int] converts every run of digits. *)
Theorem startswith_extension : forall (s : pystr) (v : VersionOrder),
  VO.new s = Ok v ->
  VO.startswith v v = Ok true /\
  forall x : pystr,
    x <> [] -> forallb comp_char x = true -> fits_int x = true ->
    exists v', VO.new (VO.str v ++ "." ++ x) = Ok v' /\
               VO.startswith v' v = Ok true.
Proof. exact startswith_appended. Qed.

Lemma startswith_extension_witness :
  VO.new "1.7" = Ok (parsed "1.7") /\
  VO.startswith (parsed "1.7") (parsed "1.7") = Ok true /\
  exists v', VO.new "1.7.1rc" = Ok v' /\
             VO.startswith v' (parsed "1.7") = Ok true.
Proof.
  split; [vm_compute; reflexivity|].
  destruct (startswith_extension "1.7" (parsed "1.7") eq_refl) as [A B].
  split; [exact A|].
  apply (B (list_ascii_of_string "1rc")); [discriminate|reflexivity|reflexivity].
Defined.

(** ** Letters after a number *)

Lemma ends_digit_snoc_eq : forall x d, ends_digit (x ++ [d]) = Py.isdigit_char d.
Proof. intros x d. unfold ends_digit. rewrite rev_unit. reflexivity. Qed.

Lemma ends_digit_last_split : forall sep s,
  Py.isdigit_char sep = false -> ends_digit s = true ->
  ends_digit (last (Py.split sep s) []) = true.
Proof.
  intros sep s NS E. destruct (ends_digit_snoc s E) as [p [d [-> D]]].
  rewrite split_app_nosep.
  - rewrite last_last, ends_digit_snoc_eq. exact D.
  - simpl. destruct (d =? sep)%char eqn:K; [|reflexivity].
    apply Ascii.eqb_eq in K. congruence.
Qed.

Lemma ends_digit_replace : forall s,
  ends_digit s = true -> ends_digit (Py.replace "_" "." s) = true.
Proof.
  intros s E. destruct (ends_digit_snoc s E) as [p [d [-> D]]].
  rewrite replace_app.
  assert (R : Py.replace "_" "." [d] = [d]).
  { apply replace_absent. simpl. destruct (d =? "_")%char eqn:K; [|reflexivity].
    apply Ascii.eqb_eq in K. subst d. discriminate D. }
  rewrite R, ends_digit_snoc_eq. exact D.
Qed.

Lemma components_ends_digit : forall y,
  ends_digit y = true -> ends_digit (last (components y) []) = true.
Proof.
  intros y E. unfold components.
  apply ends_digit_last_split; [reflexivity|]. apply ends_digit_replace. exact E.
Qed.

Lemma sections_ends_digit : forall n e m l,
  sections n = Some (e, m, l) -> ends_digit n = true ->
  ends_digit (match l with None => m | Some l0 => l0 end) = true.
Proof.
  intros n e m l S E.
  pose proof (ends_digit_last_split "!" n eq_refl E) as E1.
  assert (C : forall x b, cut_local x b = Some (e, m, l) -> ends_digit b = true ->
              ends_digit (match l with None => m | Some l0 => l0 end) = true).
  { intros x b. unfold cut_local. intros H Eb.
    pose proof (ends_digit_last_split "+" b eq_refl Eb) as E2.
    destruct (Py.split "+" b) as [|q0 [|q1 [|q2 qs]]]; try discriminate;
      injection H as <- <- <-; exact E2. }
  revert S. unfold sections.
  destruct (Py.split "!" n) as [|p0 [|p1 [|p2 ps]]]; try discriminate.
  - intro H. exact (C _ _ H E1).
  - destruct (Py.isdigit p0); [|discriminate]. intro H. exact (C _ _ H E1).
Qed.

Lemma convert_letters : forall w,
  w <> [] -> forallb letter w = true ->
  exists t, VO.convert_run w = Ok t /\
            VO.lt_step (t, fillvalue) = Some (negb (Py.eqb w "post")).
Proof.
  intros [|c w] N L; [congruence|]. unfold VO.convert_run.
  simpl in L. apply andb_true_iff in L.
  assert (D : Py.isdigit (c :: w) = false).
  { simpl. rewrite (proj2 (proj2 (letter_facts c (proj1 L)))). reflexivity. }
  rewrite D. destruct (Py.eqb (c :: w) "post"); [eexists; split; reflexivity|].
  destruct (Py.eqb (c :: w) "dev"); eexists; split; reflexivity.
Qed.

Lemma parse_last_letters : forall message L r w t,
  L <> [] -> ends_digit (last L []) = true ->
  w <> [] -> forallb letter w = true ->
  VO.convert_run w = Ok t ->
  mapM (VO.parse_component message) L = Ok r ->
  exists r0 b,
    r = r0 ++ [b] /\
    mapM (VO.parse_component message) (removelast L ++ [last L [] ++ w]) =
    Ok (r0 ++ [b ++ [t]]).
Proof.
  intros message L r w t N E NW LW T H.
  destruct (mapM_last _ _ _ L r [] N H) as [r0 [b [H1 [H2 ->]]]].
  exists r0, b. split; [reflexivity|].
  apply mapM_app; [exact H1|]. simpl.
  rewrite (parse_component_letters message _ w b t E NW LW T H2). reflexivity.
Qed.

Lemma lt_part_last : forall r0 b tok,
  VO.lt_part (r0 ++ [b ++ [tok]], r0 ++ [b]) =
  match VO.lt_step (tok, fillvalue) with
  | Some z => Some z
  | None => None
  end.
Proof.
  intros r0 b tok. rewrite lt_part_prefix.
  change (VO.lt_part ([b ++ [tok]], [b])) with
    (match VO.lt_component (b ++ [tok], b) with Some z => Some z | None => None end).
  rewrite <- (app_nil_r b) at 2. rewrite lt_component_prefix.
  change (VO.lt_component ([tok], [])) with
    (match VO.lt_step (tok, fillvalue) with Some z => Some z | None => None end).
  destruct (VO.lt_step (tok, fillvalue)); reflexivity.
Qed.

(** X5: letters written after a version that ends in a number give a
    valid version that is below it, for every run of lower-case letters
    but [post], which gives a version above it. *)
Theorem letters_after_number : forall (s : pystr) (v : VersionOrder),
  VO.new s = Ok v ->
  ends_digit (VO.str v) = true ->
  forall w : pystr,
    w <> [] -> forallb letter w = true ->
    exists v', VO.new (VO.str v ++ w) = Ok v' /\
               if Py.eqb w "post" then VO.lt v v' = true else VO.lt v' v = true.
Proof.
  intros s v H E w NW LW.
  destruct (comp_chars_facts w (letters_comp w LW)) as [F1 [F2 [F3 [F4 F5]]]].
  destruct (new_append s v w H F1 F2 F3) as [message [e [m [l [A [B [C K]]]]]]].
  pose proof (sections_ends_digit _ _ _ _ A E) as ED.
  destruct (convert_letters w NW LW) as [t [CT T]].
  assert (Fin : forall v', VO_cmp v' v = Some (negb (Py.eqb w "post")) ->
                if Py.eqb w "post" then VO.lt v v' = true else VO.lt v' v = true).
  { intros v' Cm. destruct (Py.eqb w "post"); apply lt_cmp.
    - rewrite VO_cmp_flip, Cm. reflexivity.
    - exact Cm. }
  destruct l as [l0|].
  - destruct (parse_last_letters message (components l0) (local v) w t
                (components_nonempty l0) (components_ends_digit l0 ED) NW LW CT C)
      as [r0 [b [EL P]]].
    specialize (K (version v) (r0 ++ [b ++ [t]]) B).
    eexists. split.
    + apply K. cbn [local_components option_map].
      rewrite (components_app_text l0 w F4 F5). exact P.
    + apply Fin. rewrite VO_cmp_unfold. cbn [version local].
      rewrite lt_part_refl, EL, lt_part_last, T. reflexivity.
  - destruct (parse_last_letters message (e :: components m) (version v) w t)
      as [r0 [b [EL P]]]; try assumption; [discriminate| |].
    { pose proof (components_nonempty m) as NC.
      pose proof (components_ends_digit m ED) as EC.
      destruct (components m); [congruence|exact EC]. }
    specialize (K (r0 ++ [b ++ [t]]) []).
    eexists. split.
    + apply K; [|reflexivity].
      rewrite (components_app_text m w F4 F5).
      pose proof (components_nonempty m) as NC.
      destruct (components m) as [|c0 cs]; [congruence|exact P].
    + apply Fin. rewrite VO_cmp_unfold. cbn [version local].
      rewrite EL, lt_part_last, T. reflexivity.
Qed.

Lemma letters_after_number_witness :
  (VO.new "1.1" = Ok (parsed "1.1") /\ ends_digit (VO.str (parsed "1.1")) = true /\
   ("rc" : pystr) <> [] /\ forallb letter "rc" = true) /\
  exists v', VO.new (VO.str (parsed "1.1") ++ "rc") = Ok v' /\
             if Py.eqb "rc" "post" then VO.lt (parsed "1.1") v' = true
             else VO.lt v' (parsed "1.1") = true.
Proof.
  split.
  - repeat split; try (vm_compute; reflexivity). discriminate.
  - apply (letters_after_number "1.1" (parsed "1.1")).
    + vm_compute. reflexivity.
    + vm_compute. reflexivity.
    + discriminate.
    + vm_compute. reflexivity.
Defined.

(** ** Calls with the memo table *)

Lemma convert_ok : forall message l r,
  mapM (VO.parse_component message) l = Ok r ->
  Cache.convert message l = (map Cache.Runs r, None).
Proof.
  intros message. induction l as [|vk l IH]; intros r; cbn [mapM Cache.convert].
  - intro H. injection H as <-. reflexivity.
  - destruct (VO.parse_component message vk) as [c|]; cbn [bind]; [|discriminate].
    destruct (mapM (VO.parse_component message) l) as [cs|]; cbn [bind]; [|discriminate].
    intro H. injection H as <-. rewrite (IH cs eq_refl). reflexivity.
Qed.

Lemma convert_raise : forall message l e,
  mapM (VO.parse_component message) l = Raise e ->
  exists items,
    Cache.convert message l = (items, Some e) /\
    forall rest,
      forallb (fun i => match i with Cache.Runs _ => true | Cache.Text _ => false end)
              (items ++ rest) = false.
Proof.
  intros message. induction l as [|vk l IH]; intros e; cbn [mapM Cache.convert].
  - discriminate.
  - destruct (VO.parse_component message vk) as [c|e']; cbn [bind].
    + destruct (mapM (VO.parse_component message) l) as [cs|e'']; cbn [bind];
        [discriminate|].
      intro H. injection H as <-. destruct (IH e'' eq_refl) as [items [C F]].
      rewrite C. eexists. split; [reflexivity|]. intro rest. simpl. apply F.
    + intro H. injection H as <-. eexists. split; [reflexivity|].
      intro rest. reflexivity.
Qed.

Lemma body_ok : forall s v, VO.new s = Ok v -> Cache.body s = (built v, None).
Proof.
  intros s v. unfold VO.new, Cache.body.
  destruct (VO.normalize _ s) as [n|]; cbn [bind]; [|discriminate].
  unfold VO.parse_norm.
  destruct (match Py.split "!" n with [_] => _ | _ => _ end) as [ep|]; cbn [bind];
    [|discriminate].
  destruct (match Py.split "+" _ with [_] => _ | _ => _ end) as [loc|]; cbn [bind];
    [|discriminate].
  destruct (mapM (VO.parse_component _) (ep :: _)) as [ver'|] eqn:V; cbn [bind];
    [|discriminate].
  destruct (mapM (VO.parse_component _) loc) as [loc'|] eqn:L; cbn [bind];
    [|discriminate].
  intro H. injection H as <-.
  rewrite (convert_ok _ _ _ V), (convert_ok _ _ _ L). reflexivity.
Qed.

Lemma body_raise : forall s e,
  VO.new s = Raise e ->
  exists self, Cache.body s = (self, Some e) /\ complete self = false.
Proof.
  intros s e. unfold VO.new, Cache.body.
  destruct (VO.normalize _ s) as [n|e0]; cbn [bind].
  2:{ intro H. injection H as <-. eexists. split; reflexivity. }
  unfold VO.parse_norm.
  destruct (match Py.split "!" n with [_] => _ | _ => _ end) as [ep|e1]; cbn [bind].
  2:{ intro H. injection H as <-. eexists. split; reflexivity. }
  destruct (match Py.split "+" _ with [_] => _ | _ => _ end) as [loc|e2]; cbn [bind].
  2:{ intro H. injection H as <-. eexists. split; reflexivity. }
  destruct (mapM (VO.parse_component _) (ep :: _)) as [ver'|e3] eqn:V; cbn [bind].
  2:{ intro H. injection H as <-. destruct (convert_raise _ _ _ V) as [items [C F]].
      rewrite C. eexists. split; [reflexivity|]. unfold complete.
      cbn [Cache.norm_version Cache.version Cache.local]. apply F. }
  destruct (mapM (VO.parse_component _) loc) as [loc'|e4] eqn:L; cbn [bind];
    [discriminate|].
  intro H. injection H as <-. destruct (convert_raise _ _ _ L) as [items [C F]].
  rewrite (convert_ok _ _ _ V), C. eexists. split; [reflexivity|]. unfold complete.
  cbn [Cache.norm_version Cache.version Cache.local].
  rewrite forallb_app. rewrite <- (app_nil_r items), (F []). apply andb_false_r.
Qed.

Lemma built_inj : forall v v', built v = built v' -> v = v'.
Proof.
  intros [n1 v1 l1] [n2 v2 l2]. unfold built.
  cbn [norm_version version local]. intro H. injection H as -> V L.
  assert (I : forall x y : list (list token), map Cache.Runs x = map Cache.Runs y -> x = y).
  { induction x as [|a x IH]; intros [|b y] E; try discriminate E; [reflexivity|].
    cbn [map] in E. injection E as -> E. f_equal. exact (IH y E). }
  rewrite (I _ _ V), (I _ _ L). reflexivity.
Qed.

Lemma built_complete : forall v, complete (built v) = true.
Proof.
  intro v. unfold complete, built. cbn [Cache.norm_version Cache.version Cache.local].
  rewrite <- map_app. induction (version v ++ local v) as [|c l IH]; [reflexivity|].
  exact IH.
Qed.

Lemma reachable_body : forall cache,
  reachable cache -> forall k o, cache k = Some o -> o = fst (Cache.body k).
Proof.
  induction 1 as [|cache s R IH]; intros k o; [discriminate|].
  unfold Cache.new. destruct (cache s) as [self|] eqn:C; cbn [snd]; [apply IH|].
  destruct (Cache.body s) as [self e] eqn:B. cbn [snd].
  destruct (Py.eqb k s) eqn:E; [|apply IH].
  apply eqb_true_iff in E. subst k. intro H. injection H as <-. rewrite B. reflexivity.
Qed.

Lemma new_returns : forall cache s,
  reachable cache ->
  (exists e, fst (Cache.new cache s) = Raise e /\ VO.new s = Raise e /\ cache s = None) \/
  fst (Cache.new cache s) = Ok (fst (Cache.body s)).
Proof.
  intros cache s R. unfold Cache.new.
  destruct (cache s) as [self|] eqn:C.
  - right. cbn [fst]. rewrite (reachable_body cache R s self C). reflexivity.
  - destruct (VO.new s) as [v|e] eqn:V.
    + right. rewrite (body_ok s v V). reflexivity.
    + left. destruct (body_raise s e V) as [self [B _]]. rewrite B.
      exists e. repeat split.
Qed.

Lemma new_finished : forall cache s v,
  reachable cache ->
  (fst (Cache.new cache s) = Ok (built v) <-> VO.new s = Ok v).
Proof.
  intros cache s v R.
  destruct (new_returns cache s R) as [[e [N [V _]]]|N]; rewrite N.
  - rewrite V. split; discriminate.
  - destruct (VO.new s) as [v'|e] eqn:V.
    + rewrite (body_ok s v' V). cbn [fst]. split; intro H.
      * assert (E : built v' = built v) by congruence.
        rewrite (built_inj _ _ E). reflexivity.
      * congruence.
    + destruct (body_raise s e V) as [self [B C]]. rewrite B. cbn [fst].
      split; [|discriminate]. intro H.
      assert (E : self = built v) by congruence.
      rewrite E, built_complete in C. discriminate C.
Qed.

(** ** Case and surrounding whitespace *)

Lemma lower_char_facts : forall c,
  Py.isspace (Py.lower_char c) = Py.isspace c /\
  Py.lower_char (Py.lower_char c) = Py.lower_char c.
Proof.
  intros c. destruct c as [[] [] [] [] [] [] [] []]; vm_compute; split; reflexivity.
Qed.

Lemma lstrip_lower : forall s, Py.lstrip (Py.lower s) = Py.lower (Py.lstrip s).
Proof.
  induction s as [|c s IH]; [reflexivity|]. simpl.
  rewrite (proj1 (lower_char_facts c)). destruct (Py.isspace c); [exact IH|reflexivity].
Qed.

Lemma rstrip_lower : forall s, Py.rstrip (Py.lower s) = Py.lower (Py.rstrip s).
Proof.
  intros s. unfold Py.rstrip, Py.lower.
  rewrite <- map_rev. fold (Py.lower (rev s)). rewrite lstrip_lower.
  unfold Py.lower. rewrite map_rev. reflexivity.
Qed.

Lemma lower_lower : forall s, Py.lower (Py.lower s) = Py.lower s.
Proof.
  induction s as [|c s IH]; [reflexivity|]. simpl.
  rewrite (proj2 (lower_char_facts c)). f_equal. exact IH.
Qed.

Lemma lstrip_suffix : forall s, exists sp, s = sp ++ Py.lstrip s.
Proof.
  induction s as [|c s [sp IH]]; [exists []; reflexivity|]. simpl.
  destruct (Py.isspace c).
  - exists (c :: sp). simpl. f_equal. exact IH.
  - exists []. reflexivity.
Qed.

Lemma lstrip_lstrip : forall s, Py.lstrip (Py.lstrip s) = Py.lstrip s.
Proof. intro s. apply lstrip_fixed, lstrip_head. Qed.

Lemma rstrip_rstrip : forall s, Py.rstrip (Py.rstrip s) = Py.rstrip s.
Proof.
  intro s. unfold Py.rstrip. rewrite rev_involutive, lstrip_lstrip. reflexivity.
Qed.

Lemma rstrip_prefix : forall s, exists sp, s = Py.rstrip s ++ sp.
Proof.
  intro s. unfold Py.rstrip. destruct (lstrip_suffix (rev s)) as [sp E].
  exists (rev sp). rewrite <- rev_app_distr, <- E, rev_involutive. reflexivity.
Qed.

Lemma lstrip_rstrip_lstrip : forall s,
  Py.lstrip (Py.rstrip (Py.lstrip s)) = Py.rstrip (Py.lstrip s).
Proof.
  intro s. apply lstrip_fixed.
  pose proof (lstrip_head s) as H.
  destruct (rstrip_prefix (Py.lstrip s)) as [sp E].
  destruct (Py.rstrip (Py.lstrip s)) as [|c r]; [exact I|].
  rewrite E in H. exact H.
Qed.

Lemma strip_strip : forall s, Py.strip (Py.strip s) = Py.strip s.
Proof.
  intro s. unfold Py.strip. rewrite lstrip_rstrip_lstrip. apply rstrip_rstrip.
Qed.

Lemma new_same_norm : forall s s' v,
  Py.lower (Py.rstrip (Py.strip s')) = Py.lower (Py.rstrip (Py.strip s)) ->
  VO.new s = Ok v -> VO.new s' = Ok v.
Proof.
  intros s s' v E. unfold VO.new.
  set (m := "Malformed version string '" ++ s ++ "': ").
  set (m' := "Malformed version string '" ++ s' ++ "': ").
  destruct (VO.normalize m s) as [n|] eqn:N; cbn [bind]; [|discriminate].
  intro P.
  assert (N' : VO.normalize m' s' = Ok n).
  { revert N. unfold VO.normalize. rewrite E.
    destruct (Py.eqb _ []); [discriminate|].
    destruct (VO.version_check _); cbn [negb andb]; [trivial|].
    destruct (Py.contains "-" _ && negb (Py.contains "_" _)); [|discriminate].
    destruct (VO.version_check _); cbn [negb]; [trivial|discriminate]. }
  rewrite N'. cbn [bind]. apply (parse_norm_message m m' n v P).
Qed.

(** X6: parsing ignores the case of letters and the whitespace around
    the string.  On strings that the memo table does not hold, a string,
    its lower-case form and its stripped form are valid together and
    parse to the same version.  With any table that calls of
    [_VersionOrder] have produced, the call on the lower-case form, or on
    the stripped form, returns the finished object of a version exactly
    when the call on the string itself returns it; a string on which an
    earlier call raised is returned unfinished, whatever its other
    spellings give. *)
Theorem case_and_space_ignored :
  forall (cache : pystr -> option Cache.object) (s : pystr) (v : VersionOrder),
    reachable cache ->
    (VO.new (Py.lower s) = Ok v <-> VO.new s = Ok v) /\
    (VO.new (Py.strip s) = Ok v <-> VO.new s = Ok v) /\
    (fst (Cache.new cache (Py.lower s)) = Ok (built v) <->
     fst (Cache.new cache s) = Ok (built v)) /\
    (fst (Cache.new cache (Py.strip s)) = Ok (built v) <->
     fst (Cache.new cache s) = Ok (built v)).
Proof.
  intros cache s v R.
  assert (L : Py.lower (Py.rstrip (Py.strip (Py.lower s))) =
              Py.lower (Py.rstrip (Py.strip s))).
  { unfold Py.strip. rewrite lstrip_lower, !rstrip_lower. apply lower_lower. }
  assert (S : Py.lower (Py.rstrip (Py.strip (Py.strip s))) =
              Py.lower (Py.rstrip (Py.strip s))).
  { rewrite strip_strip. reflexivity. }
  assert (A : VO.new (Py.lower s) = Ok v <-> VO.new s = Ok v)
    by (split; apply new_same_norm; congruence).
  assert (B : VO.new (Py.strip s) = Ok v <-> VO.new s = Ok v)
    by (split; apply new_same_norm; congruence).
  split; [exact A|]. split; [exact B|].
  rewrite !(new_finished cache _ v R). split; [exact A|exact B].
Qed.

Lemma case_and_space_ignored_witness :
  reachable (snd (Cache.new (fun _ => None) "1..2")) /\
  VO.new (Py.lower " 1.0RC1 ") = Ok (parsed "1.0rc1") /\
  fst (Cache.new (snd (Cache.new (fun _ => None) "1..2")) (Py.lower " 1.0RC1 ")) =
  Ok (built (parsed "1.0rc1")).
Proof.
  assert (R : reachable (snd (Cache.new (fun _ => None) "1..2")))
    by (apply reachable_call, reachable_empty).
  destruct (case_and_space_ignored _ " 1.0RC1 " (parsed "1.0rc1") R)
    as [A [_ [B _]]].
  split; [exact R|]. split.
  - apply (proj2 A). vm_compute. reflexivity.
  - apply (proj2 B). vm_compute. reflexivity.
Defined.

(** ** Strictness and name-only specs *)

Section Strictness.

Variable re : pystr -> option (pystr -> bool).

Lemma build_strictness : forall target optional normalize (text : pystr) (m : MS.t),
  MatchSpec_build re target optional normalize text = Ok m ->
  let parts := split_parts (Py.strip text) in
  MS.name m = nth 0 parts [] /\
  MS.target m = target /\ MS.optional m = optional /\
  ((length parts = 1 /\ MS.strictness m = 1 /\ MS.match_fast m = MS.MatchAny /\
    MS.spec m = Py.strip text) \/
   (2 <= length parts <= 3 /\ MS.strictness m = 2 /\
    MatchSpec_is_simple m = false /\ MatchSpec_is_exact m = false) \/
   (length parts = 3 /\ MS.strictness m = 3 /\
    MS.match_fast m = MS.MatchExact (nth 1 parts []) (nth 2 parts []) /\
    MS.spec m = Py.strip text)).
Proof.
  intros target optional normalize text m. unfold MatchSpec_build.
  set (parts := split_parts (Py.strip text)). cbv zeta.
  destruct ((1 <=? length parts)%nat && (length parts <=? 3)%nat) eqn:B;
    cbn [negb]; [|discriminate].
  apply andb_true_iff in B. destruct B as [B1 B2].
  apply Nat.leb_le in B1, B2.
  destruct (length parts =? 1)%nat eqn:E1.
  { apply Nat.eqb_eq in E1. intro H. injection H as <-.
    cbn. repeat split. left. repeat split. exact E1. }
  apply Nat.eqb_neq in E1.
  destruct (VersionSpec_new re (nth 1 parts [])) as [vs|]; cbn [bind]; [|discriminate].
  match goal with
  | |- _ -> ?C =>
      assert (G' : forall sp ps v,
                (if (length parts =? 2)%nat
                 then Ok (MS.mk target optional sp (nth 0 parts []) 2 (MS.MatchVersion v))
                 else match re ("^(?:" ++ Py.replace "*" ".*" (nth 2 ps []) ++ ")$") with
                      | Some _ =>
                          Ok (MS.mk target optional sp (nth 0 parts []) 2
                                (MS.MatchFull v
                                   ("^(?:" ++ Py.replace "*" ".*" (nth 2 ps []) ++ ")$")))
                      | None => Raise ReError
                      end) = Ok m -> C)
  end.
  { intros sp ps v. destruct (length parts =? 2)%nat.
    - intro H. injection H as <-. cbn. repeat split. right. left.
      repeat split; lia.
    - destruct (re _); [|discriminate]. intro H. injection H as <-.
      cbn. repeat split. right. left. repeat split; lia. }
  destruct (VersionSpec_is_exact vs).
  - destruct ((2 <? length parts)%nat && negb (Py.contains "*" (nth 2 parts []))) eqn:F.
    + apply andb_true_iff in F. destruct F as [F _]. apply Nat.ltb_lt in F.
      intro H. injection H as <-. cbn. repeat split. right. right.
      repeat split. lia.
    + destruct (normalize && negb (Py.endswith (nth 1 parts []) "*")).
      * destruct (VersionSpec_new re _) as [vs'|]; cbn [bind]; [|discriminate].
        apply G'.
      * apply G'.
  - apply G'.
Qed.

(** X7: in a compiled spec the name is the first token and the
    strictness is 1, 2 or 3: 1 exactly for a name-only spec, 3 exactly on
    the fast path, and never more than the number of tokens. *)
Theorem strictness_invariant :
  forall (s : pystr) (target : option (option pystr)) (optional : option bool)
         (normalize : bool) (m : MS.t),
    MatchSpec_new re s target optional normalize = Ok m ->
    let parts := split_parts (Py.strip (fst (Py.partition "(" s))) in
    MS.name m = nth 0 parts [] /\
    1 <= MS.strictness m <= 3 /\
    MS.strictness m <= length parts /\
    (MS.strictness m = 1 <-> MatchSpec_is_simple m = true) /\
    (MS.strictness m = 1 <-> length parts = 1) /\
    (MS.strictness m = 3 <-> MatchSpec_is_exact m = true).
Proof.
  intros s target optional normalize m H.
  unfold MatchSpec_new in H. destruct (Py.partition "(" s) as [text oparts].
  cbn [fst].
  destruct (match oparts with [] => _ | _ => _ end) as [[tg op]|e]; cbn [bind] in H;
    [|discriminate].
  destruct (build_strictness _ _ _ _ _ H) as [N [_ [_ D]]]. cbv zeta in *.
  split; [exact N|].
  unfold MatchSpec_is_simple, MatchSpec_is_exact in *.
  destruct D as [[L [S [F _]]] | [[L [S [F1 F2]]] | [L [S [F _]]]]];
    rewrite S; try rewrite F;
    repeat split; try lia; try discriminate; try reflexivity; try congruence;
    intros; try lia; try congruence.
Qed.

(** X8: a spec without attribute list that is a single token, or that
    ends in the archive extension (then the whole text is the name),
    accepts a candidate exactly when the names are equal: the version and
    the build string are not looked at, and nothing is raised. *)
Theorem name_only_spec :
  forall (s n : pystr),
    snd (Py.partition "(" s) = [] ->
    let text := Py.strip (fst (Py.partition "(" s)) in
    (Py.endswith text CONDA_TARBALL_EXTENSION = true /\ n = text) \/
    (Py.endswith text CONDA_TARBALL_EXTENSION = false /\ Py.split_ws text = [n]) ->
    forall name version build : pystr,
      spec_matches re s name version build = Ok (Py.eqb name n).
Proof.
  intros s n A text D name version build.
  assert (P : split_parts text = [n]).
  { unfold split_parts. destruct D as [[E ->] | [E W]]; rewrite E; [reflexivity|exact W]. }
  unfold spec_matches, MatchSpec_new. subst text.
  destruct (Py.partition "(" s) as [t oparts]. cbn [fst snd] in *. subst oparts.
  cbn [bind]. unfold MatchSpec_build. rewrite P. cbn [length Nat.leb Nat.eqb andb negb nth bind].
  unfold MatchSpec_match. cbn [Dist.quad Dist.name Dist.version Dist.build_string MS.name].
  destruct (Py.eqb name n); reflexivity.
Qed.

End Strictness.

Lemma strictness_invariant_witness :
  MatchSpec_new Re.compile "numpy 1.7* py27*" None None false =
    Ok (MS.mk None false "numpy 1.7* py27*" "numpy" 2
          (MS.MatchFull (VSEval "1.7*" OpStartswith (parsed "1.7")) "^(?:py27.*)$")) /\
  1 <= 2 <= 3.
Proof.
  split; [vm_compute; reflexivity|].
  apply (proj1 (proj2 (@strictness_invariant Re.compile "numpy 1.7* py27*" None None false
                         _ ltac:(vm_compute; reflexivity)))).
Defined.

Lemma name_only_spec_witness :
  (snd (Py.partition "(" "numpy-1.7 py27.tar.bz2") = [] /\
   Py.endswith (Py.strip (fst (Py.partition "(" "numpy-1.7 py27.tar.bz2")))
               CONDA_TARBALL_EXTENSION = true) /\
  spec_matches Re.compile "numpy-1.7 py27.tar.bz2" "numpy" "not a version" "x" = Ok false.
Proof.
  split; [split; vm_compute; reflexivity|].
  apply (name_only_spec Re.compile "numpy-1.7 py27.tar.bz2" "numpy-1.7 py27.tar.bz2" eq_refl).
  left. split; vm_compute; reflexivity.
Defined.

(** ** The operators [&] and [|] *)

(** X9: a combinator built with [&] matches as the one built with
    [|] does: it accepts a version as soon as its first operand accepts
    it, whatever the second says, and it is serialized with [|]. *)
Theorem and_operator_matches_as_or :
  forall (re : pystr -> option (pystr -> bool)) (a b : VersionSpec) (v : pystr),
    VersionSpec_match re (VersionSpec_and a b) v =
    VersionSpec_match re (VersionSpec_or a b) v /\
    (VersionSpec_match re a v = Ok true ->
     VersionSpec_match re (VersionSpec_and a b) v = Ok true) /\
    VersionSpec_str (VersionSpec_and a b) false =
    VersionSpec_str a true ++ "|" ++ VersionSpec_str b true.
Proof.
  intros re a b v. split; [reflexivity|]. split; [|reflexivity].
  intro H. unfold VersionSpec_and, VersionSpec_of_tuple.
  cbn [VersionSpec_match tag_is_str_all]. rewrite H. reflexivity.
Qed.

Lemma and_operator_matches_as_or_witness :
  VersionSpec_match Re.compile (VSExact "1.0") "1.0" = Ok true /\
  VersionSpec_match Re.compile (VersionSpec_and (VSExact "1.0") (VSExact "2.0")) "1.0" =
  Ok true.
Proof.
  split; [vm_compute; reflexivity|].
  apply (proj1 (proj2 (and_operator_matches_as_or Re.compile (VSExact "1.0")
                         (VSExact "2.0") "1.0"))).
  vm_compute. reflexivity.
Defined.

(** ** Specs made of one version *)

Lemma valid_char_plain : forall c,
  VO.valid_char c = true ->
  (c =? "^")%char = false /\ (c =? "|")%char = false /\ (c =? ",")%char = false /\
  (c =? "=")%char = false /\ (c =? "<")%char = false /\ (c =? ">")%char = false.
Proof.
  intros c. destruct c as [[] [] [] [] [] [] [] []]; vm_compute; intro H;
    try discriminate H; repeat split.
Qed.

Lemma valid_contains : forall n,
  forallb VO.valid_char n = true ->
  Py.contains "|" n = false /\ Py.contains "," n = false /\
  forallb (fun d => negb (Py.isspace d)) n = true.
Proof.
  induction n as [|c n IH]; [repeat split|]. simpl. intro H.
  apply andb_true_iff in H. destruct H as [H1 H2].
  destruct (valid_char_plain c H1) as [_ [A [B _]]].
  destruct (IH H2) as [A' [B' C']].
  rewrite (proj2 (valid_char_facts c H1)).
  unfold Py.contains in *. simpl. rewrite A, B, A', B', C'. repeat split.
Qed.

Lemma new_leaf : forall (re : pystr -> option (pystr -> bool)) spec,
  regex_split spec = None ->
  Py.contains "|" spec = false -> Py.contains "," spec = false ->
  VersionSpec_new re spec = VersionSpec_leaf re spec.
Proof.
  intros re spec R A B. unfold VersionSpec_new. cbn [VersionSpec_fuel].
  rewrite R, A, B. reflexivity.
Qed.

Lemma regex_split_other : forall a r,
  (a =? "^")%char = false -> regex_split (a :: r) = None.
Proof. intros a [|c r] H; simpl; [reflexivity|]. rewrite H. reflexivity. Qed.

Lemma sections_first_char : forall a r x,
  sections (a :: r) = Some x -> (a =? "!")%char = false.
Proof.
  intros a r x. unfold sections. cbn [Py.split].
  destruct (a =? "!")%char; [|reflexivity].
  pose proof (split_nonempty "!" r) as N.
  destruct (Py.split "!" r) as [|p0 [|p1 ps]]; [congruence| |]; discriminate.
Qed.

Lemma parsed_text : forall s v,
  VO.new s = Ok v ->
  exists a r,
    VO.str v = a :: r /\ forallb VO.valid_char (a :: r) = true /\
    (a =? "!")%char = false /\ VO.new (a :: r) = Ok v.
Proof.
  intros s v H. pose proof (new_str s v H) as H'.
  unfold VO.new in H.
  destruct (VO.normalize _ s) as [n|] eqn:N; cbn [bind] in H; [|discriminate].
  destruct (normalize_valid _ _ _ N) as [V1 V2].
  destruct (parse_norm_sections _ _ _ H) as [e [m [l [A [_ [_ S]]]]]].
  unfold VO.str in *. rewrite S in *.
  destruct n as [|a r]; [congruence|].
  exists a, r. repeat split; try assumption.
  apply (sections_first_char a r _ A).
Qed.

Lemma contains_rev : forall c s, Py.contains c (rev s) = Py.contains c s.
Proof.
  intros c s. unfold Py.contains.
  destruct (existsb (fun x => (x =? c)%char) s) eqn:E.
  - apply existsb_exists in E. destruct E as [x [I X]].
    apply existsb_exists. exists x. split; [apply in_rev in I; exact I|exact X].
  - destruct (existsb (fun x => (x =? c)%char) (rev s)) eqn:E'; [|reflexivity].
    apply existsb_exists in E'. destruct E' as [x [I X]].
    assert (T : existsb (fun x => (x =? c)%char) s = true).
    { apply existsb_exists. exists x. split; [apply in_rev; exact I|exact X]. }
    congruence.
Qed.

Lemma rstrip_char_snoc : forall c n, Py.rstrip_char c (n ++ [c]) = Py.rstrip_char c n.
Proof.
  intros c n. unfold Py.rstrip_char. rewrite rev_unit. simpl.
  rewrite Ascii.eqb_refl. reflexivity.
Qed.

Lemma rstrip_char_absent : forall c n,
  Py.contains c n = false -> Py.rstrip_char c n = n.
Proof.
  intros c n H. unfold Py.rstrip_char. rewrite <- contains_rev in H.
  destruct (rev n) as [|x r] eqn:E.
  - simpl. rewrite <- (rev_involutive n), E. reflexivity.
  - unfold Py.contains in H. simpl in H. apply orb_false_iff in H.
    simpl. rewrite (proj1 H). rewrite <- E. apply rev_involutive.
Qed.

Lemma sections_last_text : forall p t e m l,
  sections (p ++ t) = Some (e, m, l) ->
  Py.contains "!" t = false -> Py.contains "+" t = false ->
  exists y, match l with None => m | Some l0 => l0 end = y ++ t.
Proof.
  intros p t e m l S N1 N2.
  assert (C : forall x b, cut_local x (b ++ t) = Some (e, m, l) ->
              exists y, match l with None => m | Some l0 => l0 end = y ++ t).
  { intros x b. unfold cut_local. rewrite (split_app_nosep "+" b t N2).
    pose proof (split_nonempty "+" b) as NE.
    destruct (Py.split "+" b) as [|q0 [|q1 [|q2 qs]]]; [congruence| | |].
    - intro H. injection H as <- <- <-. exists q0. reflexivity.
    - intro H. injection H as <- <- <-. exists q1. reflexivity.
    - change (removelast (q0 :: q1 :: q2 :: qs)) with (q0 :: q1 :: removelast (q2 :: qs)).
      destruct (removelast (q2 :: qs)); cbn [app]; discriminate. }
  revert S. unfold sections. rewrite (split_app_nosep "!" p t N1).
  pose proof (split_nonempty "!" p) as NE.
  destruct (Py.split "!" p) as [|p0 [|p1 [|p2 ps]]]; [congruence| | |].
  - apply C.
  - cbn [removelast last app]. destruct (Py.isdigit p0); [apply C|discriminate].
  - change (removelast (p0 :: p1 :: p2 :: ps)) with (p0 :: p1 :: removelast (p2 :: ps)).
    destruct (removelast (p2 :: ps)); cbn [app]; discriminate.
Qed.

Lemma components_trailing_dot : forall y,
  components (y ++ ["."%char]) = components y ++ [[]].
Proof.
  intro y. unfold components. rewrite replace_app.
  change (Py.replace "_" "." ["."%char]) with ("."%char :: []).
  rewrite split_app_sep. reflexivity.
Qed.

Lemma mapM_empty_component : forall message l r,
  mapM (VO.parse_component message) (l ++ [[]]) = Ok r -> False.
Proof.
  intros message l r H.
  destruct (mapM_app_inv _ _ _ _ _ _ H) as [r1 [r2 [_ [H2 _]]]].
  simpl in H2. discriminate.
Qed.

Lemma parsed_no_trailing_dot : forall s v,
  VO.new s = Ok v -> Py.rstrip_char "." (VO.str v) = VO.str v.
Proof.
  intros s v H. pose proof (new_str s v H) as H'. unfold VO.new in H'.
  destruct (VO.normalize _ (VO.str v)) as [n|] eqn:N; cbn [bind] in H';
    [|discriminate].
  destruct (parse_norm_sections _ _ _ H') as [e [m [l [A [B [C S]]]]]].
  unfold VO.str in *. rewrite S in *. clear S N H H'.
  unfold Py.rstrip_char. destruct (rev n) as [|x r] eqn:E.
  - simpl. rewrite <- (rev_involutive n), E. reflexivity.
  - simpl. destruct (x =? ".")%char eqn:X.
    + exfalso. apply Ascii.eqb_eq in X. subst x.
      assert (En : n = rev r ++ ["."%char]).
      { rewrite <- (rev_involutive n), E. reflexivity. }
      rewrite En in A.
      destruct (sections_last_text _ _ _ _ _ A eq_refl eq_refl) as [y Y].
      destruct l as [l0|].
      * subst l0. cbn [local_components] in C.
        rewrite components_trailing_dot in C.
        exact (mapM_empty_component _ _ _ C).
      * subst m. rewrite components_trailing_dot in B.
        exact (mapM_empty_component _ (e :: components y) _ B).
    + rewrite <- E. apply rev_involutive.
Qed.

Section PlainSpecs.

Variable re : pystr -> option (pystr -> bool).

Lemma prefix_spec_compiles : forall s v,
  VO.new s = Ok v -> Py.contains "*" (VO.str v) = false ->
  VersionSpec_new re (VO.str v ++ "*") =
  Ok (VSEval (VO.str v ++ "*") OpStartswith v).
Proof.
  intros s v H NS.
  pose proof (parsed_no_trailing_dot s v H) as ND.
  destruct (parsed_text s v H) as [a [r [E [V [B P]]]]].
  rewrite E in *.
  simpl in V. apply andb_true_iff in V. destruct V as [Va Vr].
  destruct (valid_char_plain a Va) as [C1 [C2 [C3 [C4 [C5 C6]]]]].
  destruct (valid_contains r Vr) as [D1 [D2 _]].
  change (list_ascii_of_string "*") with ["*"%char].
  rewrite new_leaf.
  - unfold VersionSpec_leaf.
    change ((a :: r) ++ ["*"%char]) with (a :: (r ++ ["*"%char])).
    cbn [existsb Py.startswith list_ascii_of_string].
    rewrite (Ascii.eqb_sym "=" a), (Ascii.eqb_sym "<" a), (Ascii.eqb_sym ">" a),
      (Ascii.eqb_sym "!" a), C4, C5, C6, B. cbn [andb orb].
    destruct (Py.eqb (a :: r ++ ["*"%char]) ["*"%char]) eqn:Q.
    { apply eqb_true_iff in Q.
      injection Q as _ Q. destruct r; discriminate. }
    change (a :: r ++ ["*"%char]) with ((a :: r) ++ ["*"%char]).
    rewrite rstrip_char_snoc, (rstrip_char_absent "*" (a :: r) NS), NS.
    unfold Py.endswith. rewrite rev_unit.
    cbn [rev list_ascii_of_string app Py.startswith]. rewrite Ascii.eqb_refl.
    cbn [andb].
    assert (T : forall x, Py.startswith x [] = true) by (intros []; reflexivity).
    rewrite T, ND, P. reflexivity.
  - apply regex_split_other. exact C1.
  - change ((a :: r) ++ ["*"%char]) with (a :: (r ++ ["*"%char])).
    unfold Py.contains in *. simpl. rewrite existsb_app, C2, D1. reflexivity.
  - change ((a :: r) ++ ["*"%char]) with (a :: (r ++ ["*"%char])).
    unfold Py.contains in *. simpl. rewrite existsb_app, C3, D2. reflexivity.
Qed.

(** X10: the spec made of the text of a valid version without star
    followed by a star compiles to the prefix test against that version:
    on every valid candidate it answers what [startswith] of the
    candidate and the version answers, on a malformed one, not in the
    memo table, it raises the candidate's error; it accepts the version
    itself and
    every version that adds one more component to it, where the added
    component has no character that separates components and is at most
    4300 characters long, the length up to which [int] converts every
    run of digits. *)
Theorem prefix_spec_accepts_extensions : forall (s : pystr) (v : VersionOrder),
  VO.new s = Ok v -> Py.contains "*" (VO.str v) = false ->
  VersionSpec_new re (VO.str v ++ "*") =
    Ok (VSEval (VO.str v ++ "*") OpStartswith v) /\
  (forall c : pystr,
     version_matches re (VO.str v ++ "*") c =
     (vc <- VO.new c ;; VO.startswith vc v)) /\
  version_matches re (VO.str v ++ "*") (VO.str v) = Ok true /\
  forall x : pystr,
    x <> [] -> forallb comp_char x = true -> fits_int x = true ->
    version_matches re (VO.str v ++ "*") (VO.str v ++ "." ++ x) = Ok true.
Proof.
  intros s v H NS.
  split; [apply (prefix_spec_compiles s v H NS)|].
  unfold version_matches. rewrite (prefix_spec_compiles s v H NS).
  split; [intro c; reflexivity|].
  destruct (startswith_appended s v H) as [R X].
  cbn [bind VersionSpec_match]. split.
  - rewrite (new_str s v H). cbn [bind apply_op]. exact R.
  - intros x NX CX FX. destruct (X x NX CX FX) as [v' [P S]].
    rewrite P. cbn [bind apply_op]. exact S.
Qed.

End PlainSpecs.

Lemma prefix_spec_accepts_extensions_witness :
  (VO.new "1.7" = Ok (parsed "1.7") /\
   Py.contains "*" (VO.str (parsed "1.7")) = false) /\
  version_matches Re.compile "1.7*" "1.7" = Ok true /\
  version_matches Re.compile "1.7*" "1.7.1rc" = Ok true.
Proof.
  split; [split; vm_compute; reflexivity|].
  destruct (prefix_spec_accepts_extensions Re.compile "1.7" (parsed "1.7")
              eq_refl eq_refl) as [_ [_ [A B]]].
  split; [exact A|].
  apply (B (list_ascii_of_string "1rc")); [discriminate|reflexivity|reflexivity].
Defined.

(** ** Relational specs *)

Lemma startswith_nil : forall x, Py.startswith x [] = true.
Proof. intros []; reflexivity. Qed.

Lemma relation_rest_text : forall a r,
  forallb VO.valid_char (a :: r) = true -> (a =? "!")%char = false ->
  relation_rest (a :: r) = Some (a :: r).
Proof.
  intros a r V B. pose proof V as V'.
  simpl in V. apply andb_true_iff in V. destruct V as [Va Vr].
  destruct (valid_char_plain a Va) as [_ [_ [_ [C4 [C5 C6]]]]].
  unfold relation_rest. rewrite C4, C5, C6, B. cbn [orb].
  rewrite (before_dollar_clean (a :: r) (valid_ends_clean (a :: r) V')).
  destruct (valid_contains (a :: r) V') as [_ [_ S]]. rewrite S. reflexivity.
Qed.

Lemma relation_match_text : forall sym op a r,
  In (sym, op) relation_ops ->
  forallb VO.valid_char (a :: r) = true -> (a =? "!")%char = false ->
  relation_match (sym ++ a :: r) = Some (op, a :: r).
Proof.
  intros sym op a r I V B.
  pose proof (relation_rest_text a r V B) as R.
  simpl in V. apply andb_true_iff in V. destruct V as [Va Vr].
  destruct (valid_char_plain a Va) as [_ [_ [_ [C4 [C5 C6]]]]].
  rewrite (Ascii.eqb_sym a "=") in C4.
  unfold relation_ops in I. simpl in I.
  destruct I as [I|[I|[I|[I|[I|[I|[]]]]]]]; injection I as <- <-;
    unfold relation_match, relation_ops;
    cbn [VO.first_return Py.startswith list_ascii_of_string app length skipn];
    rewrite ?C4; rewrite ?startswith_nil;
    cbn [Ascii.eqb Bool.eqb andb VO.first_return skipn length];
    rewrite R; reflexivity.
Qed.

Section RelationalSpecs.

Variable re : pystr -> option (pystr -> bool).

Lemma relation_spec_compiles : forall s v sym op,
  VO.new s = Ok v -> In (sym, op) relation_ops ->
  VersionSpec_new re (sym ++ VO.str v) = Ok (VSEval (sym ++ VO.str v) op v).
Proof.
  intros s v sym op H I.
  destruct (parsed_text s v H) as [a [r [E [V [B P]]]]].
  rewrite E in *.
  pose proof (relation_match_text sym op a r I V B) as M.
  destruct (valid_contains (a :: r) V) as [D1 [D2 _]].
  assert (F : exists c t, sym = c :: t /\
                (c =? "^")%char = false /\
                Py.contains "|" sym = false /\ Py.contains "," sym = false /\
                existsb (fun p : pystr => Py.startswith (sym ++ a :: r) p)
                        ["=" : pystr; "<" : pystr; ">" : pystr; "!" : pystr] = true).
  { unfold relation_ops in I. simpl in I.
    destruct I as [I|[I|[I|[I|[I|[I|[]]]]]]]; injection I as <- <-;
      eexists; eexists; (split; [reflexivity|]); repeat split; reflexivity. }
  destruct F as [c [t [ES [F1 [F2 [F3 F4]]]]]].
  rewrite new_leaf.
  - unfold VersionSpec_leaf. rewrite F4, M, P. reflexivity.
  - rewrite ES. apply regex_split_other. exact F1.
  - unfold Py.contains in *. rewrite existsb_app, F2, D1. reflexivity.
  - unfold Py.contains in *. rewrite existsb_app, F3, D2. reflexivity.
Qed.

Lemma relation_spec_matches : forall s v sym op c,
  VO.new s = Ok v -> In (sym, op) relation_ops ->
  version_matches re (sym ++ VO.str v) c = (vc <- VO.new c ;; apply_op op vc v).
Proof.
  intros s v sym op c H I. unfold version_matches.
  rewrite (relation_spec_compiles s v sym op H I). reflexivity.
Qed.

(** X11: an operator followed by the canonical string of a valid
    version compiles, and on a valid candidate the six specs decide as the
    comparisons of the candidate with that version do: [>=] accepts what
    [<] rejects, [<=] what [>] rejects, [!=] what [==] rejects, and exactly
    one of [<], [==] and [>] accepts; on a malformed candidate each of them
    raises the error of the candidate, as [_VersionOrder] does on a string
    that is not in its memo table. *)
Theorem relational_specs : forall (s c : pystr) (v : VersionOrder),
  VO.new s = Ok v ->
  (forall vc, VO.new c = Ok vc ->
     version_matches re ("==" ++ VO.str v) c = Ok (VO.eq vc v) /\
     version_matches re ("!=" ++ VO.str v) c = Ok (negb (VO.eq vc v)) /\
     version_matches re ("<" ++ VO.str v) c = Ok (VO.lt vc v) /\
     version_matches re (">=" ++ VO.str v) c = Ok (negb (VO.lt vc v)) /\
     version_matches re (">" ++ VO.str v) c = Ok (VO.lt v vc) /\
     version_matches re ("<=" ++ VO.str v) c = Ok (negb (VO.lt v vc)) /\
     exactly_one (VO.lt vc v) (VO.eq vc v) (VO.lt v vc)) /\
  (forall e sym op, VO.new c = Raise e -> In (sym, op) relation_ops ->
     version_matches re (sym ++ VO.str v) c = Raise e).
Proof.
  intros s c v H. split.
  - intros vc C.
    rewrite (relation_spec_matches s v "==" OpEq c H),
            (relation_spec_matches s v "!=" OpNe c H),
            (relation_spec_matches s v "<" OpLt c H),
            (relation_spec_matches s v ">=" OpGe c H),
            (relation_spec_matches s v ">" OpGt c H),
            (relation_spec_matches s v "<=" OpLe c H);
      try (unfold relation_ops; simpl; tauto).
    rewrite C. cbn [bind apply_op].
    repeat (split; [reflexivity|]). exact (VO_trichotomy vc v).
  - intros e sym op C I. rewrite (relation_spec_matches s v sym op c H I), C.
    reflexivity.
Qed.

End RelationalSpecs.

Lemma relational_specs_witness :
  VO.new "1.7" = Ok (parsed "1.7") /\
  version_matches Re.compile (">=" ++ VO.str (parsed "1.7")) "1.7.0" = Ok true.
Proof.
  split; [vm_compute; reflexivity|].
  apply (proj1 (proj2 (proj2 (proj2 (proj1
           (relational_specs Re.compile "1.7" "1.7.0" (parsed "1.7") eq_refl)
           (parsed "1.7.0") eq_refl))))).
Defined.

(** ** Matching a valid candidate never raises *)

Section Answers.

Variable re : pystr -> option (pystr -> bool).

Lemma eval_answers : forall text op b cmp c vc,
  VO.new b = Ok cmp -> VO.new c = Ok vc ->
  exists r, VersionSpec_match re (VSEval text op cmp) c = Ok r.
Proof.
  intros text op b cmp c vc B C. cbn [VersionSpec_match]. rewrite C. cbn [bind].
  destruct op; cbn [apply_op]; try (eexists; reflexivity).
  destruct (new_components_ok b cmp B) as [S1 [S2 _]].
  exact (startswith_ok vc cmp S1 S2).
Qed.

Lemma leaf_answers : forall spec vs c vc,
  VersionSpec_leaf re spec = Ok vs -> VO.new c = Ok vc ->
  exists r, VersionSpec_match re vs c = Ok r.
Proof.
  intros spec vs c vc L C. revert L. unfold VersionSpec_leaf.
  destruct (existsb _ _).
  - destruct (relation_match spec) as [[op b]|]; [|discriminate].
    destruct (VO.new b) as [cmp|] eqn:B; cbn [bind]; [|discriminate].
    intro H. injection H as <-. exact (eval_answers spec op b cmp c vc B C).
  - destruct (Py.eqb spec "*").
    { intro H. injection H as <-. eexists. reflexivity. }
    destruct (Py.contains "*" _).
    { destruct (re _) as [m|] eqn:R; [|discriminate].
      intro H. injection H as <-. cbn [VersionSpec_match].
      match goal with
      | |- exists r, match ?x with _ => _ end = _ =>
          replace x with (Some m) by (symmetry; exact R)
      end.
      eexists. reflexivity. }
    destruct (Py.endswith spec "*").
    { destruct (VO.new (Py.rstrip_char _ _)) as [cmp|] eqn:B; cbn [bind];
        [|discriminate].
      intro H. injection H as <-.
      exact (eval_answers spec OpStartswith _ cmp c vc B C). }
    intro H. injection H as <-. eexists. reflexivity.
Qed.

Lemma tuple_answers : forall t xs c,
  Forall (fun x => exists r, VersionSpec_match re x c = Ok r) xs ->
  exists r, VersionSpec_match re (VSTuple t xs) c = Ok r.
Proof.
  intros t xs c F. cbn [VersionSpec_match].
  destruct (tag_is_str_all t); induction F as [|x l [r R] _ IH];
    try (eexists; reflexivity);
    rewrite R; cbn [bind]; destruct r; try exact IH; eexists; reflexivity.
Qed.

Lemma compile_all_forall :
  forall (f : pystr -> option (result VersionSpec)) (P : VersionSpec -> Prop) l xs,
    (forall x r, f x = Some (Ok r) -> P r) ->
    compile_all f l = Some (Ok xs) -> Forall P xs.
Proof.
  intros f P. induction l as [|s l IH]; intros xs H; simpl.
  - intro E. injection E as <-. constructor.
  - destruct (f s) as [[x|]|] eqn:F; try discriminate.
    destruct (compile_all f l) as [[ys|]|] eqn:C; try discriminate.
    intro E. injection E as <-. constructor; [exact (H s x F)|].
    apply IH; [exact H|reflexivity].
Qed.

Lemma fuel_answers : forall n spec vs c vc,
  VersionSpec_fuel re n spec = Some (Ok vs) -> VO.new c = Ok vc ->
  exists r, VersionSpec_match re vs c = Ok r.
Proof.
  induction n as [|n IH]; intros spec vs c vc; cbn [VersionSpec_fuel]; [discriminate|].
  intros H C. revert H.
  assert (A : forall t l, tupled t (compile_all (VersionSpec_fuel re n) l) = Some (Ok vs) ->
                          exists r, VersionSpec_match re vs c = Ok r).
  { intros t l H. apply tupled_inv in H. destruct H as [xs [K ->]].
    apply tuple_answers.
    apply (compile_all_forall (VersionSpec_fuel re n) _ l xs); [|exact K].
    intros x r F. exact (IH x r c vc F C). }
  destruct (regex_split spec) as [[first tail]|].
  - destruct tail as [|operator rest].
    + destruct (re spec) as [m|] eqn:R; [|discriminate]. intro H. injection H as <-.
      cbn [VersionSpec_match]. rewrite R. eexists. reflexivity.
    + destruct (regex_split_converter operator); [apply A|discriminate].
  - destruct (Py.contains "|" spec); [apply A|].
    destruct (Py.contains "," spec); [apply A|].
    intro H. injection H as H. exact (leaf_answers spec vs c vc H C).
Qed.

Lemma spec_answers : forall spec vs c vc,
  VersionSpec_new re spec = Ok vs -> VO.new c = Ok vc ->
  exists r, VersionSpec_match re vs c = Ok r.
Proof.
  intros spec vs c vc H C. unfold VersionSpec_new in H.
  destruct (VersionSpec_fuel re (S (length spec)) spec) as [r|] eqn:F; [|discriminate].
  subst r. exact (fuel_answers _ spec vs c vc F C).
Qed.

Lemma build_matcher : forall target optional normalize (text : pystr) (m : MS.t),
  MatchSpec_build re target optional normalize text = Ok m ->
  match MS.match_fast m with
  | MS.MatchAny | MS.MatchExact _ _ => True
  | MS.MatchVersion vs => exists sp, VersionSpec_new re sp = Ok vs
  | MS.MatchFull vs rx =>
      (exists sp, VersionSpec_new re sp = Ok vs) /\ exists f, re rx = Some f
  end.
Proof.
  intros target optional normalize text m. unfold MatchSpec_build.
  set (parts := split_parts (Py.strip text)). cbv zeta.
  destruct ((1 <=? length parts)%nat && (length parts <=? 3)%nat);
    cbn [negb]; [|discriminate].
  destruct (length parts =? 1)%nat.
  { intro H. injection H as <-. exact I. }
  destruct (VersionSpec_new re (nth 1 parts [])) as [vs|] eqn:V; cbn [bind];
    [|discriminate].
  match goal with
  | |- _ -> ?C =>
      assert (G' : forall sp ps v,
                (exists t, VersionSpec_new re t = Ok v) ->
                (if (length parts =? 2)%nat
                 then Ok (MS.mk target optional sp (nth 0 parts []) 2 (MS.MatchVersion v))
                 else match re ("^(?:" ++ Py.replace "*" ".*" (nth 2 ps []) ++ ")$") with
                      | Some _ =>
                          Ok (MS.mk target optional sp (nth 0 parts []) 2
                                (MS.MatchFull v
                                   ("^(?:" ++ Py.replace "*" ".*" (nth 2 ps []) ++ ")$")))
                      | None => Raise ReError
                      end) = Ok m -> C)
  end.
  { intros sp ps v E. destruct (length parts =? 2)%nat.
    - intro H. injection H as <-. exact E.
    - destruct (re _) as [f|] eqn:R; [|discriminate]. intro H. injection H as <-.
      cbn [MS.match_fast]. split; [exact E|]. exists f. exact R. }
  assert (E : exists t, VersionSpec_new re t = Ok vs) by (eexists; exact V).
  clear V.
  destruct (VersionSpec_is_exact vs).
  - destruct ((2 <? length parts)%nat && negb (Py.contains "*" (nth 2 parts []))).
    + intro H. injection H as <-. exact I.
    + destruct (normalize && negb (Py.endswith (nth 1 parts []) "*")).
      * destruct (VersionSpec_new re _) as [vs'|] eqn:V'; cbn [bind]; [|discriminate].
        apply G'. eexists. exact V'.
      * apply G'. exact E.
  - apply G'. exact E.
Qed.

(** X12: a version spec that compiles at the first attempt, the
    memo table holding none of its version strings unfinished, answers
    every valid version, and a match spec that compiles so answers every
    candidate whose version is valid, with a truth value: the comparison,
    the prefix test and the patterns raise nothing on them.  The
    candidate may be in the table or not: with any table that calls of
    [_VersionOrder] have produced, the call on a valid string returns its
    finished object.  A spec compiled from a version string on which an
    earlier call raised holds the unfinished object and is not among
    these. *)
Theorem valid_candidate_answered :
  (forall (spec : pystr) (vs : VersionSpec) (c : pystr) (vc : VersionOrder),
     VersionSpec_new re spec = Ok vs -> VO.new c = Ok vc ->
     exists r, VersionSpec_match re vs c = Ok r) /\
  (forall (s : pystr) (target : option (option pystr)) (optional : option bool)
          (normalize : bool) (m : MS.t) (d : Dist.t) (vc : VersionOrder),
     MatchSpec_new re s target optional normalize = Ok m ->
     VO.new (Dist.version d) = Ok vc ->
     exists r, MatchSpec_match re m d = Ok r) /\
  (forall (cache : pystr -> option Cache.object) (c : pystr) (vc : VersionOrder),
     reachable cache -> VO.new c = Ok vc ->
     fst (Cache.new cache c) = Ok (built vc)).
Proof.
  split; [exact spec_answers|].
  split; [|intros cache c vc R C; apply (new_finished cache c vc R); exact C].
  intros s target optional normalize m d vc H C.
  unfold MatchSpec_new in H.
  destruct (Py.partition "(" s) as [text oparts].
  destruct (match oparts with [] => _ | _ => _ end) as [[tg op]|]; cbn [bind] in H;
    [|discriminate].
  pose proof (build_matcher _ _ _ _ _ H) as B.
  unfold MatchSpec_match. destruct d as [name version build].
  cbn [Dist.quad Dist.name Dist.version Dist.build_string] in *.
  destruct (negb (Py.eqb name (MS.name m))); [eexists; reflexivity|].
  unfold MatchSpec_match_fast.
  destruct (MS.match_fast m) as [|vs|v b|vs rx]; try (eexists; reflexivity).
  - destruct B as [sp V]. exact (spec_answers sp vs version vc V C).
  - destruct B as [[sp V] [f R]]. rewrite R.
    destruct (f build); [|eexists; reflexivity].
    exact (spec_answers sp vs version vc V C).
Qed.

End Answers.

Lemma valid_candidate_answered_witness :
  (VersionSpec_new Re.compile ">=1.7,<2|1.0*" =
     Ok (VSTuple TagStrAny
           [VSTuple TagStrAll [VSEval ">=1.7" OpGe (parsed "1.7");
                               VSEval "<2" OpLt (parsed "2")];
            VSEval "1.0*" OpStartswith (parsed "1.0")]) /\
   VO.new "1.0rc1" = Ok (parsed "1.0rc1")) /\
  exists r, VersionSpec_match Re.compile
              (VSTuple TagStrAny
                 [VSTuple TagStrAll [VSEval ">=1.7" OpGe (parsed "1.7");
                                     VSEval "<2" OpLt (parsed "2")];
                  VSEval "1.0*" OpStartswith (parsed "1.0")]) "1.0rc1" = Ok r.
Proof.
  split; [split; vm_compute; reflexivity|].
  apply (proj1 (valid_candidate_answered Re.compile) ">=1.7,<2|1.0*" _ "1.0rc1"
               (parsed "1.0rc1")); vm_compute; reflexivity.
Defined.

(** ** Bare versions *)

Lemma endswith_absent : forall c n,
  Py.contains c n = false -> Py.endswith n [c] = false.
Proof.
  intros c n H. unfold Py.endswith. rewrite <- contains_rev in H.
  destruct (rev n) as [|x r]; [reflexivity|].
  unfold Py.contains in H. simpl in H. apply orb_false_iff in H.
  simpl. rewrite Ascii.eqb_sym, (proj1 H). reflexivity.
Qed.

Lemma eqb_app_false : forall (x y : pystr), y <> [] -> Py.eqb x (x ++ y) = false.
Proof.
  intros x y N. destruct (Py.eqb x (x ++ y)) eqn:E; [|reflexivity].
  apply eqb_true_iff in E. exfalso. apply N.
  rewrite <- (app_nil_r x) in E at 1. exact (eq_sym (app_inv_head _ _ _ E)).
Qed.

Section BareVersions.

Variable re : pystr -> option (pystr -> bool).

Lemma bare_version_compiles : forall s v,
  VO.new s = Ok v -> Py.contains "*" (VO.str v) = false ->
  VersionSpec_new re (VO.str v) = Ok (VSExact (VO.str v)).
Proof.
  intros s v H NS.
  destruct (parsed_text s v H) as [a [r [E [V [B P]]]]].
  rewrite E in *.
  destruct (valid_contains (a :: r) V) as [D1 [D2 _]].
  simpl in V. apply andb_true_iff in V. destruct V as [Va Vr].
  destruct (valid_char_plain a Va) as [C1 [C2 [C3 [C4 [C5 C6]]]]].
  rewrite new_leaf; [|apply regex_split_other; exact C1|exact D1|exact D2].
  unfold VersionSpec_leaf.
  cbn [existsb Py.startswith list_ascii_of_string].
  rewrite (Ascii.eqb_sym "=" a), (Ascii.eqb_sym "<" a), (Ascii.eqb_sym ">" a),
    (Ascii.eqb_sym "!" a), C4, C5, C6, B. cbn [andb orb].
  destruct (Py.eqb (a :: r) ["*"%char]) eqn:Q.
  { apply eqb_true_iff in Q. rewrite Q in NS. discriminate NS. }
  rewrite (rstrip_char_absent "*" (a :: r) NS), NS.
  rewrite (endswith_absent "*" (a :: r) NS). reflexivity.
Qed.

(** X13: a valid canonical version without star, used as a spec,
    compiles to an exact spec that compares texts: it accepts that text
    only, and so rejects the same version written with one more [.0],
    which the spec with [==] before it accepts. *)
Theorem bare_version_textual : forall (s : pystr) (v : VersionOrder),
  VO.new s = Ok v -> Py.contains "*" (VO.str v) = false ->
  (exists vs, VersionSpec_new re (VO.str v) = Ok vs /\
              VersionSpec_is_exact vs = true) /\
  (forall c, version_matches re (VO.str v) c = Ok (Py.eqb (VO.str v) c)) /\
  version_matches re (VO.str v) (VO.str v ++ ".0") = Ok false /\
  version_matches re ("==" ++ VO.str v) (VO.str v ++ ".0") = Ok true.
Proof.
  intros s v H NS. pose proof (bare_version_compiles s v H NS) as C.
  assert (M : forall c, version_matches re (VO.str v) c = Ok (Py.eqb (VO.str v) c)).
  { intro c. unfold version_matches. rewrite C. reflexivity. }
  split; [eexists; split; [exact C|reflexivity]|].
  split; [exact M|]. split.
  - rewrite M, eqb_app_false; [reflexivity|discriminate].
  - rewrite (relation_spec_matches re s v "==" OpEq _ H); [|left; reflexivity].
    destruct (new_trailing_zero s v H) as [v' [P E]].
    rewrite P. cbn [bind apply_op]. rewrite VO_eq_sym, E. reflexivity.
Qed.

End BareVersions.

Lemma bare_version_textual_witness :
  (VO.new "1.7" = Ok (parsed "1.7") /\ Py.contains "*" (VO.str (parsed "1.7")) = false) /\
  version_matches Re.compile (VO.str (parsed "1.7")) (VO.str (parsed "1.7") ++ ".0")
  = Ok false.
Proof.
  split; [split; vm_compute; reflexivity|].
  apply (proj1 (proj2 (proj2
           (bare_version_textual Re.compile "1.7" (parsed "1.7") eq_refl eq_refl)))).
Defined.

(** ** One more number *)

Lemma lt_step_zero : forall n,
  VO.lt_step (fillvalue, TInt n) = if (n =? 0)%N then None else Some true.
Proof.
  intro n. unfold VO.lt_step, token_eqb, fillvalue.
  destruct (token_eq_dec (TInt 0) (TInt n)) as [E|E].
  - injection E as <-. reflexivity.
  - destruct (N.eqb_spec n 0) as [->|D]; [congruence|].
    cbn. f_equal. apply N.ltb_lt. lia.
Qed.

Lemma lt_part_number : forall r n,
  VO.lt_part (r, r ++ [[TInt n]]) = if (n =? 0)%N then None else Some true.
Proof.
  intros r n. rewrite <- (app_nil_r r) at 1. rewrite lt_part_prefix.
  change (VO.lt_part ([], [[TInt n]])) with
    (match match VO.lt_step (fillvalue, TInt n) with Some z => Some z | None => None end
     with Some z => Some z | None => None end).
  rewrite lt_step_zero. destruct (n =? 0)%N; reflexivity.
Qed.

Lemma new_number_component : forall s v x,
  VO.new s = Ok v -> Py.isdigit x = true -> fits_int x = true ->
  exists v', VO.new (VO.str v ++ "." ++ x) = Ok v' /\
             VO_cmp v v' = if (Py.int_value x =? 0)%N then None else Some true.
Proof.
  intros s v x H D FX.
  assert (DX : forallb Py.isdigit_char x = true) by (destruct x; [discriminate|exact D]).
  assert (CX : forallb comp_char x = true).
  { clear D FX. induction x as [|c x IH]; [reflexivity|]. simpl in *.
    apply andb_true_iff in DX. destruct DX as [D1 D2].
    unfold comp_char at 1. rewrite D1, (IH D2). reflexivity. }
  destruct (comp_chars_facts x CX) as [F1 [F2 [F3 [F4 F5]]]].
  change (list_ascii_of_string ".") with ["."%char].
  destruct (new_append s v ("."%char :: x) H) as [message [e [m [l [A [B [C K]]]]]]];
    [simpl; exact F1|simpl; exact F2|simpl; exact F3|].
  pose proof (parse_epoch_component message x D FX) as PC.
  assert (PC' : mapM (VO.parse_component message) [x] = Ok [[TInt (Py.int_value x)]]).
  { simpl. rewrite PC. reflexivity. }
  assert (CA : forall y, components (y ++ "."%char :: x) = components y ++ [x]).
  { intro y. apply (components_app_component y x F4 F5). }
  destruct l as [l0|].
  - specialize (K (version v) (local v ++ [[TInt (Py.int_value x)]]) B).
    eexists. split.
    + apply K. cbn [local_components option_map]. rewrite CA.
      apply mapM_app; [exact C|exact PC'].
    + rewrite VO_cmp_unfold. cbn [version local].
      rewrite lt_part_refl. apply lt_part_number.
  - specialize (K (version v ++ [[TInt (Py.int_value x)]]) []).
    eexists. split.
    + apply K; [|reflexivity]. rewrite CA.
      apply (mapM_app _ _ _ (e :: components m) [x]); [exact B|exact PC'].
    + rewrite VO_cmp_unfold. cbn [version local].
      rewrite lt_part_number, (local_empty _ _ C).
      destruct (Py.int_value x =? 0)%N; reflexivity.
Qed.

(** X14: one more component made of at most 4300 digits, the length
    up to which [int] converts a string of digits, gives a valid version
    that is equal to the original when the number is zero and above it
    otherwise; it is never below. *)
Theorem further_number_component : forall (s x : pystr) (v : VersionOrder),
  VO.new s = Ok v -> Py.isdigit x = true -> fits_int x = true ->
  exists v', VO.new (VO.str v ++ "." ++ x) = Ok v' /\
             VO.eq v v' = (Py.int_value x =? 0)%N /\
             VO.lt v v' = negb (Py.int_value x =? 0)%N /\
             VO.lt v' v = false.
Proof.
  intros s x v H D FX.
  destruct (new_number_component s v x H D FX) as [v' [P C]].
  exists v'. split; [exact P|].
  rewrite eq_of_cmp, !lt_of_cmp, (VO_cmp_flip v v'), C.
  destruct (Py.int_value x =? 0)%N; repeat split; reflexivity.
Qed.

Lemma further_number_component_witness :
  (VO.new "1.7rc1" = Ok (parsed "1.7rc1") /\ Py.isdigit "12" = true /\
   fits_int "12" = true) /\
  exists v', VO.new (VO.str (parsed "1.7rc1") ++ "." ++ "12") = Ok v' /\
             VO.eq (parsed "1.7rc1") v' = (Py.int_value "12" =? 0)%N /\
             VO.lt (parsed "1.7rc1") v' = negb (Py.int_value "12" =? 0)%N /\
             VO.lt v' (parsed "1.7rc1") = false.
Proof.
  split; [repeat split; vm_compute; reflexivity|].
  apply (further_number_component "1.7rc1" "12" (parsed "1.7rc1"));
    vm_compute; reflexivity.
Defined.

(** ** Alternatives and conjunctions *)

Section BarAndComma.

Variable re : pystr -> option (pystr -> bool).

Lemma fuel_enough : forall n spec,
  length spec < n -> VersionSpec_fuel re n spec = Some (VersionSpec_new re spec).
Proof.
  induction n as [|n IH]; intros spec L; [lia|].
  destruct (Nat.eq_dec (length spec) n) as [<-|D].
  - apply VersionSpec_new_fuel.
  - apply VersionSpec_fuel_mono. apply IH. lia.
Qed.

Lemma compile_all_mapM :
  forall (f : pystr -> option (result VersionSpec)) (g : pystr -> result VersionSpec) l,
    (forall x, In x l -> f x = Some (g x)) ->
    compile_all f l = Some (mapM g l).
Proof.
  intros f g. induction l as [|s l IH]; intro H; [reflexivity|].
  cbn [compile_all mapM]. rewrite (H s (or_introl eq_refl)).
  rewrite IH by (intros x I; apply H; right; exact I).
  destruct (g s); [|reflexivity]. destruct (mapM g l); reflexivity.
Qed.

Lemma new_split : forall (sep : ascii) (t : tag) (a b : pystr),
  (sep = "|"%char /\ t = TagStrAny \/
   sep = ","%char /\ t = TagStrAll /\
   Py.contains "|" a = false /\ Py.contains "|" b = false) ->
  Py.startswith a "^" = false ->
  Py.contains sep a = false -> Py.contains sep b = false ->
  VersionSpec_new re (a ++ sep :: b) =
  (va <- VersionSpec_new re a ;; vb <- VersionSpec_new re b ;;
   Ok (VSTuple t [va; vb])).
Proof.
  intros sep t a b K A Na Nb.
  set (spec := a ++ sep :: b).
  assert (R : regex_split spec = None).
  { unfold spec. destruct a as [|c a]; simpl.
    - destruct K as [[-> _]|[-> _]]; destruct b; reflexivity.
    - cbn [Py.startswith list_ascii_of_string] in A.
      rewrite startswith_nil, andb_true_r, Ascii.eqb_sym in A. rewrite A.
      destruct (a ++ sep :: b); reflexivity. }
  assert (S : Py.split sep spec = [a; b]).
  { unfold spec. rewrite split_app_sep, (split_nosep sep a Na), (split_nosep sep b Nb).
    reflexivity. }
  assert (C : compile_all (VersionSpec_fuel re (length spec)) [a; b] =
              Some (mapM (VersionSpec_new re) [a; b])).
  { apply compile_all_mapM. intros x I. apply fuel_enough.
    unfold spec. rewrite length_app. simpl.
    destruct I as [<-|[<-|[]]]; lia. }
  assert (T : tupled t (Some (mapM (VersionSpec_new re) [a; b])) =
              Some (va <- VersionSpec_new re a ;; vb <- VersionSpec_new re b ;;
                    Ok (VSTuple t [va; vb]))).
  { cbn [mapM]. destruct (VersionSpec_new re a); [|reflexivity].
    destruct (VersionSpec_new re b); reflexivity. }
  unfold VersionSpec_new. cbn [VersionSpec_fuel]. rewrite R.
  assert (Cs : Py.contains sep spec = true).
  { unfold spec. rewrite contains_app. unfold Py.contains at 2. simpl.
    rewrite Ascii.eqb_refl. apply orb_true_r. }
  destruct K as [[-> ->]|[-> [-> [Pa Pb]]]].
  - rewrite Cs, S, C, T. reflexivity.
  - assert (Cb : Py.contains "|" spec = false).
    { unfold spec. rewrite contains_app. unfold Py.contains at 2. simpl.
      fold (Py.contains "|" b). rewrite Pa, Pb. reflexivity. }
    rewrite Cb, Cs, S, C, T. reflexivity.
Qed.

Lemma matches_inv : forall spec c r,
  version_matches re spec c = Ok r ->
  exists vs, VersionSpec_new re spec = Ok vs /\ VersionSpec_match re vs c = Ok r.
Proof.
  intros spec c r. unfold version_matches.
  destruct (VersionSpec_new re spec) as [vs|]; cbn [bind]; [|discriminate].
  intro H. exists vs. split; [reflexivity|exact H].
Qed.

(** X15: a bar between two specs gives the disjunction of their
    answers and a comma the conjunction, and the comma binds tighter than
    the bar on either side; the operands hold no bar and no comma and do
    not begin with [^]. *)
Theorem bar_and_comma :
  forall (x y z c : pystr) (bx b_y bz : bool),
    Forall (fun t => Py.startswith t "^" = false /\
                     Py.contains "|" t = false /\ Py.contains "," t = false) [x; y; z] ->
    version_matches re x c = Ok bx ->
    version_matches re y c = Ok b_y ->
    version_matches re z c = Ok bz ->
    version_matches re (x ++ "|" ++ y) c = Ok (bx || b_y) /\
    version_matches re (x ++ "," ++ y) c = Ok (bx && b_y) /\
    version_matches re (x ++ "," ++ y ++ "|" ++ z) c = Ok (bx && b_y || bz) /\
    version_matches re (x ++ "|" ++ y ++ "," ++ z) c = Ok (bx || b_y && bz).
Proof.
  intros x y z c bx b_y bz F Mx My Mz.
  inversion F as [|? ? [Sx [Bx Cx]] F1]; subst.
  inversion F1 as [|? ? [Sy [By Cy]] F2]; subst.
  inversion F2 as [|? ? [Sz [Bz Cz]] _]; subst.
  destruct (matches_inv x c bx Mx) as [vx [Nx Ex]].
  destruct (matches_inv y c b_y My) as [vy [Ny Ey]].
  destruct (matches_inv z c bz Mz) as [vz [Nz Ez]].
  change (list_ascii_of_string "|") with ["|"%char].
  change (list_ascii_of_string ",") with [","%char].
  cbn [app].
  assert (XY : VersionSpec_new re (x ++ ","%char :: y) = Ok (VSTuple TagStrAll [vx; vy])).
  { rewrite (new_split "," TagStrAll x y); [rewrite Nx, Ny; reflexivity| |assumption..].
    right. repeat split; assumption. }
  assert (YZ : VersionSpec_new re (y ++ ","%char :: z) = Ok (VSTuple TagStrAll [vy; vz])).
  { rewrite (new_split "," TagStrAll y z); [rewrite Ny, Nz; reflexivity| |assumption..].
    right. repeat split; assumption. }
  unfold version_matches. repeat split.
  - rewrite (new_split "|" TagStrAny x y); [|left; split; reflexivity|assumption..].
    rewrite Nx, Ny. cbn [bind VersionSpec_match tag_is_str_all]. rewrite Ex. cbn [bind].
    destruct bx; [reflexivity|]. rewrite Ey. cbn [bind]. destruct b_y; reflexivity.
  - rewrite XY. cbn [bind VersionSpec_match tag_is_str_all]. rewrite Ex. cbn [bind].
    destruct bx; [|reflexivity]. rewrite Ey. cbn [bind]. destruct b_y; reflexivity.
  - change (x ++ ","%char :: y ++ "|"%char :: z)
      with (x ++ (","%char :: y) ++ "|"%char :: z).
    rewrite app_assoc.
    rewrite (new_split "|" TagStrAny (x ++ ","%char :: y) z);
      [|left; split; reflexivity| | |assumption].
    + rewrite XY, Nz. cbn [bind VersionSpec_match tag_is_str_all].
      rewrite Ex. cbn [bind].
      destruct bx; [rewrite Ey; cbn [bind]; destruct b_y|];
        cbn [bind andb orb]; try reflexivity;
        rewrite Ez; cbn [bind]; destruct bz; reflexivity.
    + destruct x as [|a x]; [reflexivity|].
      cbn [app Py.startswith list_ascii_of_string] in *.
      rewrite startswith_nil in *. exact Sx.
    + rewrite contains_app. unfold Py.contains at 2. simpl.
      fold (Py.contains "|" y). rewrite Bx, By. reflexivity.
  - rewrite (new_split "|" TagStrAny x (y ++ ","%char :: z));
      [|left; split; reflexivity|assumption|assumption|].
    + rewrite Nx, YZ. cbn [bind VersionSpec_match tag_is_str_all].
      rewrite Ex. cbn [bind]. destruct bx; [reflexivity|].
      rewrite Ey. cbn [bind]. destruct b_y; [|reflexivity].
      rewrite Ez. cbn [bind]. destruct bz; reflexivity.
    + rewrite contains_app. unfold Py.contains at 2. simpl.
      fold (Py.contains "|" z). rewrite By, Bz. reflexivity.
Qed.

End BarAndComma.

Lemma bar_and_comma_witness :
  (Forall (fun t : pystr => Py.startswith t "^" = false /\
                    Py.contains "|" t = false /\ Py.contains "," t = false)
          [(">=1.7" : pystr); ("<2" : pystr); ("0.9*" : pystr)] /\
   version_matches Re.compile ">=1.7" "0.9.1" = Ok false /\
   version_matches Re.compile "<2" "0.9.1" = Ok true /\
   version_matches Re.compile "0.9*" "0.9.1" = Ok true) /\
  version_matches Re.compile (">=1.7" ++ "," ++ "<2" ++ "|" ++ "0.9*") "0.9.1" =
  Ok (false && true || true).
Proof.
  split.
  - split; [repeat constructor|]. repeat split; vm_compute; reflexivity.
  - refine (proj1 (proj2 (proj2
             (bar_and_comma Re.compile ">=1.7" "<2" "0.9*" "0.9.1" false true true
                _ _ _ _))));
      try (vm_compute; reflexivity).
    repeat constructor.
Defined.

(** ** Specs written as on the command line *)

Lemma split_ws_token : forall x,
  x <> [] -> forallb (fun d => negb (Py.isspace d)) x = true -> Py.split_ws x = [x].
Proof.
  induction x as [|c x IH]; intros N S; [congruence|].
  simpl in S. apply andb_true_iff in S. destruct S as [Sc Sx].
  apply negb_true_iff in Sc. cbn [Py.split_ws]. rewrite Sc.
  destruct x as [|d x]; [reflexivity|].
  pose proof Sx as Sx'. simpl in Sx'. apply andb_true_iff in Sx'.
  destruct Sx' as [Sd _]. apply negb_true_iff in Sd. rewrite Sd.
  rewrite IH; [reflexivity|discriminate|exact Sx].
Qed.

Lemma split_ws_app : forall x sp r,
  x <> [] -> forallb (fun d => negb (Py.isspace d)) x = true ->
  Py.isspace sp = true ->
  Py.split_ws (x ++ sp :: r) = x :: Py.split_ws r.
Proof.
  induction x as [|c x IH]; intros sp r N S P; [congruence|].
  simpl in S. apply andb_true_iff in S. destruct S as [Sc Sx].
  apply negb_true_iff in Sc.
  destruct x as [|d x].
  - cbn [app Py.split_ws]. rewrite Sc, P. reflexivity.
  - pose proof Sx as Sx'. simpl in Sx'. apply andb_true_iff in Sx'.
    destruct Sx' as [Sd _]. apply negb_true_iff in Sd.
    change ((c :: d :: x) ++ sp :: r) with (c :: d :: (x ++ sp :: r)).
    change (Py.split_ws (c :: d :: (x ++ sp :: r))) with
      (if Py.isspace c then Py.split_ws (d :: (x ++ sp :: r))
       else if Py.isspace d then [c] :: Py.split_ws (d :: (x ++ sp :: r))
       else match Py.split_ws ((d :: x) ++ sp :: r) with
            | p :: ps => (c :: p) :: ps
            | [] => [[c]]
            end).
    rewrite Sc, Sd.
    rewrite (IH sp r); [reflexivity|discriminate|exact Sx|exact P].
Qed.

Lemma strip_two_tokens : forall x y,
  x <> [] -> y <> [] ->
  forallb (fun d => negb (Py.isspace d)) x = true ->
  forallb (fun d => negb (Py.isspace d)) y = true ->
  Py.strip (x ++ " "%char :: y) = x ++ " "%char :: y.
Proof.
  intros x y Nx Ny Sx Sy. unfold Py.strip, Py.rstrip.
  rewrite (lstrip_fixed (x ++ " "%char :: y)).
  - rewrite lstrip_fixed; [apply rev_involutive|].
    rewrite rev_app_distr. cbn [rev]. rewrite <- app_assoc.
    destruct (rev y) as [|c t] eqn:E.
    + exfalso. apply Ny. rewrite <- (rev_involutive y), E. reflexivity.
    + cbn [app]. apply negb_true_iff.
      rewrite forallb_forall in Sy. apply Sy. apply in_rev. rewrite E. left. reflexivity.
  - destruct x as [|c x]; [congruence|]. simpl in Sx.
    apply andb_true_iff in Sx. apply negb_true_iff. exact (proj1 Sx).
Qed.

Lemma partition_absent : forall sep s,
  Py.contains sep s = false -> Py.partition sep s = (s, []).
Proof.
  intros sep. induction s as [|c s IH]; [reflexivity|].
  unfold Py.contains. simpl. intro H. apply orb_false_iff in H. destruct H as [H1 H2].
  rewrite H1, (IH H2). reflexivity.
Qed.

Lemma space_operators_plain : forall x b,
  forallb (fun c => negb (operator_char c)) x = true ->
  x <> [] -> forall y, space_operators b (x ++ y) = x ++ space_operators false y.
Proof.
  induction x as [|c x IH]; intros b P N y; [congruence|].
  simpl in P. apply andb_true_iff in P. destruct P as [Pc Px].
  apply negb_true_iff in Pc. unfold operator_char in Pc.
  change ((c :: x) ++ y) with (c :: (x ++ y)).
  cbn [space_operators]. rewrite Pc.
  destruct x as [|d x]; [reflexivity|].
  rewrite (IH false Px); [reflexivity|discriminate].
Qed.

Lemma space_operators_text : forall x b,
  forallb (fun c => negb (operator_char c)) x = true -> space_operators b x = x.
Proof.
  induction x as [|c x IH]; intros b P; [reflexivity|].
  simpl in P. apply andb_true_iff in P. destruct P as [Pc Px].
  apply negb_true_iff in Pc. unfold operator_char in Pc.
  cbn [space_operators]. rewrite Pc, (IH false Px). reflexivity.
Qed.

Lemma startswith_blocked : forall x c y e,
  Py.startswith x e = false -> Py.contains c e = false ->
  Py.startswith (x ++ c :: y) e = false.
Proof.
  induction x as [|b x IH]; intros c y e S C.
  - destruct e as [|a e]; [discriminate S|].
    unfold Py.contains in C. simpl in C. apply orb_false_iff in C.
    cbn [app Py.startswith]. rewrite (proj1 C). reflexivity.
  - destruct e as [|a e]; [discriminate S|].
    unfold Py.contains in C. simpl in C. apply orb_false_iff in C.
    cbn [app Py.startswith] in *.
    destruct (a =? b)%char; [|reflexivity]. cbn [andb] in *.
    apply IH; [exact S|exact (proj2 C)].
Qed.

Lemma endswith_blocked : forall p c s e,
  Py.endswith s e = false -> Py.contains c e = false ->
  Py.endswith (p ++ c :: s) e = false.
Proof.
  intros p c s e S C. unfold Py.endswith in *.
  rewrite rev_app_distr. cbn [rev]. rewrite <- app_assoc. cbn [app].
  apply startswith_blocked; [exact S|]. rewrite contains_rev. exact C.
Qed.

Lemma valid_char_text : forall c,
  VO.valid_char c = true -> (c =? "!")%char = false ->
  operator_char c = false /\ (c =? "(")%char = false.
Proof.
  intros c. destruct c as [[] [] [] [] [] [] [] []]; vm_compute; intros H1 H2;
    try discriminate H1; try discriminate H2; split; reflexivity.
Qed.

Lemma valid_text : forall t,
  forallb VO.valid_char t = true -> Py.contains "!" t = false ->
  forallb (fun c => negb (operator_char c)) t = true /\ Py.contains "(" t = false.
Proof.
  induction t as [|c t IH]; [split; reflexivity|].
  unfold Py.contains. simpl. intros V N.
  apply andb_true_iff in V. destruct V as [Vc Vt].
  apply orb_false_iff in N. destruct N as [Nc Nt].
  destruct (valid_char_text c Vc Nc) as [A B].
  destruct (IH Vt Nt) as [A' B']. unfold Py.contains in B'.
  rewrite A, B, A', B'. split; reflexivity.
Qed.

Lemma name_chars : forall n,
  forallb name_char n = true ->
  forallb (fun d => negb (Py.isspace d)) n = true /\
  forallb (fun c => negb (operator_char c)) n = true /\
  Py.contains "(" n = false.
Proof.
  induction n as [|c n IH]; [repeat split|].
  unfold Py.contains. simpl. intro H.
  apply andb_true_iff in H. destruct H as [Hc Hn].
  unfold name_char in Hc. apply andb_true_iff in Hc. destruct Hc as [Hc H3].
  apply andb_true_iff in Hc. destruct Hc as [H1 H2].
  destruct (IH Hn) as [A [B C]]. unfold Py.contains in C.
  apply negb_true_iff in H3. rewrite H1, H2, H3, A, B, C. repeat split.
Qed.

Lemma operator_char_facts : forall c,
  operator_char c = true ->
  Py.isspace c = false /\ (c =? "(")%char = false /\
  Py.contains c ".tar.bz2" = false.
Proof.
  intros c. destruct c as [[] [] [] [] [] [] [] []]; vm_compute; intro H;
    try discriminate H; repeat split.
Qed.

Lemma space_operators_run : forall sym t,
  forallb operator_char sym = true ->
  forallb (fun c => negb (operator_char c)) t = true ->
  space_operators true (sym ++ t) = sym ++ t.
Proof.
  induction sym as [|c sym IH]; intros t S T.
  - apply space_operators_text. exact T.
  - simpl in S. apply andb_true_iff in S. destruct S as [Sc Ss].
    unfold operator_char in Sc.
    change ((c :: sym) ++ t) with (c :: (sym ++ t)).
    cbn [space_operators]. rewrite Sc, (IH t Ss T). reflexivity.
Qed.

Lemma endswith_blocked_run : forall q p s e,
  q <> [] -> forallb (fun c => negb (Py.contains c e)) q = true ->
  Py.endswith s e = false -> Py.endswith (p ++ q ++ s) e = false.
Proof.
  intros q p s e N Q S.
  destruct (exists_last N) as [q' [c ->]].
  rewrite forallb_app in Q. apply andb_true_iff in Q. destruct Q as [_ Q].
  simpl in Q. rewrite andb_true_r in Q. apply negb_true_iff in Q.
  rewrite <- app_assoc, app_assoc. cbn [app].
  apply endswith_blocked; assumption.
Qed.

Section CommandLine.

Variable re : pystr -> option (pystr -> bool).

(** X16: on a spec written without spaces as a name, one of the six
    operators and the canonical string of a valid version (without epoch
    mark and not ending in the archive extension), [conda_match_eval]
    returns false for a package of another name and otherwise compares the
    package version with that version by the operator, raising the
    version's parsing error when the package version is malformed and not
    in the memo table of [_VersionOrder]. *)
Theorem conda_match_eval_relation :
  forall (n s c name build sym : pystr) (op : relop) (v : VersionOrder),
    VO.new s = Ok v ->
    Py.contains "!" (VO.str v) = false ->
    Py.endswith (VO.str v) CONDA_TARBALL_EXTENSION = false ->
    n <> [] -> forallb name_char n = true ->
    In (sym, op) relation_ops ->
    conda_match_eval re (n ++ sym ++ VO.str v) name c build =
    if Py.eqb name n then (vc <- VO.new c ;; apply_op op vc v) else Ok false.
Proof.
  intros n s c name build sym op v H NE NT Nn Cn I.
  pose proof (relation_spec_compiles re s v sym op H I) as VS.
  destruct (parsed_text s v H) as [a [r [E [V [B P]]]]].
  rewrite E in *.
  destruct (valid_text (a :: r) V NE) as [T1 T2].
  destruct (valid_contains (a :: r) V) as [_ [_ T3]].
  destruct (name_chars n Cn) as [N1 [N2 N3]].
  assert (S : forallb operator_char sym = true /\ sym <> []).
  { unfold relation_ops in I. simpl in I.
    destruct I as [I|[I|[I|[I|[I|[I|[]]]]]]]; injection I as <- <-;
      split; try reflexivity; discriminate. }
  destruct S as [S1 S2].
  set (y := sym ++ a :: r) in *.
  assert (Y1 : forallb (fun d => negb (Py.isspace d)) y = true).
  { unfold y. rewrite forallb_app, T3, andb_true_r.
    apply forallb_forall. intros d D. rewrite forallb_forall in S1.
    rewrite (proj1 (operator_char_facts d (S1 d D))). reflexivity. }
  assert (Y2 : Py.contains "(" y = false).
  { unfold y. rewrite contains_app, T2, orb_false_r.
    unfold Py.contains. apply not_true_iff_false. intro X.
    apply existsb_exists in X. destruct X as [d [D X]].
    rewrite forallb_forall in S1.
    rewrite (proj1 (proj2 (operator_char_facts d (S1 d D)))) in X. discriminate X. }
  assert (Y3 : y <> []) by (unfold y; destruct sym; discriminate).
  assert (SO : space_operators false (n ++ y) = n ++ " "%char :: y).
  { rewrite (space_operators_plain n false N2 Nn). f_equal.
    unfold y. destruct sym as [|o sym]; [congruence|].
    simpl in S1. apply andb_true_iff in S1. destruct S1 as [So Ss].
    unfold operator_char in So.
    change ((o :: sym) ++ a :: r) with (o :: (sym ++ a :: r)).
    cbn [space_operators]. rewrite So. cbn [app].
    rewrite (space_operators_run sym (a :: r) Ss T1). reflexivity. }
  assert (EW : Py.endswith (n ++ " "%char :: y) CONDA_TARBALL_EXTENSION = false).
  { change (n ++ " "%char :: y) with (n ++ [" "%char] ++ y). rewrite app_assoc.
    unfold y. apply endswith_blocked_run; [exact S2| |exact NT].
    apply forallb_forall. intros d D. rewrite forallb_forall in S1.
    unfold CONDA_TARBALL_EXTENSION.
    rewrite (proj2 (proj2 (operator_char_facts d (S1 d D)))). reflexivity. }
  assert (SW : Py.split_ws (n ++ " "%char :: y) = [n; y]).
  { rewrite (split_ws_app n " " y Nn N1 eq_refl), (split_ws_token y Y3 Y1).
    reflexivity. }
  assert (PA : Py.partition "(" (n ++ " "%char :: y) = (n ++ " "%char :: y, [])).
  { apply partition_absent. rewrite contains_app, N3. unfold Py.contains at 1.
    simpl. exact Y2. }
  unfold conda_match_eval, spec_matches, MatchSpec_new. rewrite SO, PA.
  cbn [bind]. unfold MatchSpec_build.
  rewrite (strip_two_tokens n y Nn Y3 N1 Y1).
  unfold split_parts. rewrite EW, SW. cbn [length Nat.leb Nat.eqb andb negb nth].
  rewrite VS. cbn [bind VersionSpec_is_exact Nat.eqb].
  unfold MatchSpec_match, MatchSpec_match_fast.
  cbn [Dist.quad Dist.name Dist.version Dist.build_string MS.name MS.match_fast
       VersionSpec_match].
  destruct (Py.eqb name n); reflexivity.
Qed.

End CommandLine.

Lemma conda_match_eval_relation_witness :
  (VO.new "1.7" = Ok (parsed "1.7") /\
   Py.contains "!" (VO.str (parsed "1.7")) = false /\
   Py.endswith (VO.str (parsed "1.7")) CONDA_TARBALL_EXTENSION = false /\
   ("numpy" : pystr) <> [] /\ forallb name_char "numpy" = true /\
   In ((">=" : pystr), OpGe) relation_ops) /\
  conda_match_eval Re.compile ("numpy" ++ ">=" ++ VO.str (parsed "1.7"))
                   "numpy" "1.9.2" "py27_0" = Ok true.
Proof.
  split.
  - repeat split; try (vm_compute; reflexivity); try discriminate.
    right. right. right. left. reflexivity.
  - apply (conda_match_eval_relation Re.compile "numpy" "1.7" "1.9.2" "numpy" "py27_0"
             ">=" OpGe (parsed "1.7")); try (vm_compute; reflexivity); try discriminate.
    right. right. right. left. reflexivity.
Defined.

(** ** Ranges written as on the command line *)

Lemma space_operators_op : forall sym t,
  forallb operator_char sym = true -> sym <> [] ->
  forallb (fun c => negb (operator_char c)) t = true ->
  space_operators false (sym ++ t) = " "%char :: sym ++ t.
Proof.
  intros sym t S N T. destruct sym as [|o sym]; [congruence|].
  simpl in S. apply andb_true_iff in S. destruct S as [So Ss].
  unfold operator_char in So.
  change ((o :: sym) ++ t) with (o :: (sym ++ t)).
  cbn [space_operators]. rewrite So. cbn [app].
  rewrite (space_operators_run sym t Ss T). reflexivity.
Qed.

Lemma space_operators_head : forall o rest,
  operator_char o = true ->
  space_operators false (o :: rest) = " "%char :: o :: space_operators true rest.
Proof.
  intros o rest H. unfold operator_char in H. cbn [space_operators].
  rewrite H. reflexivity.
Qed.

Lemma space_operators_run_plain : forall sym t z,
  forallb operator_char sym = true ->
  forallb (fun c => negb (operator_char c)) t = true -> t <> [] ->
  space_operators true (sym ++ t ++ z) = sym ++ t ++ space_operators false z.
Proof.
  induction sym as [|c sym IH]; intros t z S T N.
  - cbn [app]. apply space_operators_plain; assumption.
  - simpl in S. apply andb_true_iff in S. destruct S as [Sc Ss].
    unfold operator_char in Sc.
    change ((c :: sym) ++ t ++ z) with (c :: (sym ++ t ++ z)).
    cbn [space_operators]. rewrite Sc, (IH t z Ss T N). reflexivity.
Qed.

Lemma strip_clean : forall c x d,
  Py.isspace c = false -> Py.isspace d = false ->
  Py.strip (c :: x ++ [d]) = c :: x ++ [d].
Proof.
  intros c x d C D. unfold Py.strip, Py.rstrip.
  rewrite (lstrip_fixed (c :: x ++ [d]) C).
  change (c :: x ++ [d]) with ((c :: x) ++ [d]).
  rewrite rev_unit, (lstrip_fixed (d :: rev (c :: x)) D).
  rewrite <- rev_unit. apply rev_involutive.
Qed.

Lemma relation_symbol : forall sym op,
  In (sym, op) relation_ops ->
  forallb operator_char sym = true /\ sym <> [] /\
  Py.startswith sym "^" = false /\
  Py.contains "|" sym = false /\ Py.contains "," sym = false.
Proof.
  intros sym op I. unfold relation_ops in I. simpl in I.
  destruct I as [I|[I|[I|[I|[I|[I|[]]]]]]]; injection I as <- <-;
    repeat split; discriminate.
Qed.

Lemma operators_text : forall sym,
  forallb operator_char sym = true ->
  forallb (fun d => negb (Py.isspace d)) sym = true /\ Py.contains "(" sym = false /\
  forallb (fun c => negb (Py.contains c CONDA_TARBALL_EXTENSION)) sym = true.
Proof.
  intros sym H. rewrite forallb_forall in H. repeat split.
  - apply forallb_forall. intros d D.
    rewrite (proj1 (operator_char_facts d (H d D))). reflexivity.
  - unfold Py.contains. apply not_true_iff_false. intro X.
    apply existsb_exists in X. destruct X as [d [D X]].
    rewrite (proj1 (proj2 (operator_char_facts d (H d D)))) in X. discriminate X.
  - apply forallb_forall. intros d D. unfold CONDA_TARBALL_EXTENSION.
    rewrite (proj2 (proj2 (operator_char_facts d (H d D)))). reflexivity.
Qed.

Section Ranges.

Variable re : pystr -> option (pystr -> bool).

(** X17: a range written without spaces as a name (not empty, without
    whitespace, operator character or opening parenthesis), an operator and
    the canonical string of a valid version, a comma, and an operator and
    the canonical string of a valid version, where neither version has an
    epoch mark [!] and the second does not end in the archive extension
    [.tar.bz2], is never matched by [conda_match_eval], whatever the name,
    the version and the build of the package (the version being valid, or
    else not in the memo table of [_VersionOrder]): the space put before
    the second operator makes the second bound the build pattern, and
    leaves the version spec with an empty alternative after the comma that
    no valid version equals. *)
Theorem conda_match_eval_range_never_true :
  forall (n s1 s2 sym1 sym2 name c build : pystr) (op1 op2 : relop)
         (v1 v2 : VersionOrder),
    VO.new s1 = Ok v1 -> VO.new s2 = Ok v2 ->
    Py.contains "!" (VO.str v1) = false -> Py.contains "!" (VO.str v2) = false ->
    Py.endswith (VO.str v2) CONDA_TARBALL_EXTENSION = false ->
    n <> [] -> forallb name_char n = true ->
    In (sym1, op1) relation_ops -> In (sym2, op2) relation_ops ->
    conda_match_eval re (n ++ sym1 ++ VO.str v1 ++ "," ++ sym2 ++ VO.str v2)
                     name c build <> Ok true.
Proof.
  intros n s1 s2 sym1 sym2 name c build op1 op2 v1 v2 H1 H2 NE1 NE2 NT Nn Cn I1 I2.
  pose proof (relation_spec_compiles re s1 v1 sym1 op1 H1 I1) as VS.
  destruct (parsed_text s1 v1 H1) as [a1 [r1 [E1 [V1 _]]]].
  destruct (parsed_text s2 v2 H2) as [a2 [r2 [E2 [V2 _]]]].
  rewrite E1, E2 in *.
  set (t1 := a1 :: r1) in *. set (t2 := a2 :: r2) in *.
  destruct (valid_text t1 V1 NE1) as [P1 Q1].
  destruct (valid_text t2 V2 NE2) as [P2 Q2].
  destruct (valid_contains t1 V1) as [B1 [C1 W1]].
  destruct (valid_contains t2 V2) as [_ [_ W2]].
  destruct (name_chars n Cn) as [N1 [N2 N3]].
  destruct (relation_symbol sym1 op1 I1) as [S1 [Z1 [K1 [K2 K3]]]].
  destruct (relation_symbol sym2 op2 I2) as [S2 [Z2 _]].
  destruct (operators_text sym1 S1) as [O1 [O2 _]].
  destruct (operators_text sym2 S2) as [O3 [O4 O5]].
  change (list_ascii_of_string ",") with [","%char].
  set (y1 := (sym1 ++ t1) ++ [","%char]).
  set (y2 := sym2 ++ t2).
  assert (Y1 : forallb (fun d => negb (Py.isspace d)) y1 = true).
  { unfold y1. rewrite !forallb_app, O1, W1. reflexivity. }
  assert (Y2 : forallb (fun d => negb (Py.isspace d)) y2 = true).
  { unfold y2. rewrite forallb_app, O3, W2. reflexivity. }
  assert (Y3 : Py.contains "(" y1 = false).
  { unfold y1. rewrite !contains_app, O2, Q1. reflexivity. }
  assert (Y4 : Py.contains "(" y2 = false).
  { unfold y2. rewrite contains_app, O4, Q2. reflexivity. }
  assert (Y5 : y1 <> []) by (unfold y1; destruct (sym1 ++ t1); discriminate).
  assert (Y6 : y2 <> []) by (unfold y2, t2; destruct sym2; discriminate).
  assert (SO : space_operators false (n ++ sym1 ++ t1 ++ [","%char] ++ sym2 ++ t2) =
               n ++ " "%char :: y1 ++ " "%char :: y2).
  { rewrite (space_operators_plain n false N2 Nn). f_equal.
    destruct sym1 as [|o sym1]; [congruence|].
    simpl in S1. apply andb_true_iff in S1. destruct S1 as [So Ss].
    change ((o :: sym1) ++ t1 ++ [","%char] ++ sym2 ++ t2)
      with (o :: (sym1 ++ t1 ++ [","%char] ++ sym2 ++ t2)).
    rewrite (space_operators_head o _ So).
    rewrite (app_assoc t1 [","%char]).
    rewrite (space_operators_run_plain sym1 (t1 ++ [","%char]) (sym2 ++ t2) Ss).
    - rewrite (space_operators_op sym2 t2 S2 Z2 P2).
      unfold y1, y2. rewrite <- !app_assoc. reflexivity.
    - rewrite forallb_app, P1. reflexivity.
    - unfold t1. discriminate. }
  set (text := n ++ " "%char :: y1 ++ " "%char :: y2) in *.
  assert (ST : Py.strip text = text).
  { destruct n as [|c0 n']; [congruence|].
    destruct (exists_last Y6) as [y2' [d D]].
    assert (F : text = c0 :: (n' ++ " "%char :: y1 ++ " "%char :: y2') ++ [d]).
    { unfold text. rewrite D. cbn [app]. rewrite <- !app_assoc. cbn [app].
      rewrite <- !app_assoc. reflexivity. }
    rewrite F. apply strip_clean.
    - simpl in N1. apply andb_true_iff in N1. apply negb_true_iff. exact (proj1 N1).
    - rewrite D, forallb_app in Y2. apply andb_true_iff in Y2.
      destruct Y2 as [_ Y2]. simpl in Y2. rewrite andb_true_r in Y2.
      apply negb_true_iff. exact Y2. }
  assert (EW : Py.endswith text CONDA_TARBALL_EXTENSION = false).
  { unfold text, y2.
    replace (n ++ " "%char :: y1 ++ " "%char :: sym2 ++ t2)
      with ((n ++ " "%char :: y1 ++ [" "%char]) ++ sym2 ++ t2)
      by (rewrite <- !app_assoc; cbn [app]; rewrite <- !app_assoc; reflexivity).
    apply endswith_blocked_run; assumption. }
  assert (SW : Py.split_ws text = [n; y1; y2]).
  { unfold text. rewrite (split_ws_app n " " _ Nn N1 eq_refl).
    rewrite (split_ws_app y1 " " y2 Y5 Y1 eq_refl), (split_ws_token y2 Y6 Y2).
    reflexivity. }
  assert (PA : Py.partition "(" text = (text, [])).
  { apply partition_absent. unfold text.
    rewrite contains_app, N3. unfold Py.contains at 1. simpl.
    fold (Py.contains "(" (y1 ++ " "%char :: y2)).
    rewrite contains_app, Y3. unfold Py.contains at 1. simpl. exact Y4. }
  assert (VY : VersionSpec_new re y1 =
               Ok (VSTuple TagStrAll [VSEval (sym1 ++ t1) op1 v1; VSExact []])).
  { unfold y1. rewrite (new_split re "," TagStrAll (sym1 ++ t1) []).
    - rewrite VS. reflexivity.
    - right. repeat split. rewrite contains_app, K2, B1. reflexivity.
    - destruct sym1 as [|o sym1]; [congruence|].
      cbn [app Py.startswith list_ascii_of_string] in *.
      rewrite startswith_nil in *. exact K1.
    - rewrite contains_app, K3, C1. reflexivity.
    - reflexivity. }
  unfold conda_match_eval, spec_matches, MatchSpec_new.
  fold y2 in SO. rewrite SO, PA. cbn [bind]. unfold MatchSpec_build.
  rewrite ST. unfold split_parts. rewrite EW, SW.
  cbn [length Nat.leb Nat.eqb Nat.ltb andb negb nth].
  rewrite VY. cbn [bind VersionSpec_is_exact Nat.eqb].
  destruct (re _) as [m|]; cbn [bind]; [|discriminate].
  unfold MatchSpec_match, MatchSpec_match_fast.
  cbn [Dist.quad Dist.name Dist.version Dist.build_string MS.name MS.match_fast].
  destruct (negb (Py.eqb name n)); [discriminate|].
  destruct (re _) as [m'|]; [|discriminate].
  destruct (m' build); [|discriminate].
  cbn [VersionSpec_match tag_is_str_all].
  destruct (VO.new c) as [vc|] eqn:C; cbn [bind]; [|discriminate].
  destruct c as [|c0 c']; [discriminate C|].
  destruct (apply_op op1 vc v1) as [[|]|]; cbn [bind]; discriminate.
Qed.

End Ranges.

Lemma conda_match_eval_range_never_true_witness :
  conda_match_eval Re.compile ("numpy" ++ ">=" ++ VO.str (parsed "1.7") ++ "," ++
                               "<" ++ VO.str (parsed "2"))
                   "numpy" "1.9" "py27_0" <> Ok true.
Proof.
  apply (conda_match_eval_range_never_true Re.compile "numpy" "1.7" "2" ">=" "<"
           "numpy" "1.9" "py27_0" OpGe OpLt (parsed "1.7") (parsed "2"));
    try (vm_compute; reflexivity); try discriminate.
  - right. right. right. left. reflexivity.
  - right. right. right. right. left. reflexivity.
Defined.

(** ** The canonical string of a match spec *)

Lemma contains_lstrip : forall c s,
  Py.contains c s = false -> Py.contains c (Py.lstrip s) = false.
Proof.
  intros c s H. destruct (lstrip_suffix s) as [sp E]. rewrite E in H.
  rewrite contains_app in H. apply orb_false_iff in H. exact (proj2 H).
Qed.

Lemma contains_strip : forall c s,
  Py.contains c s = false -> Py.contains c (Py.strip s) = false.
Proof.
  intros c s H. unfold Py.strip. apply contains_lstrip in H.
  destruct (rstrip_prefix (Py.lstrip s)) as [sp E]. rewrite E in H.
  rewrite contains_app in H. apply orb_false_iff in H. exact (proj1 H).
Qed.

Lemma lstrip_length : forall s, length (Py.lstrip s) <= length s.
Proof.
  intro s. destruct (lstrip_suffix s) as [sp E]. rewrite E at 2.
  rewrite length_app. lia.
Qed.

Lemma strip_snoc_space : forall x sp,
  Py.isspace sp = true -> Py.lstrip x = x -> Py.rstrip x = x ->
  Py.strip (x ++ [sp]) = x.
Proof.
  intros x sp P L R. unfold Py.strip.
  destruct x as [|c x'].
  - simpl. rewrite P. reflexivity.
  - assert (C : Py.isspace c = false).
    { destruct (Py.isspace c) eqn:E; [|reflexivity].
      simpl in L. rewrite E in L. pose proof (lstrip_length x') as M.
      rewrite L in M. simpl in M. lia. }
    rewrite (lstrip_fixed ((c :: x') ++ [sp]) C).
    unfold Py.rstrip in *. rewrite rev_unit. cbn [Py.lstrip]. rewrite P. exact R.
Qed.

Lemma strip_trailing_space : forall t, Py.strip (Py.strip t ++ " ") = Py.strip t.
Proof.
  intro t. apply (strip_snoc_space (Py.strip t) " " eq_refl).
  - unfold Py.strip. apply lstrip_rstrip_lstrip.
  - unfold Py.strip. apply rstrip_rstrip.
Qed.

Lemma split_piece_absent : forall sep s p,
  In p (Py.split sep s) -> Py.contains sep p = false.
Proof.
  intros sep. induction s as [|c s IH]; intros p; simpl.
  - intros [<-|[]]. reflexivity.
  - destruct (c =? sep)%char eqn:E.
    + intros [<-|I]; [reflexivity|exact (IH p I)].
    + pose proof (split_nonempty sep s) as N.
      destruct (Py.split sep s) as [|q qs]; [congruence|].
      intros [<-|I].
      * unfold Py.contains. simpl. rewrite E.
        exact (IH q (or_introl eq_refl)).
      * exact (IH p (or_intror I)).
Qed.

Lemma split_piece_sub : forall c sep s p,
  In p (Py.split sep s) -> Py.contains c s = false -> Py.contains c p = false.
Proof.
  intros c sep. induction s as [|d s IH]; intros p; simpl.
  - intros [<-|[]] _. reflexivity.
  - unfold Py.contains at 1. simpl. intros I H.
    apply orb_false_iff in H. destruct H as [H1 H2]. fold (Py.contains c s) in H2.
    destruct (d =? sep)%char.
    + destruct I as [<-|I]; [reflexivity|exact (IH p I H2)].
    + pose proof (split_nonempty sep s) as N.
      destruct (Py.split sep s) as [|q qs]; [congruence|].
      destruct I as [<-|I].
      * unfold Py.contains. simpl. rewrite H1.
        exact (IH q (or_introl eq_refl) H2).
      * exact (IH p (or_intror I) H2).
Qed.

Lemma partition_app : forall sep a b,
  Py.contains sep a = false -> Py.partition sep (a ++ sep :: b) = (a, b).
Proof.
  intros sep. induction a as [|c a IH]; intros b.
  - intros _. simpl. rewrite Ascii.eqb_refl. reflexivity.
  - unfold Py.contains. simpl. intro H. apply orb_false_iff in H.
    destruct H as [H1 H2]. rewrite H1, (IH b H2). reflexivity.
Qed.

Lemma partition_fst_absent : forall sep s,
  Py.contains sep (fst (Py.partition sep s)) = false.
Proof.
  intros sep. induction s as [|c s IH]; [reflexivity|]. simpl.
  destruct (c =? sep)%char eqn:E; [reflexivity|].
  destruct (Py.partition sep s) as [a b]. unfold Py.contains. simpl.
  rewrite E. exact IH.
Qed.

Lemma attr_fold_raise : forall spec l e,
  fold_left (attr_step spec) l (Raise e) = Raise e.
Proof. intros spec. induction l as [|p l IH]; intro e; [reflexivity|]. apply IH. Qed.

Lemma attr_fold_target : forall spec l tg0 op0 tg op,
  fold_left (attr_step spec) l (Ok (tg0, op0)) = Ok (tg, op) ->
  Forall (fun p => Py.contains "," p = false) l ->
  (forall T, tg0 = Some T ->
     Py.strip T = T /\ Py.contains "," T = false /\ Py.contains "=" T = false) ->
  forall T, tg = Some T ->
    Py.strip T = T /\ Py.contains "," T = false /\ Py.contains "=" T = false.
Proof.
  intros spec. induction l as [|p l IH]; intros tg0 op0 tg op H F G.
  - injection H as <- <-. exact G.
  - inversion F as [|? ? Fp Fl]; subst. cbn [fold_left] in H.
    unfold attr_step at 2 in H. cbn [bind] in H.
    destruct (Py.eqb p "optional"); [exact (IH _ _ _ _ H Fl G)|].
    destruct (Py.startswith p "target="); [|rewrite attr_fold_raise in H; discriminate].
    apply (IH _ _ _ _ H Fl). intros T E. injection E as <-.
    assert (U : Py.contains "," (nth 1 (Py.split "=" p) []) = false /\
                Py.contains "=" (nth 1 (Py.split "=" p) []) = false).
    { destruct (nth_in_or_default 1 (Py.split "=" p) []) as [I | ->].
      - split; [exact (split_piece_sub "," "=" p _ I Fp)|
                exact (split_piece_absent "=" p _ I)].
      - split; reflexivity. }
    split; [apply strip_strip|].
    split; apply contains_strip; [exact (proj1 U)|exact (proj2 U)].
Qed.

Section CanonicalSpec.

Variable re : pystr -> option (pystr -> bool).

Lemma build_strip : forall tg op nz text,
  MatchSpec_build re tg op nz (Py.strip text) = MatchSpec_build re tg op nz text.
Proof. intros. unfold MatchSpec_build. rewrite strip_strip. reflexivity. Qed.

Lemma build_fields : forall tg op (text : pystr) (m : MS.t),
  MatchSpec_build re tg op false text = Ok m ->
  MS.spec m = Py.strip text /\ MS.target m = tg /\ MS.optional m = op.
Proof.
  intros tg op text m. unfold MatchSpec_build.
  destruct (negb _); [discriminate|].
  destruct (_ =? 1)%nat; [intro H; injection H as <-; repeat split|].
  destruct (VersionSpec_new re _) as [vs|]; cbn [bind]; [|discriminate].
  cbn [andb].
  repeat match goal with
         | |- context [if ?c then _ else _] => destruct c
         | |- context [match re ?x with _ => _ end] => destruct (re x)
         end;
    try discriminate; intro H; injection H as <-; repeat split.
Qed.

Lemma target_step : forall spec T (a : option pystr * bool),
  Py.strip T = T -> Py.contains "=" T = false ->
  attr_step spec (Ok a) ("target=" ++ T) = Ok (Some T, snd a).
Proof.
  intros spec T [tg o] S E. unfold attr_step. cbn [bind snd].
  destruct (Py.eqb ("target=" ++ T) "optional") eqn:Q.
  { apply eqb_true_iff in Q. discriminate Q. }
  assert (W : Py.startswith ("target=" ++ T) "target=" = true).
  { cbn [app Py.startswith list_ascii_of_string]. rewrite !Ascii.eqb_refl.
    rewrite startswith_nil. reflexivity. }
  rewrite W.
  change ("target=" ++ T) with ("target" ++ "="%char :: T).
  rewrite split_app_sep, (split_nosep "=" T E).
  cbn [Py.split list_ascii_of_string app nth Ascii.eqb Bool.eqb].
  rewrite S. reflexivity.
Qed.

(** X18: a match spec compiled from text alone is rebuilt from its
    canonical string: compiling [str(m)] gives [m] again, name, spec text,
    strictness, matcher, [optional] and [target] included ([target] is
    not the empty string, which [str] leaves out). *)
Theorem matchspec_str_round_trip : forall (s : pystr) (m : MS.t),
  MatchSpec_new re s None None false = Ok m ->
  MS.target m <> Some [] ->
  MatchSpec_new re (MatchSpec_str m) None None false = Ok m.
Proof.
  intros s m H NT. unfold MatchSpec_new in H.
  pose proof (partition_fst_absent "(" s) as PF.
  destruct (Py.partition "(" s) as [text oparts]. cbn [fst] in PF.
  destruct (match oparts with [] => _ | _ => _ end) as [[tg op]|] eqn:A;
    cbn [bind] in H; [|discriminate].
  destruct (build_fields tg op text m H) as [F1 [F2 F3]].
  assert (G : forall T, tg = Some T ->
            Py.strip T = T /\ Py.contains "," T = false /\ Py.contains "=" T = false).
  { destruct oparts as [|o oparts'].
    - injection A as <- <-. discriminate.
    - unfold parse_attrs in A.
      destruct (Py.last_char _) as [c|]; [|discriminate].
      destruct (negb _); [discriminate|].
      apply (attr_fold_target _ _ _ _ _ _ A).
      + apply Forall_forall. intros p I. exact (split_piece_absent "," _ p I).
      + discriminate. }
  assert (PS : Py.contains "(" (Py.strip text) = false) by (apply contains_strip; exact PF).
  assert (B : forall tg' op', MatchSpec_build re tg' op' false (Py.strip text ++ " ") =
                              MatchSpec_build re tg' op' false text).
  { intros tg' op'. rewrite <- (build_strip tg' op' false (Py.strip text ++ " ")).
    rewrite strip_trailing_space. apply build_strip. }
  assert (K : forall args,
            args <> [] ->
            fold_left (attr_step (Py.strip text ++ " "))
                      (Py.split "," (Py.join "," args)) (Ok (None, false)) = Ok (tg, op) ->
            (exists c x, Py.join "," args = c :: x /\ Py.isspace c = false) ->
            MatchSpec_new re (Py.strip text ++ " (" ++ Py.join "," args ++ ")")
                          None None false = Ok m).
  { intros args NA FL [c [x [J C]]]. unfold MatchSpec_new.
    change (Py.strip text ++ " (" ++ Py.join "," args ++ ")")
      with (Py.strip text ++ [" "%char] ++ "("%char :: (Py.join "," args ++ [")"%char])).
    rewrite app_assoc, partition_app.
    2:{ rewrite contains_app, PS. reflexivity. }
    rewrite J in *. cbn [app]. unfold parse_attrs.
    change (c :: x ++ [")"%char]) with (c :: x ++ [")"%char]).
    rewrite (strip_clean c x ")" C eq_refl).
    unfold Py.last_char.
    change (c :: x ++ [")"%char]) with ((c :: x) ++ [")"%char]).
    rewrite rev_unit, removelast_last. rewrite Ascii.eqb_refl. cbn [negb].
    change (list_ascii_of_string " ") with [" "%char] in FL.
    rewrite FL. cbn [bind].
    change [" "%char] with (list_ascii_of_string " "). rewrite B. exact H. }
  unfold MatchSpec_str. rewrite F1, F2, F3.
  destruct op; cbn [orb].
  - destruct tg as [[|t0 T]|]; cbn [truthy].
    + exfalso. apply NT. rewrite F2. reflexivity.
    + destruct (G (t0 :: T) eq_refl) as [G1 [G2 G3]].
      apply K; [discriminate| |exists "o"%char; eexists; split; reflexivity].
      cbn [app Py.join].
      change ("optional" ++ "," ++ "target=" ++ t0 :: T)
        with ("optional" ++ ","%char :: ("target=" ++ t0 :: T)).
      rewrite split_app_sep, (split_nosep "," ("target=" ++ t0 :: T)).
      2:{ rewrite contains_app, G2. reflexivity. }
      cbn [Py.split list_ascii_of_string app Ascii.eqb Bool.eqb fold_left].
      change (attr_step _ (Ok (None, false)) _) with (@Ok (option pystr * bool) (None, true)).
      rewrite (target_step _ (t0 :: T) (None, true) G1 G3). reflexivity.
    + apply K; [discriminate|reflexivity|exists "o"%char; eexists; split; reflexivity].
  - destruct tg as [[|t0 T]|]; cbn [truthy].
    + exfalso. apply NT. rewrite F2. reflexivity.
    + destruct (G (t0 :: T) eq_refl) as [G1 [G2 G3]].
      apply K; [discriminate| |exists "t"%char; eexists; split; reflexivity].
      cbn [app Py.join].
      rewrite (split_nosep "," ("target=" ++ t0 :: T)).
      2:{ rewrite contains_app, G2. reflexivity. }
      cbn [fold_left].
      rewrite (target_step _ (t0 :: T) (None, false) G1 G3). reflexivity.
    + unfold MatchSpec_new. rewrite (partition_absent "(" _ PS).
      cbn [bind]. rewrite build_strip. exact H.
Qed.

End CanonicalSpec.

Lemma matchspec_str_round_trip_witness :
  exists m,
    MatchSpec_new Re.compile " numpy  1.7*  ( target= py27 ,optional)" None None false = Ok m /\
    MS.target m <> Some [] /\
    MatchSpec_str m = "numpy  1.7* (optional,target=py27)" /\
    MatchSpec_new Re.compile (MatchSpec_str m) None None false = Ok m.
Proof.
  eexists. split; [vm_compute; reflexivity|]. split; [discriminate|].
  split; [vm_compute; reflexivity|].
  apply (matchspec_str_round_trip Re.compile
           " numpy  1.7*  ( target= py27 ,optional)");
    [vm_compute; reflexivity|discriminate].
Defined.

(** ** Hashing *)

Lemma split_ws_piece : forall c s p,
  In p (Py.split_ws s) -> Py.contains c s = false -> Py.contains c p = false.
Proof.
  intros c. induction s as [|d s IH]; intros p; [intros []|].
  unfold Py.contains at 1. cbn [existsb]. fold (Py.contains c s).
  intros I H. apply orb_false_iff in H. destruct H as [H1 H2].
  cbn [Py.split_ws] in I. destruct (Py.isspace d); [exact (IH p I H2)|].
  destruct s as [|e s'].
  - destruct I as [<-|[]]. unfold Py.contains. cbn. rewrite H1. reflexivity.
  - destruct (Py.isspace e).
    + destruct I as [<-|I]; [|exact (IH p I H2)].
      unfold Py.contains. cbn. rewrite H1. reflexivity.
    + destruct (Py.split_ws (e :: s')) as [|q qs].
      * destruct I as [<-|[]]. unfold Py.contains. cbn. rewrite H1. reflexivity.
      * destruct I as [<-|I]; [|exact (IH p (or_intror I) H2)].
        unfold Py.contains. cbn [existsb]. rewrite H1.
        exact (IH q (or_introl eq_refl) H2).
Qed.

Lemma nth_piece : forall c (l : list pystr) i,
  (forall p, In p l -> Py.contains c p = false) -> Py.contains c (nth i l []) = false.
Proof.
  intros c l i H. destruct (nth_in_or_default i l []) as [I|E].
  - exact (H _ I).
  - rewrite E. reflexivity.
Qed.

(** What [__str__] adds to [self.spec]. *)
Lemma str_suffix : forall m : MS.t,
  exists x, MatchSpec_str m = MS.spec m ++ x /\
    x = match MS.optional m, MS.target m with
        | true, Some (a :: t) => " (optional,target=" ++ a :: t ++ ")"
        | true, _ => " (optional)"
        | false, Some (a :: t) => " (target=" ++ a :: t ++ ")"
        | false, _ => []
        end.
Proof.
  intros [tg op sp nm st mf]. unfold MatchSpec_str. cbn [MS.optional MS.target MS.spec].
  destruct op, tg as [[|a t]|]; cbn [truthy orb]; eexists;
    (split; [|reflexivity]); cbn [Py.join app list_ascii_of_string];
    try reflexivity; rewrite ?app_nil_r; reflexivity.
Qed.

Section HashAndStr.

Variable re : pystr -> option (pystr -> bool).

Lemma build_no_paren : forall tg op nz (text : pystr) (m : MS.t),
  MatchSpec_build re tg op nz text = Ok m ->
  Py.contains "(" text = false -> Py.contains "(" (MS.spec m) = false.
Proof.
  intros tg op nz text m H P.
  assert (PS : Py.contains "(" (Py.strip text) = false) by (apply contains_strip; exact P).
  revert H. unfold MatchSpec_build.
  set (parts := split_parts (Py.strip text)). cbv zeta.
  assert (PP : forall p, In p parts -> Py.contains "(" p = false).
  { intros p I. unfold parts, split_parts in I.
    destruct (Py.endswith _ _).
    - destruct I as [<-|[]]. exact PS.
    - exact (split_ws_piece "(" _ p I PS). }
  destruct (negb _); [discriminate|].
  destruct (_ =? 1)%nat; [intro H; injection H as <-; exact PS|].
  destruct (VersionSpec_new re _) as [vs|]; cbn [bind]; [|discriminate].
  assert (J : Py.contains "("
                (Py.join " " ([nth 0 parts []; nth 1 parts [] ++ "*"] ++ skipn 2 parts))
              = false).
  { assert (S2 : forall p, In p (skipn 2 parts) -> Py.contains "(" p = false).
    { intros p I. apply PP. rewrite <- (firstn_skipn 2 parts). apply in_or_app.
      right. exact I. }
    assert (JJ : forall l : list pystr,
               (forall p, In p l -> Py.contains "(" p = false) ->
               Py.contains "(" (Py.join " " l) = false).
    { induction l as [|x l IH]; intro F; [reflexivity|].
      destruct l as [|y l]; [exact (F x (or_introl eq_refl))|].
      change (Py.join " " (x :: y :: l)) with (x ++ " " ++ Py.join " " (y :: l)).
      rewrite !contains_app, (F x (or_introl eq_refl)).
      rewrite IH by (intros p I; apply F; right; exact I). reflexivity. }
    apply JJ. intros p [<-|[<-|I]].
    - apply nth_piece. exact PP.
    - rewrite contains_app, (nth_piece "(" parts 1 PP). reflexivity.
    - exact (S2 p I). }
  repeat match goal with
         | |- context [if ?c then _ else _] => destruct c
         | |- context [match re ?x with _ => _ end] => destruct (re x)
         | |- context [bind (VersionSpec_new re ?x)] =>
             destruct (VersionSpec_new re x); cbn [bind]
         end;
    try discriminate; intro H; injection H as <-; cbn [MS.spec];
    first [exact PS|exact J].
Qed.

(** C9, as the code has it: the hash of a compiled spec is the hash of
    [self.spec], the text without its attribute list, and not of the
    canonical string.  Two specs compiled, with the same [normalize],
    from texts that are the same before the attribute list, whitespace
    around them apart, have the same [self.spec], in which there is no
    parenthesis and which, without [normalize], is that text stripped;
    they have the same hash for every hash function on strings, whatever
    their [optional] and [target] attributes.  The attributes are in the
    canonical string only: the canonical strings of the two specs are the
    same exactly when both are optional or none is, and both have the same
    target, an empty target counting as none. *)
Theorem C9_hash_of_spec_text :
  forall (s1 s2 : pystr) (t1 t2 : option (option pystr))
         (o1 o2 : option bool) (normalize : bool) (m1 m2 : MS.t),
    Py.strip (fst (Py.partition "(" s1)) = Py.strip (fst (Py.partition "(" s2)) ->
    MatchSpec_new re s1 t1 o1 normalize = Ok m1 ->
    MatchSpec_new re s2 t2 o2 normalize = Ok m2 ->
    MS.spec m1 = MS.spec m2 /\
    Py.contains "(" (MS.spec m1) = false /\
    (normalize = false -> MS.spec m1 = Py.strip (fst (Py.partition "(" s1))) /\
    (forall hash : pystr -> Z,
       MatchSpec_hash hash m1 = hash (MS.spec m2) /\
       MatchSpec_hash hash m1 = MatchSpec_hash hash m2) /\
    (MatchSpec_str m1 = MatchSpec_str m2 <->
     MS.optional m1 = MS.optional m2 /\
     (if truthy (MS.target m1) then MS.target m1 else None) =
     (if truthy (MS.target m2) then MS.target m2 else None)).
Proof.
  intros s1 s2 t1 t2 o1 o2 normalize m1 m2 E. unfold MatchSpec_new.
  pose proof (partition_fst_absent "(" s1) as P1.
  destruct (Py.partition "(" s1) as [x1 a1], (Py.partition "(" s2) as [x2 a2].
  cbn [fst] in *.
  destruct (match a1 with [] => _ | _ => _ end) as [[tg1 op1]|]; cbn [bind];
    [|discriminate].
  destruct (match a2 with [] => _ | _ => _ end) as [[tg2 op2]|]; cbn [bind];
    [|discriminate].
  intros H1 H2.
  pose proof (build_no_paren _ _ _ _ _ H1 P1) as NP.
  assert (F : normalize = false -> MS.spec m1 = Py.strip x1).
  { intros ->. exact (proj1 (build_fields re _ _ _ _ H1)). }
  rewrite <- build_strip, <- E, build_strip in H2.
  rewrite (@build_attributes re _ _ tg2 op2 _ _ _ H1) in H2. injection H2 as <-.
  cbn [MS.spec MS.optional MS.target].
  split; [reflexivity|]. split; [exact NP|]. split; [exact F|].
  split; [intro hash; split; reflexivity|].
  destruct (str_suffix m1) as [y1 [S1 Y1]].
  destruct (str_suffix (MS.mk tg2 op2 (MS.spec m1) (MS.name m1) (MS.strictness m1)
                              (MS.match_fast m1))) as [y2 [S2 Y2]].
  rewrite S1, S2. cbn [MS.spec MS.optional MS.target] in *.
  split.
  - intro H. apply app_inv_head in H. rewrite Y1, Y2 in H. clear - H.
    destruct (MS.optional m1), op2, (MS.target m1) as [[|c1 r1]|], tg2 as [[|c2 r2]|];
      cbn [truthy]; try discriminate H; try (split; reflexivity);
      cbn [app list_ascii_of_string] in H; injection H as -> H;
      apply app_inv_tail in H; subst; split; reflexivity.
  - intros [O T]. f_equal. rewrite Y1, Y2, O. clear - T.
    destruct op2, (MS.target m1) as [[|c1 r1]|], tg2 as [[|c2 r2]|];
      cbn [truthy] in T; try discriminate T; try reflexivity;
      injection T as -> ->; reflexivity.
Qed.

End HashAndStr.

Lemma C9_hash_of_spec_text_witness :
  (Py.strip (fst (Py.partition "(" "numpy 1.7 (optional)")) =
   Py.strip (fst (Py.partition "(" "numpy 1.7")) /\
   MatchSpec_new Re.compile "numpy 1.7 (optional)" None None false =
   Ok (MS.mk None true "numpy 1.7" "numpy" 2 (MS.MatchVersion (VSExact "1.7"))) /\
   MatchSpec_new Re.compile "numpy 1.7" None None false =
   Ok (MS.mk None false "numpy 1.7" "numpy" 2 (MS.MatchVersion (VSExact "1.7")))) /\
  forall hash : pystr -> Z,
    MatchSpec_hash hash (MS.mk None true "numpy 1.7" "numpy" 2
                               (MS.MatchVersion (VSExact "1.7"))) =
    MatchSpec_hash hash (MS.mk None false "numpy 1.7" "numpy" 2
                               (MS.MatchVersion (VSExact "1.7"))).
Proof.
  split.
  - repeat split; vm_compute; reflexivity.
  - intro hash.
    apply (proj2 (proj1 (proj2 (proj2 (proj2
             (C9_hash_of_spec_text Re.compile
                "numpy 1.7 (optional)" "numpy 1.7" None None None None
                false _ _ eq_refl eq_refl eq_refl)))) hash)).
Defined.

(** Two specs with the same text and different attributes: their
    canonical strings differ and their hashes are equal. *)
Lemma C9_counterexample :
  exists m1 m2 : MS.t,
    MatchSpec_new Re.compile "numpy 1.7 (optional,target=abc)" None None false = Ok m1 /\
    MatchSpec_new Re.compile "numpy 1.7" None None false = Ok m2 /\
    MatchSpec_str m1 = "numpy 1.7 (optional,target=abc)" /\
    MatchSpec_str m2 = "numpy 1.7" /\
    forall hash : pystr -> Z, MatchSpec_hash hash m1 = MatchSpec_hash hash m2.
Proof.
  eexists. eexists. split; [vm_compute; reflexivity|].
  split; [vm_compute; reflexivity|].
  split; [vm_compute; reflexivity|].
  split; [vm_compute; reflexivity|].
  intro hash. reflexivity.
Qed.

(** ** fileutils: the retries of robust_rmtree *)

Lemma sleeps_app : forall a b,
  Fileutils.sleeps (a ++ b) = Fileutils.sleeps a ++ Fileutils.sleeps b.
Proof.
  induction a as [|e a IH]; intro b; [reflexivity|].
  destruct e; simpl; rewrite IH; reflexivity.
Qed.

Lemma robust_rmtree_loop_policy : forall rmtree path logger togo k dt,
  exists j,
    j <= togo /\
    (forall i, i < j -> rmtree (k + i) = Fileutils.RaisedOSError) /\
    (j < togo -> rmtree (k + j) <> Fileutils.RaisedOSError) /\
    let (tr, e) := Fileutils.robust_rmtree_loop rmtree path logger togo k dt in
    Fileutils.calls tr = S j /\
    Fileutils.sleeps tr = map (fun i => (dt * 2 ^ Z.of_nat i)%Z) (seq 0 j) /\
    e = match rmtree (k + j) with
        | Fileutils.Removed => Fileutils.Returned
        | o => Fileutils.Propagated o
        end.
Proof.
  intros rmtree path logger. induction togo as [|togo IH]; intros k dt.
  - exists 0. rewrite Nat.add_0_r. cbn [Fileutils.robust_rmtree_loop].
    repeat split; lia.
  - cbn [Fileutils.robust_rmtree_loop].
    destruct (rmtree k) eqn:R.
    + exists 0. rewrite Nat.add_0_r, R. repeat split; try lia.
      intros _. discriminate.
    + destruct (IH (S k) (dt * 2)%Z) as [j [J1 [J2 [J3 J4]]]].
      exists (S j). split; [lia|]. split; [|split].
      * intros i L. destruct i as [|i]; [rewrite Nat.add_0_r; exact R|].
        rewrite Nat.add_succ_r. apply (J2 i). lia.
      * intro L. rewrite Nat.add_succ_r. apply J3. lia.
      * destruct (Fileutils.robust_rmtree_loop rmtree path logger togo (S k) (dt * 2))
          as [tr e].
        destruct J4 as [C [S E]]. rewrite Nat.add_succ_r. split; [|split].
        -- unfold Fileutils.calls in *. destruct logger; simpl; rewrite C; reflexivity.
        -- change (Fileutils.Rmtree path ::
                   (if logger
                    then [Fileutils.Info_unable path; Fileutils.Info_retrying dt]
                    else []) ++ Fileutils.Sleep dt :: tr)
             with ([Fileutils.Rmtree path] ++
                   (if logger
                    then [Fileutils.Info_unable path; Fileutils.Info_retrying dt]
                    else []) ++ Fileutils.Sleep dt :: tr).
           rewrite !sleeps_app.
           replace (Fileutils.sleeps (if logger
                      then [Fileutils.Info_unable path; Fileutils.Info_retrying dt]
                      else [])) with (@nil Z) by (destruct logger; reflexivity).
           cbn [Fileutils.sleeps app]. rewrite S.
           cbn [seq map]. f_equal; [cbn; lia|].
           rewrite <- seq_shift, map_map. apply map_ext. intro i.
           rewrite Nat2Z.inj_succ, Z.pow_succ_r by lia. lia.
        -- exact E.
    + exists 0. rewrite Nat.add_0_r, R. repeat split; try lia.
      intros _. discriminate.
Qed.

Lemma sum_powers : forall j,
  fold_right Z.add 0%Z (map (fun i => (1 * 2 ^ Z.of_nat i)%Z) (seq 0 j)) =
  (2 ^ Z.of_nat j - 1)%Z.
Proof.
  induction j as [|j IH]; [reflexivity|].
  rewrite seq_S, map_app, fold_right_app. cbn [map fold_right Nat.add].
  assert (G : forall l a, fold_right Z.add a l = (fold_right Z.add 0 l + a)%Z).
  { induction l as [|x l IHl]; intro a; simpl; [lia|]. rewrite IHl. lia. }
  rewrite G, IH, Nat2Z.inj_succ, Z.pow_succ_r by lia. lia.
Qed.

(** X19: [robust_rmtree] calls [shutil.rmtree] until a call does not
    raise [OSError], at most [max_retries + 1] times (once when
    [max_retries] is negative); before the retry number [i] it sleeps
    [2 ** i] seconds, [2 ** j - 1] seconds in all after [j] failures; it
    returns when the last call returns and else passes on the exception of
    the last call, an [OSError] only after [max_retries + 1] failures. *)
Theorem robust_rmtree_policy :
  forall (rmtree : nat -> Fileutils.outcome) (path : pystr) (logger : bool)
         (max_retries : Z),
  exists j,
    j <= Z.to_nat max_retries /\
    (forall i, i < j -> rmtree i = Fileutils.RaisedOSError) /\
    (j < Z.to_nat max_retries -> rmtree j <> Fileutils.RaisedOSError) /\
    let (tr, e) := Fileutils.robust_rmtree rmtree path logger max_retries in
    Fileutils.calls tr = S j /\
    Fileutils.sleeps tr = map (fun i => (2 ^ Z.of_nat i)%Z) (seq 0 j) /\
    fold_right Z.add 0%Z (Fileutils.sleeps tr) = (2 ^ Z.of_nat j - 1)%Z /\
    e = match rmtree j with
        | Fileutils.Removed => Fileutils.Returned
        | o => Fileutils.Propagated o
        end.
Proof.
  intros rmtree path logger n. unfold Fileutils.robust_rmtree.
  destruct (robust_rmtree_loop_policy rmtree path logger (Z.to_nat n) 0 1)
    as [j [J1 [J2 [J3 J4]]]].
  exists j. split; [exact J1|]. split; [exact J2|]. split; [exact J3|].
  destruct (Fileutils.robust_rmtree_loop rmtree path logger (Z.to_nat n) 0 1) as [tr e].
  destruct J4 as [C [S E]]. cbn [Nat.add] in E.
  split; [exact C|]. split; [|split; [|exact E]].
  - rewrite S. apply map_ext. intro i. lia.
  - rewrite S. apply sum_powers.
Qed.

(** ** Normalized specs *)

Section Normalize.

Variable re : pystr -> option (pystr -> bool).

Lemma two_token_spec : forall (n y : pystr) (nz : bool),
  n <> [] -> forallb name_char n = true ->
  y <> [] -> forallb (fun d => negb (Py.isspace d)) y = true ->
  Py.contains "(" y = false ->
  Py.endswith (n ++ " "%char :: y) CONDA_TARBALL_EXTENSION = false ->
  MatchSpec_new re (n ++ " "%char :: y) None None nz =
  (vspec <- VersionSpec_new re y ;;
   if VersionSpec_is_exact vspec && nz && negb (Py.endswith y "*") then
     vspec' <- VersionSpec_new re (y ++ "*") ;;
     Ok (MS.mk None false (n ++ " " ++ y ++ "*") n 2 (MS.MatchVersion vspec'))
   else Ok (MS.mk None false (n ++ " "%char :: y) n 2 (MS.MatchVersion vspec))).
Proof.
  intros n y nz Nn Cn Ny Sy Py EW.
  destruct (name_chars n Cn) as [N1 [_ N3]].
  unfold MatchSpec_new. rewrite partition_absent.
  2:{ rewrite contains_app, N3. unfold Py.contains at 1. simpl. exact Py. }
  cbn [bind]. unfold MatchSpec_build.
  rewrite (strip_two_tokens n y Nn Ny N1 Sy).
  unfold split_parts. rewrite EW.
  rewrite (split_ws_app n " " y Nn N1 eq_refl), (split_ws_token y Ny Sy).
  cbn [length Nat.leb Nat.eqb Nat.ltb andb negb nth skipn app].
  destruct (VersionSpec_new re y) as [vs|]; cbn [bind]; [|reflexivity].
  destruct (VersionSpec_is_exact vs); cbn [andb]; [|reflexivity].
  destruct nz; cbn [andb]; [|reflexivity].
  destruct (negb (Py.endswith y "*")); [|reflexivity].
  destruct (VersionSpec_new re (y ++ "*")); reflexivity.
Qed.

(** X20: with [normalize], a spec of a name (not empty, without
    whitespace, operator character or opening parenthesis), a space and
    the text of a valid version that has no star and does not end in
    [.tar.bz2] is compiled
    as the spec with a star after the version: the stored text has the
    star, and the spec accepts that version and every version with one
    more component, where the added component has no character that
    separates components and is at most 4300 characters long, the length
    up to which [int] converts every run of digits; without [normalize]
    the version with [.0] added is rejected. *)
Theorem normalize_makes_prefix :
  forall (n s : pystr) (v : VersionOrder),
    VO.new s = Ok v ->
    Py.contains "*" (VO.str v) = false ->
    Py.endswith (VO.str v) CONDA_TARBALL_EXTENSION = false ->
    n <> [] -> forallb name_char n = true ->
    exists m,
      MatchSpec_new re (n ++ " " ++ VO.str v) None None true = Ok m /\
      MatchSpec_new re (n ++ " " ++ VO.str v ++ "*") None None false = Ok m /\
      MS.spec m = n ++ " " ++ VO.str v ++ "*" /\
      (forall build, MatchSpec_match re m (Dist.mk n (VO.str v) build) = Ok true) /\
      (forall x build, x <> [] -> forallb comp_char x = true -> fits_int x = true ->
         MatchSpec_match re m (Dist.mk n (VO.str v ++ "." ++ x) build) = Ok true) /\
      (forall build,
         spec_matches re (n ++ " " ++ VO.str v) n (VO.str v ++ ".0") build = Ok false).
Proof.
  intros n s v H NS NT Nn Cn.
  pose proof (bare_version_compiles re s v H NS) as BV.
  pose proof (prefix_spec_compiles re s v H NS) as PV.
  destruct (startswith_appended s v H) as [R X].
  destruct (parsed_text s v H) as [a [r [E [V [B P]]]]].
  destruct (valid_contains (VO.str v)) as [_ [_ W]]; [rewrite E; exact V|].
  assert (Q : Py.contains "(" (VO.str v) = false).
  { rewrite E in *. clear - V. induction (a :: r) as [|c l IH]; [reflexivity|].
    simpl in V. apply andb_true_iff in V. destruct V as [Vc Vl].
    unfold Py.contains. simpl. fold (Py.contains "(" l). rewrite (IH Vl).
    destruct c as [[] [] [] [] [] [] [] []]; vm_compute in Vc; try discriminate Vc;
      reflexivity. }
  assert (NV : VO.str v <> []) by (rewrite E; discriminate).
  assert (EW : Py.endswith (n ++ " "%char :: VO.str v) CONDA_TARBALL_EXTENSION = false).
  { apply endswith_blocked; [exact NT|reflexivity]. }
  assert (ES : Py.endswith (VO.str v) "*" = false) by (apply endswith_absent; exact NS).
  change (list_ascii_of_string " ") with [" "%char]. cbn [app].
  eexists. split; [|split; [|split; [|split; [|split]]]].
  - rewrite (two_token_spec n (VO.str v) true Nn Cn NV W Q EW).
    rewrite BV. cbn [bind VersionSpec_is_exact andb]. rewrite ES. cbn [negb].
    rewrite PV. cbn [bind]. reflexivity.
  - change (n ++ " "%char :: VO.str v ++ "*") with (n ++ " "%char :: (VO.str v ++ "*")).
    rewrite (two_token_spec n (VO.str v ++ "*") false Nn Cn).
    + rewrite PV. cbn [bind VersionSpec_is_exact andb]. reflexivity.
    + destruct (VO.str v); discriminate.
    + rewrite forallb_app, W. reflexivity.
    + rewrite contains_app, Q. reflexivity.
    + change (n ++ " "%char :: VO.str v ++ "*")
        with (n ++ (" "%char :: VO.str v) ++ ["*"%char]).
      rewrite app_assoc. unfold Py.endswith. rewrite rev_unit. reflexivity.
  - reflexivity.
  - intro build. unfold MatchSpec_match, MatchSpec_match_fast.
    cbn [Dist.quad Dist.name Dist.version Dist.build_string MS.name MS.match_fast
         VersionSpec_match].
    rewrite eqb_refl. cbn [negb]. rewrite (new_str s v H). cbn [bind apply_op]. exact R.
  - intros x build NX CX FX. unfold MatchSpec_match, MatchSpec_match_fast.
    cbn [Dist.quad Dist.name Dist.version Dist.build_string MS.name MS.match_fast
         VersionSpec_match].
    rewrite eqb_refl. cbn [negb]. destruct (X x NX CX FX) as [v' [P' S']].
    change (list_ascii_of_string ".") with ["."%char] in *. cbn [app] in *.
    rewrite P'. cbn [bind apply_op]. exact S'.
  - intro build. unfold spec_matches.
    rewrite (two_token_spec n (VO.str v) false Nn Cn NV W Q EW).
    rewrite BV. cbn [bind VersionSpec_is_exact andb].
    unfold MatchSpec_match, MatchSpec_match_fast.
    cbn [Dist.quad Dist.name Dist.version Dist.build_string MS.name MS.match_fast
         VersionSpec_match].
    rewrite eqb_refl. cbn [negb]. rewrite eqb_app_false; [reflexivity|discriminate].
Qed.

End Normalize.

Lemma normalize_makes_prefix_witness :
  (VO.new "1.7" = Ok (parsed "1.7") /\
   Py.contains "*" (VO.str (parsed "1.7")) = false /\
   Py.endswith (VO.str (parsed "1.7")) CONDA_TARBALL_EXTENSION = false /\
   ("numpy" : pystr) <> [] /\ forallb name_char "numpy" = true) /\
  exists m,
    MatchSpec_new Re.compile ("numpy" ++ " " ++ VO.str (parsed "1.7")) None None true = Ok m /\
    MS.spec m = "numpy 1.7*" /\
    MatchSpec_match Re.compile m (Dist.mk "numpy" "1.7.1rc" "0") = Ok true.
Proof.
  split; [repeat split; try (vm_compute; reflexivity); discriminate|].
  assert (N : ("numpy" : pystr) <> []) by discriminate.
  destruct (normalize_makes_prefix Re.compile "numpy" "1.7" (parsed "1.7")
              eq_refl eq_refl eq_refl N eq_refl) as [m [A [_ [B [_ [C _]]]]]].
  exists m. split; [exact A|]. split; [exact B|].
  apply (C (list_ascii_of_string "1rc") (list_ascii_of_string "0"));
    [discriminate|reflexivity|reflexivity].
Defined.

(** ** Specs that begin with operator characters *)

Lemma operator_char_cases : forall c,
  operator_char c = true ->
  c = ">"%char \/ c = "<"%char \/ c = "="%char \/ c = "!"%char.
Proof.
  intros c H. unfold operator_char in H.
  destruct (Ascii.eqb_spec c ">"); [tauto|].
  destruct (Ascii.eqb_spec c "<"); [tauto|].
  destruct (Ascii.eqb_spec c "="); [tauto|].
  destruct (Ascii.eqb_spec c "!"); [tauto|discriminate].
Qed.

Lemma plain_char_tests : forall d,
  operator_char d = false ->
  ("=" =? d)%char = false /\ ("<" =? d)%char = false /\
  (">" =? d)%char = false /\ ("!" =? d)%char = false.
Proof.
  intros d H. unfold operator_char in H.
  rewrite !(Ascii.eqb_sym _ d).
  destruct (d =? ">")%char, (d =? "<")%char, (d =? "=")%char, (d =? "!")%char;
    try discriminate H; repeat split.
Qed.

Lemma lookahead_operator : forall c r,
  operator_char c = true -> relation_rest (c :: r) = None.
Proof.
  intros c r H. unfold relation_rest.
  destruct (operator_char_cases c H) as [-> | [-> | [-> | ->]]]; reflexivity.
Qed.

(** The operator that [_version_relation_re] finds is the whole run of
    operator characters at the start. *)
Lemma relation_match_run : forall run rest,
  run <> [] -> forallb operator_char run = true ->
  match rest with [] => True | d :: _ => operator_char d = false end ->
  relation_match (run ++ rest) =
  match find (fun p : pystr * relop => Py.eqb (fst p) run) relation_ops with
  | Some (_, op) =>
      match relation_rest rest with
      | Some b => Some (op, b)
      | None => None
      end
  | None => None
  end.
Proof.
  intros run rest N R D.
  destruct run as [|c1 run]; [congruence|].
  simpl in R. apply andb_true_iff in R. destruct R as [R1 R].
  destruct run as [|c2 run].
  - destruct rest as [|d r].
    + destruct (operator_char_cases c1 R1) as [-> | [-> | [-> | ->]]]; reflexivity.
    + destruct (plain_char_tests d D) as [E1 [E2 [E3 E4]]].
      destruct (operator_char_cases c1 R1) as [-> | [-> | [-> | ->]]];
        unfold relation_match, relation_ops;
        cbn [VO.first_return Py.startswith list_ascii_of_string app length skipn
             find fst];
        rewrite ?E1, ?E2, ?E3, ?E4, ?andb_false_r; rewrite ?startswith_nil;
        cbn [VO.first_return Ascii.eqb Bool.eqb andb];
        try destruct (relation_rest _); reflexivity.
  - simpl in R. apply andb_true_iff in R. destruct R as [R2 R].
    destruct run as [|c3 run].
    + destruct (operator_char_cases c1 R1) as [-> | [-> | [-> | ->]]];
        destruct (operator_char_cases c2 R2) as [-> | [-> | [-> | ->]]];
        unfold relation_match, relation_ops;
        cbn [VO.first_return Py.startswith list_ascii_of_string app length skipn
             Ascii.eqb Bool.eqb andb find fst];
        rewrite ?startswith_nil; rewrite ?lookahead_operator by reflexivity;
        cbn [VO.first_return]; try destruct (relation_rest _); reflexivity.
    + simpl in R. apply andb_true_iff in R. destruct R as [R3 _].
      destruct (operator_char_cases c1 R1) as [-> | [-> | [-> | ->]]];
        destruct (operator_char_cases c2 R2) as [-> | [-> | [-> | ->]]];
        unfold relation_match, relation_ops;
        cbn [VO.first_return Py.startswith list_ascii_of_string app length skipn
             Ascii.eqb Bool.eqb andb find fst];
        rewrite ?startswith_nil; rewrite ?lookahead_operator by assumption;
        rewrite ?lookahead_operator by reflexivity;
        cbn [VO.first_return]; try destruct (relation_rest _); reflexivity.
Qed.

Lemma before_dollar_head : forall c r,
  VO.before_dollar (c :: r) = [] \/ exists b, VO.before_dollar (c :: r) = c :: b.
Proof.
  intros c r. unfold VO.before_dollar.
  destruct (rev (c :: r)) as [|x t] eqn:E; [right; exists r; reflexivity|].
  destruct (x =? "010")%char; [|right; exists r; reflexivity].
  assert (F : c :: r = rev t ++ [x]).
  { rewrite <- (rev_involutive (c :: r)), E. reflexivity. }
  destruct (rev t) as [|y u]; [left; reflexivity|].
  injection F as <- _. right. exists u. reflexivity.
Qed.

Lemma relation_rest_space : forall sp r,
  Py.isspace sp = true -> relation_rest (sp :: r) = None.
Proof.
  intros sp r S. unfold relation_rest.
  destruct ((sp =? "=")%char || (sp =? "<")%char || (sp =? ">")%char || (sp =? "!")%char);
    [reflexivity|].
  destruct (before_dollar_head sp r) as [-> | [b ->]]; [reflexivity|].
  cbn [forallb]. rewrite S. reflexivity.
Qed.

Lemma space_not_operator : forall sp, Py.isspace sp = true -> operator_char sp = false.
Proof.
  intros sp. destruct sp as [[] [] [] [] [] [] [] []]; vm_compute; intro H;
    try discriminate H; reflexivity.
Qed.

Section OperatorErrors.

Variable re : pystr -> option (pystr -> bool).

Lemma operator_leaf : forall run rest,
  run <> [] -> forallb operator_char run = true ->
  Py.contains "|" rest = false -> Py.contains "," rest = false ->
  VersionSpec_new re (run ++ rest) =
  match relation_match (run ++ rest) with
  | None => Raise (ValueError ("Invalid spec: " ++ run ++ rest))
  | Some (op, b) => cmp <- VO.new b ;; Ok (VSEval (run ++ rest) op cmp)
  end.
Proof.
  intros run rest N R B C.
  destruct run as [|c run]; [congruence|].
  pose proof R as R'. simpl in R'. apply andb_true_iff in R'. destruct R' as [Rc _].
  assert (K : forall x, x = "|"%char \/ x = ","%char ->
                        Py.contains x ((c :: run) ++ rest) = false).
  { intros x X. rewrite contains_app. apply orb_false_iff. split.
    - unfold Py.contains. apply not_true_iff_false. intro E.
      apply existsb_exists in E. destruct E as [d [I E]].
      rewrite forallb_forall in R. specialize (R d I).
      apply Ascii.eqb_eq in E. subst d.
      destruct X as [-> | ->]; discriminate R.
    - destruct X as [-> | ->]; assumption. }
  rewrite new_leaf.
  - unfold VersionSpec_leaf.
    replace (existsb (fun p : pystr => Py.startswith ((c :: run) ++ rest) p)
                     ["=" : pystr; "<" : pystr; ">" : pystr; "!" : pystr]) with true.
    + reflexivity.
    + destruct (operator_char_cases c Rc) as [-> | [-> | [-> | ->]]];
        cbn [existsb app Py.startswith list_ascii_of_string Ascii.eqb Bool.eqb andb orb];
        rewrite startswith_nil; reflexivity.
  - apply regex_split_other.
    destruct (operator_char_cases c Rc) as [-> | [-> | [-> | ->]]]; reflexivity.
  - apply K. left. reflexivity.
  - apply K. right. reflexivity.
Qed.

(** X21: what [_version_relation_re] is said to reject is rejected
    with [ValueError]: a run of operator characters that is not one of
    the six operators, an operator with nothing after it, and an operator
    followed by a space. *)
Theorem operator_spec_rejected :
  (forall run rest : pystr,
     run <> [] -> forallb operator_char run = true ->
     match rest with [] => True | d :: _ => operator_char d = false end ->
     (forall op, ~ In (run, op) relation_ops) ->
     Py.contains "|" rest = false -> Py.contains "," rest = false ->
     VersionSpec_new re (run ++ rest) =
     Raise (ValueError ("Invalid spec: " ++ run ++ rest))) /\
  (forall (sym : pystr) (op : relop),
     In (sym, op) relation_ops ->
     VersionSpec_new re sym = Raise (ValueError ("Invalid spec: " ++ sym))) /\
  (forall (sym : pystr) (op : relop) (sp : ascii) (r : pystr),
     In (sym, op) relation_ops -> Py.isspace sp = true ->
     Py.contains "|" r = false -> Py.contains "," r = false ->
     VersionSpec_new re (sym ++ sp :: r) =
     Raise (ValueError ("Invalid spec: " ++ sym ++ sp :: r))).
Proof.
  split; [|split].
  - intros run rest N R D U B C.
    rewrite (operator_leaf run rest N R B C), (relation_match_run run rest N R D).
    destruct (find _ relation_ops) as [[sym op]|] eqn:F; [|reflexivity].
    exfalso. apply find_some in F. destruct F as [I E].
    cbn [fst] in E. apply eqb_true_iff in E. subst sym. exact (U op I).
  - intros sym op I.
    destruct (relation_symbol sym op I) as [S1 [Z1 _]].
    pose proof (operator_leaf sym [] Z1 S1 eq_refl eq_refl) as L.
    pose proof (relation_match_run sym [] Z1 S1 Logic.I) as M.
    rewrite app_nil_r in L, M. rewrite L, M.
    destruct (find _ relation_ops) as [[sym' op']|]; reflexivity.
  - intros sym op sp r I S B C.
    destruct (relation_symbol sym op I) as [S1 [Z1 _]].
    assert (B' : Py.contains "|" (sp :: r) = false).
    { unfold Py.contains. simpl. fold (Py.contains "|" r). rewrite B.
      destruct sp as [[] [] [] [] [] [] [] []]; vm_compute in S; try discriminate S;
        reflexivity. }
    assert (C' : Py.contains "," (sp :: r) = false).
    { unfold Py.contains. simpl. fold (Py.contains "," r). rewrite C.
      destruct sp as [[] [] [] [] [] [] [] []]; vm_compute in S; try discriminate S;
        reflexivity. }
    rewrite (operator_leaf sym (sp :: r) Z1 S1 B' C').
    rewrite (relation_match_run sym (sp :: r) Z1 S1 (space_not_operator sp S)).
    rewrite (relation_rest_space sp r S).
    destruct (find _ relation_ops) as [[sym' op']|]; reflexivity.
Qed.

End OperatorErrors.

Lemma operator_spec_rejected_witness :
  VersionSpec_new Re.compile ("<>" ++ "1.2") = Raise (ValueError "Invalid spec: <>1.2") /\
  VersionSpec_new Re.compile ("=" ++ "1.7") = Raise (ValueError "Invalid spec: =1.7") /\
  VersionSpec_new Re.compile ("<=!" ++ "1.2") = Raise (ValueError "Invalid spec: <=!1.2") /\
  VersionSpec_new Re.compile ("<=" ++ " "%char :: "1.2") =
  Raise (ValueError "Invalid spec: <= 1.2").
Proof.
  split; [|split; [|split]].
  - apply (proj1 (operator_spec_rejected Re.compile) "<>" "1.2");
      try reflexivity; try discriminate.
    intros op I. unfold relation_ops in I. simpl in I.
    repeat (destruct I as [I|I]; [discriminate I|]). exact I.
  - apply (proj1 (operator_spec_rejected Re.compile) "=" "1.7");
      try reflexivity; try discriminate.
    intros op I. unfold relation_ops in I. simpl in I.
    repeat (destruct I as [I|I]; [discriminate I|]). exact I.
  - apply (proj1 (operator_spec_rejected Re.compile) "<=!" "1.2");
      try reflexivity; try discriminate.
    intros op I. unfold relation_ops in I. simpl in I.
    repeat (destruct I as [I|I]; [discriminate I|]). exact I.
  - apply (proj2 (proj2 (operator_spec_rejected Re.compile)) "<=" OpLe " "%char "1.2");
      try reflexivity.
    right. right. left. reflexivity.
Defined.

(** ** Specs that begin with a regular expression *)

Lemma regex_split_scan_body : forall body acc rest,
  forallb (fun d => negb (Py.isspace d) && negb (d =? "$")%char) body = true ->
  regex_split_scan acc (body ++ "$"%char :: rest) =
  Some (rev acc ++ body ++ ["$"%char], rest).
Proof.
  induction body as [|d body IH]; intros acc rest H.
  - cbn [app regex_split_scan]. rewrite Ascii.eqb_refl. reflexivity.
  - simpl in H. apply andb_true_iff in H. destruct H as [Hd Hb].
    apply andb_true_iff in Hd. destruct Hd as [H1 H2].
    apply negb_true_iff in H1, H2.
    cbn [app regex_split_scan]. rewrite H2, H1, (IH (d :: acc) rest Hb).
    cbn [rev]. rewrite <- app_assoc. reflexivity.
Qed.

Section RegexFirst.

Variable re : pystr -> option (pystr -> bool).

(** X22: when a spec begins with [^], a character that is no space,
    and further characters up to the first [$], the character after that
    [$] decides: [|] and [,] combine the expression and the rest of the
    spec as alternatives and as a conjunction, and every other character
    raises [KeyError]. *)
Theorem regex_first_operator :
  forall (b0 c : ascii) (body tail : pystr),
    Py.isspace b0 = false ->
    forallb (fun d => negb (Py.isspace d) && negb (d =? "$")%char) body = true ->
    let first := "^"%char :: b0 :: body ++ ["$"%char] in
    VersionSpec_new re (first ++ c :: tail) =
    if (c =? "|")%char then
      va <- VersionSpec_new re first ;; vb <- VersionSpec_new re tail ;;
      Ok (VSTuple TagStrAny [va; vb])
    else if (c =? ",")%char then
      va <- VersionSpec_new re first ;; vb <- VersionSpec_new re tail ;;
      Ok (VSTuple TagStrAll [va; vb])
    else Raise KeyError.
Proof.
  intros b0 c body tail B0 B first.
  set (spec := first ++ c :: tail).
  assert (R : regex_split spec = Some (first, c :: tail)).
  { unfold spec, first. cbn [app regex_split Ascii.eqb Bool.eqb andb].
    rewrite B0. cbn [negb]. rewrite <- app_assoc. cbn [app].
    rewrite (regex_split_scan_body body [b0; "^"%char] (c :: tail)) by exact B.
    reflexivity. }
  assert (C : compile_all (VersionSpec_fuel re (length spec)) [first; tail] =
              Some (mapM (VersionSpec_new re) [first; tail])).
  { apply compile_all_mapM. intros x I. apply fuel_enough.
    unfold spec. rewrite length_app. cbn [length].
    destruct I as [<- | [<- | []]]; lia. }
  assert (T : forall t, tupled t (Some (mapM (VersionSpec_new re) [first; tail])) =
              Some (va <- VersionSpec_new re first ;; vb <- VersionSpec_new re tail ;;
                    Ok (VSTuple t [va; vb]))).
  { intro t. cbn [mapM]. destruct (VersionSpec_new re first); [|reflexivity].
    destruct (VersionSpec_new re tail); reflexivity. }
  fold spec. clearbody spec first.
  unfold VersionSpec_new at 1. cbn [VersionSpec_fuel]. rewrite R.
  unfold regex_split_converter.
  match goal with
  | |- context [tupled _ ?x] =>
      replace x with (Some (mapM (VersionSpec_new re) [first; tail]))
        by (symmetry; exact C)
  end.
  destruct (c =? "|")%char; [rewrite T; reflexivity|].
  destruct (c =? ",")%char; [rewrite T; reflexivity|reflexivity].
Qed.

End RegexFirst.

Lemma regex_first_operator_witness :
  VersionSpec_new Re.compile ("^1\.7.*$" ++ "a"%char :: "2.0") = Raise KeyError /\
  VersionSpec_new Re.compile ("^1\.7.*$" ++ "|"%char :: "2.0") =
  Ok (VSTuple TagStrAny [VSRegex "^1\.7.*$" "^1\.7.*$"; VSExact "2.0"]).
Proof.
  split.
  - apply (regex_first_operator Re.compile "1" "a" "\.7.*" "2.0"); reflexivity.
  - apply (regex_first_operator Re.compile "1" "|" "\.7.*" "2.0"); reflexivity.
Defined.

(** ** The memo table keeps what a failed call leaves *)

(** X23: the memo table stores the object of a new string before the
    string is checked.  When the first call on a string raises, the table
    keeps the unfinished object, and the next call on the same string
    returns that object and raises nothing; when the first call returns,
    every later call returns the same finished object.  The other entries
    of the table are left as they were. *)
Theorem cache_keeps_unfinished_object :
  forall (cache : pystr -> option Cache.object) (s : pystr),
    cache s = None ->
    exists self cache',
      cache' s = Some self /\
      (forall k, k <> s -> cache' k = cache k) /\
      Cache.new cache' s = (Ok self, cache') /\
      match VO.new s with
      | Raise e => Cache.new cache s = (Raise e, cache') /\ complete self = false
      | Ok v => Cache.new cache s = (Ok self, cache') /\ self = built v /\
                complete self = true
      end.
Proof.
  intros cache s N. unfold Cache.new at 2 3. rewrite N.
  assert (K : forall self,
            (fun k => if Py.eqb k s then Some self else cache k) s = Some self /\
            (forall k, k <> s ->
               (fun k => if Py.eqb k s then Some self else cache k) k = cache k) /\
            Cache.new (fun k => if Py.eqb k s then Some self else cache k) s =
            (Ok self, fun k => if Py.eqb k s then Some self else cache k)).
  { intro self. split; [|split].
    - cbn beta. rewrite eqb_refl. reflexivity.
    - intros k D. cbn beta. destruct (Py.eqb k s) eqn:E; [|reflexivity].
      apply eqb_true_iff in E. congruence.
    - unfold Cache.new. rewrite eqb_refl. reflexivity. }
  destruct (VO.new s) as [v|e] eqn:V.
  - rewrite (body_ok s v V).
    exists (built v), (fun k => if Py.eqb k s then Some (built v) else cache k).
    destruct (K (built v)) as [K1 [K2 K3]].
    split; [exact K1|]. split; [exact K2|]. split; [exact K3|].
    split; [reflexivity|]. split; [reflexivity|].
    unfold complete, built. cbn [Cache.norm_version Cache.version Cache.local].
    rewrite <- map_app. induction (version v ++ local v) as [|c l IH]; [reflexivity|].
    exact IH.
  - destruct (body_raise s e V) as [self [B C]]. rewrite B.
    exists self, (fun k => if Py.eqb k s then Some self else cache k).
    destruct (K self) as [K1 [K2 K3]].
    split; [exact K1|]. split; [exact K2|]. split; [exact K3|].
    split; [reflexivity|exact C].
Qed.

Lemma cache_keeps_unfinished_object_witness :
  (fun _ : pystr => @None Cache.object) "1..2" = None /\
  exists self cache',
    Cache.new (fun _ => None) "1..2" =
      (Raise (ValueError "Malformed version string '1..2': empty version component."),
       cache') /\
    Cache.new cache' "1..2" = (Ok self, cache') /\
    self = Cache.mk (Some ("1..2" : pystr))
                    (Some [Cache.Runs [TInt 0]; Cache.Runs [TInt 1];
                           Cache.Text []; Cache.Text "2"])
                    (Some []).
Proof.
  split; [reflexivity|].
  destruct (cache_keeps_unfinished_object (fun _ => None) "1..2" eq_refl)
    as [self [cache' [A [_ [B C]]]]].
  exists self, cache'.
  assert (V : VO.new "1..2" =
              Raise (ValueError "Malformed version string '1..2': empty version component."))
    by (vm_compute; reflexivity).
  rewrite V in C. destruct C as [C _].
  split; [exact C|]. split; [exact B|].
  unfold Cache.new in C. cbn beta iota in C.
  assert (E : Cache.body "1..2" =
              (Cache.mk (Some ("1..2" : pystr))
                        (Some [Cache.Runs [TInt 0]; Cache.Runs [TInt 1];
                               Cache.Text []; Cache.Text "2"])
                        (Some []),
               Some (ValueError "Malformed version string '1..2': empty version component.")))
    by (vm_compute; reflexivity).
  rewrite E in C. injection C as C. rewrite <- C in A. cbn beta in A.
  rewrite eqb_refl in A. injection A as <-. reflexivity.
Defined.

(** ** Copies of a match spec *)

Section Copies.

Variable re : pystr -> option (pystr -> bool).

Lemma new_build : forall s tg op nz m,
  MatchSpec_new re s tg op nz = Ok m ->
  exists text tg1 op1,
    Py.contains "(" text = false /\ MatchSpec_build re tg1 op1 nz text = Ok m.
Proof.
  intros s tg op nz m H. unfold MatchSpec_new in H.
  pose proof (partition_fst_absent "(" s) as PF.
  destruct (Py.partition "(" s) as [text oparts]. cbn [fst] in PF.
  destruct (match oparts with [] => _ | _ => _ end) as [[tg1 op1]|];
    cbn [bind] in H; [|discriminate].
  exists text, tg1, op1. split; [exact PF|exact H].
Qed.

(** X24: a match spec made from a compiled match spec (one compiled
    without [normalize]) with a new [target] or [optional] has these two
    attributes as given, its own where none is given, and the spec text,
    the name, the strictness and the matcher of the original; with nothing
    given it is the original. *)
Theorem copy_keeps_matcher :
  forall (s : pystr) (tg tg' : option (option pystr)) (op op' : option bool) (m : MS.t),
    MatchSpec_new re s tg op false = Ok m ->
    MatchSpec_of_spec re m tg' op' false =
    Ok (MS.mk (match tg' with None => MS.target m | Some t => t end)
              (match op' with None => MS.optional m | Some b => b end)
              (MS.spec m) (MS.name m) (MS.strictness m) (MS.match_fast m)).
Proof.
  intros s tg tg' op op' m H.
  destruct (new_build s tg op false m H) as [text [tg1 [op1 [PF B]]]].
  destruct (build_fields re tg1 op1 text m B) as [F1 _].
  assert (G : forall t o,
            MatchSpec_new re (MS.spec m) (Some t) (Some o) false =
            Ok (MS.mk t o (MS.spec m) (MS.name m) (MS.strictness m) (MS.match_fast m))).
  { intros t o. unfold MatchSpec_new. rewrite F1.
    rewrite (partition_absent "(" (Py.strip text) (contains_strip "(" text PF)).
    cbn [bind]. rewrite build_strip.
    rewrite (@build_attributes re tg1 op1 t o false text m B). rewrite F1. reflexivity. }
  unfold MatchSpec_of_spec.
  destruct tg' as [t|], op' as [o|]; try apply G.
  destruct m; reflexivity.
Qed.

End Copies.

Lemma copy_keeps_matcher_witness :
  exists m,
    MatchSpec_new Re.compile "numpy 1.7* py27*" None None false = Ok m /\
    MatchSpec_of_spec Re.compile m (Some (Some ("abc" : pystr))) None false =
    Ok (MS.mk (Some ("abc" : pystr)) false "numpy 1.7* py27*" "numpy" 2 (MS.match_fast m)).
Proof.
  eexists. split; [vm_compute; reflexivity|].
  apply (copy_keeps_matcher Re.compile "numpy 1.7* py27*" None (Some (Some ("abc" : pystr)))
           None None).
  vm_compute. reflexivity.
Defined.

(** ** Version patterns with a star inside *)

Lemma replace_flat_map : forall a b (f : ascii -> pystr) s,
  Py.replace a b (flat_map f s) = flat_map (fun c => Py.replace a b (f c)) s.
Proof.
  intros a b f. induction s as [|c s IH]; [reflexivity|].
  cbn [flat_map]. rewrite replace_app, IH. reflexivity.
Qed.




Section Globs.

Variable re : pystr -> option (pystr -> bool).
Hypothesis re_fragment : Re.implements re.


End Globs.


